(** * fairseq2: machine-translation evaluation recipe and one-time setup

    A shallow embedding of
    - [src/fairseq2/recipes/mt/_eval.py]  ([load_mt_evaluator], [MTLossEvalUnit],
      [MTBleuChrfEvalUnit]),
    - [src/fairseq2/extensions.py]        ([run_extensions]),
    - [src/fairseq2/setup/_root.py]       ([setup_fairseq2], [setup_runtime_context]),
    together with the properties of these functions that the design document
    states.

    Python objects are first-order values ([Py.PyVal]); exceptions are values
    of [Py.PyExn]; code that raises or mutates is written in a state-and-error
    monad [Py.M S A], whose state is kept when an exception is raised, so what
    the code had already done at the point of failure stays visible. *)

From Stdlib Require Import ZArith Lia.
From stdpp Require Import base list strings gmap pretty.

Open Scope string_scope.
Open Scope list_scope.

(* ===================================================================== *)
(** ** Python values, exceptions and the effect monad *)
(* ===================================================================== *)

Module Py.

(** The fragment of Python's object universe that can reach the evaluation
    units through the untyped [batch.example] attribute. *)
#[warnings="-register-all"]
Inductive PyVal : Type :=
| PyNone
| PyBool (b : bool)
| PyInt (z : Z)
| PyStr (s : string)
| PyList (xs : list PyVal)
| PyDict (items : list (string * PyVal))
| PyObject (cls : string).

(** [type(v)] as an f-string renders it. *)
Definition type_repr (v : PyVal) : string :=
  match v with
  | PyNone => "<class 'NoneType'>"
  | PyBool _ => "<class 'bool'>"
  | PyInt _ => "<class 'int'>"
  | PyStr _ => "<class 'str'>"
  | PyList _ => "<class 'list'>"
  | PyDict _ => "<class 'dict'>"
  | PyObject cls => "<class '" +:+ cls +:+ "'>"
  end.

(** [isinstance(v, Mapping)]. *)
Definition is_Mapping (v : PyVal) : bool :=
  match v with PyDict _ => true | _ => false end.

(** [isinstance(v, Iterable)]: strings, lists and dicts define [__iter__]. *)
Definition is_Iterable (v : PyVal) : bool :=
  match v with PyStr _ | PyList _ | PyDict _ => true | _ => false end.

Fixpoint chars (s : string) : list string :=
  match s with
  | EmptyString => []
  | String c s' => String c EmptyString :: chars s'
  end.

(** What [for x in v] yields: the characters of a string, the elements of a
    list, the keys of a dict, nothing for values that are not iterable. *)
Definition iterate (v : PyVal) : list PyVal :=
  match v with
  | PyStr s => PyStr <$> chars s
  | PyList xs => xs
  | PyDict items => (λ kv, PyStr kv.1) <$> items
  | _ => []
  end.

(** [d[key]] on a dict: the value bound to [key], or [KeyError]. *)
Fixpoint getitem (items : list (string * PyVal)) (key : string) : option PyVal :=
  match items with
  | [] => None
  | (k, v) :: rest => if decide (k = key) then Some v else getitem rest key
  end.

#[warnings="-register-all"]
Inductive PyExn : Type :=
| ValueError (msg : string)
| TypeError (msg : string)
| AttributeError (msg : string)
| RuntimeError (msg : string)
| OSError (msg : string)
| KeyError (key : string)
| SetupError (msg : string) (cause : PyExn)
| ExtensionError (entry_point msg : string) (cause : option PyExn)
| MetricError (msg : string)
| OtherException (cls : string)
| BaseExceptionOnly (cls : string).

(** [except Exception] catches everything but the direct descendants of
    [BaseException] ([KeyboardInterrupt], [SystemExit], ...). *)
Definition is_Exception (e : PyExn) : bool :=
  match e with BaseExceptionOnly _ => false | _ => true end.

Definition is_TypeError (e : PyExn) : bool :=
  match e with TypeError _ => true | _ => false end.

(** [sub in s]. *)
Fixpoint contains (sub s : string) : bool :=
  String.prefix sub s ||
  match s with
  | EmptyString => false
  | String _ s' => contains sub s'
  end.

(** The newline character. *)
Definition nl : string := String (Ascii.ascii_of_nat 10) EmptyString.

(** f-string interpolation [{x}]. *)
Class Format (A : Type) := format : A → string.
#[global] Instance Format_Z : Format Z := pretty.
#[global] Instance Format_string : Format string := id.

(** State-and-error monad: a computation over a state [S] either returns a
    value or raises, and in both cases leaves a state behind. *)
Definition M (S A : Type) : Type := S → (PyExn + A) * S.

Definition ret {S A} (a : A) : M S A := λ s, (inr a, s).
Definition raise {S A} (e : PyExn) : M S A := λ s, (inl e, s).
Definition bind {S A B} (c : M S A) (k : A → M S B) : M S B :=
  λ s, match c s with
       | (inr a, s') => k a s'
       | (inl e, s') => (inl e, s')
       end.
Definition gets {S A} (f : S → A) : M S A := λ s, (inr (f s), s).
Definition modify {S} (f : S → S) : M S unit := λ s, (inr tt, f s).

(** [try: c  except <handles> as e: h e].  An exception that the handler
    itself raises is not caught again. *)
Definition try_except {S A} (c : M S A) (handles : PyExn → bool)
    (h : PyExn → M S A) : M S A :=
  λ s, match c s with
       | (inl e, s') => if handles e then h e s' else (inl e, s')
       | r => r
       end.

(** [for x in xs: body x]. *)
Fixpoint for_each {S A} (xs : list A) (body : A → M S unit) : M S unit :=
  match xs with
  | [] => ret tt
  | x :: rest => bind (body x) (λ _, for_each rest body)
  end.

(** [preserves R c]: whatever [c] does, and whether or not it raises, the
    state it leaves is [R]-related to the state it started from. *)
Definition preserves {S A} (R : relation S) (c : M S A) : Prop :=
  ∀ s, R s (c s).2.

End Py.

Export Py.

Notation "'let*' x ':=' c 'in' k" := (bind c (λ x, k))
  (at level 10, x pattern, c at level 100, k at level 200).
Notation "c ';;;' k" := (bind c (λ _, k))
  (at level 100, k at level 200, right associativity).

(* ===================================================================== *)
(** ** [fairseq2.extensions] and [fairseq2.setup._root] *)
(* ===================================================================== *)

Module Setup.

(** The registration functions [setup_runtime_context] calls, in the order
    of the source. *)
Inductive Registrar : Type :=
| _register_assets
| _register_beam_search_algorithms
| _register_chatbots
| _register_clusters
| _register_config_sections
| _register_datasets
| _register_lr_schedulers
| _register_metric_descriptors
| _register_metric_recorders
| _register_models
| _register_optimizers
| _register_recipes
| _register_samplers
| _register_seq2seq_generators
| _register_seq_generators
| _register_text_tokenizers.

Definition registrars : list Registrar :=
  [ _register_assets; _register_beam_search_algorithms; _register_chatbots;
    _register_clusters; _register_config_sections; _register_datasets;
    _register_lr_schedulers; _register_metric_descriptors;
    _register_metric_recorders; _register_models; _register_optimizers;
    _register_recipes; _register_samplers; _register_seq2seq_generators;
    _register_seq_generators; _register_text_tokenizers ].

Inductive LogLevel : Type := INFO | WARNING.

Section WithContext.

(** [RuntimeContext] and the [_register_*] functions live in modules outside
    this development; they are parameters.  [new_context] is the object
    [RuntimeContext(asset_store, asset_download_manager, file_system)]
    builds; [register r] is what registration function [r] does to the
    context it is handed: the context it leaves and the exception it
    raised, if any. *)
Context {RuntimeContext : Type}.
Variable new_context : RuntimeContext.
Variable register : Registrar → RuntimeContext → option PyExn * RuntimeContext.

(** An installed entry point: its [value], and what loading it and calling
    the loaded function on a context does (the context it leaves, and the
    exception it raised, if any). *)
Record EntryPoint : Type := {
  value : string;
  load_and_call : RuntimeContext → option PyExn * RuntimeContext;
}.

(** The state of one Python process.  Contexts are objects: they live in
    [heap], and a reference to one is its index there. *)
Record Process : Type := {
  _setup_called : bool;
  _default_context : option nat;
  heap : list RuntimeContext;
  environ : gmap string string;
  installed : string → list EntryPoint;
  log : list (LogLevel * string);
  registered : list Registrar;
}.

Definition set_setup_called (b : bool) (p : Process) : Process :=
  {| _setup_called := b; _default_context := _default_context p;
     heap := heap p; environ := environ p; installed := installed p;
     log := log p; registered := registered p |}.

Definition set_default_context (c : option nat) (p : Process) : Process :=
  {| _setup_called := _setup_called p; _default_context := c;
     heap := heap p; environ := environ p; installed := installed p;
     log := log p; registered := registered p |}.

Definition set_heap (h : list RuntimeContext) (p : Process) : Process :=
  {| _setup_called := _setup_called p; _default_context := _default_context p;
     heap := h; environ := environ p; installed := installed p;
     log := log p; registered := registered p |}.

Definition log_record (lvl : LogLevel) (msg : string) : M Process unit :=
  modify (λ p,
    {| _setup_called := _setup_called p; _default_context := _default_context p;
       heap := heap p; environ := environ p; installed := installed p;
       log := log p ++ [(lvl, msg)]; registered := registered p |}).

Definition note_registered (r : Registrar) : M Process unit :=
  modify (λ p,
    {| _setup_called := _setup_called p; _default_context := _default_context p;
       heap := heap p; environ := environ p; installed := installed p;
       log := log p; registered := registered p ++ [r] |}).

(** Allocation of a fresh context object. *)
Definition alloc (c : RuntimeContext) : M Process nat :=
  λ p, (inr (length (heap p)), set_heap (heap p ++ [c]) p).

(** A call that mutates the object behind [ref] and may raise.  References
    are only ever made by [alloc], so the first branch is never taken. *)
Definition on_object (ref : nat)
    (f : RuntimeContext → option PyExn * RuntimeContext) : M Process unit :=
  λ p, match heap p !! ref with
       | None => (inl (RuntimeError "dangling reference"), p)
       | Some c =>
           let '(ex, c') := f c in
           let p' := set_heap (<[ref := c']> (heap p)) p in
           match ex with
           | Some e => (inl e, p')
           | None => (inr tt, p')
           end
       end.

(** *** extensions.py *)

Definition run_extensions (extension_name : string) (context : nat)
    : M Process unit :=
  let* should_trace :=
    gets (λ p, bool_decide (is_Some (environ p !! "FAIRSEQ2_EXTENSION_TRACE"))) in
  let* eps := gets (λ p, installed p extension_name) in
  for_each eps (λ entry_point,
    try_except
      (on_object context (load_and_call entry_point))
      is_Exception
      (λ ex,
         if is_TypeError ex then
           (* except TypeError: *)
           if should_trace then
             raise (ExtensionError (value entry_point)
               ("The '" +:+ value entry_point +:+
                "' entry point is not a valid extension function.") None)
           else
             log_record WARNING
               ("The '" +:+ value entry_point +:+
                "' entry point is not a valid extension function. Set `FAIRSEQ2_EXTENSION_TRACE` environment variable to print the stack trace.")
         else
           (* except Exception as ex: *)
           if should_trace then
             raise (ExtensionError (value entry_point)
               ("The '" +:+ value entry_point +:+
                "' extension function has failed. See the nested exception for details.")
               (Some ex))
           else
             log_record WARNING
               ("The '" +:+ value entry_point +:+
                "' extension function has failed. Set `FAIRSEQ2_EXTENSION_TRACE` environment variable to print the stack trace.")) ;;;
    if should_trace then
      log_record INFO
        ("The `" +:+ value entry_point +:+ "` extension function run successfully.")
    else ret tt).

(** *** setup/_root.py *)

(** Modelled from the spec: [set_runtime_context] and [get_runtime_context]
    of [fairseq2.context], which is not part of the sources at hand.  The
    design notes describe a process-wide, one-time initialised context; the
    pair is taken as a global slot that [set_runtime_context] fills and
    [get_runtime_context] reads, raising when the slot is still empty. *)
Definition set_runtime_context (context : nat) : M Process unit :=
  modify (set_default_context (Some context)).

Definition get_runtime_context : M Process nat :=
  let* c := gets _default_context in
  match c with
  | Some context => ret context
  | None => raise (RuntimeError "fairseq2 is not initialized.")
  end.

Definition setup_runtime_context : M Process nat :=
  let* context := alloc new_context in
  for_each registrars (λ r,
    note_registered r ;;;
    on_object context (register r)) ;;;
  run_extensions "fairseq2.extension" context ;;;
  ret context.

Definition setup_fairseq2 : M Process nat :=
  let* called := gets _setup_called in
  let* context :=
    (if called then
       get_runtime_context
     else
       modify (set_setup_called true) ;;;   (* Avoid recursive calls. *)
       let* context := setup_runtime_context in
       set_runtime_context context ;;;
       ret context) in
  ret context.

(** [n] calls of [setup_fairseq2] in a row: the values they returned and the
    state they left; stops at the first call that raises. *)
Fixpoint repeat_setup (n : nat) (p : Process) : (PyExn + list nat) * Process :=
  match n with
  | O => (inr [], p)
  | S n' =>
      match setup_fairseq2 p with
      | (inl e, p') => (inl e, p')
      | (inr c, p') =>
          match repeat_setup n' p' with
          | (inl e, p'') => (inl e, p'')
          | (inr cs, p'') => (inr (c :: cs), p'')
          end
      end
  end.

(** What the registration functions and the extensions cannot change: the
    module-level variables, the record of registration calls, and which
    objects exist. *)
Definition same_globals (p p' : Process) : Prop :=
  _setup_called p' = _setup_called p ∧
  _default_context p' = _default_context p ∧
  registered p' = registered p ∧
  length (heap p') = length (heap p) ∧
  environ p' = environ p ∧
  installed p' = installed p.

(** The same, up to the record of registration calls. *)
Definition same_objects (p p' : Process) : Prop :=
  _setup_called p' = _setup_called p ∧
  _default_context p' = _default_context p ∧
  length (heap p') = length (heap p) ∧
  environ p' = environ p ∧
  installed p' = installed p.

End WithContext.

Arguments EntryPoint : clear implicits.
Arguments Process : clear implicits.

End Setup.

(* ===================================================================== *)
(** ** [fairseq2.recipes.mt._eval] *)
(* ===================================================================== *)

Module MTEval.

(** *** Collaborator data (declared outside [_eval.py]) *)

Record Gang : Type := { rank : Z; size : Z; device : string }.

Record Gangs : Type := { root : Gang; dp : Gang; tp : Gang }.

Record Direction : Type := { source_lang : string; target_lang : string }.

(** Tensors are opaque payloads here: they are handed from one collaborator
    to the next and never inspected. *)
Definition Tensor : Type := list Z.

Record Model : Type := { model_name : string }.

Record TextTokenizer : Type := { tokenizer_name : string }.

Record Seq2SeqBatch : Type := {
  source_seqs : Tensor;
  source_padding_mask : option Tensor;
  num_source_elements : Z;       (* what [batch.num_source_elements()] returns *)
  example : PyVal;
}.

Inductive Batching : Type :=
| StaticBatching (batch_size : Z)
| LengthBatching (max_num_tokens : Z).

Inductive SyncMode : Type := UNTIL_FIRST | UNTIL_LAST.

Inductive FileMode : Type := READ | WRITE | APPEND.

Record ParallelTextReadOptions : Type := {
  batching : Batching;
  direction : Direction;
  sync_mode : SyncMode;
  num_prefetch : Z;
  seed : Z;
}.

(** What [dataset.create_reader] was called with. *)
Record DataReader : Type := {
  reader_split : string;
  reader_tokenizer : TextTokenizer;
  reader_gang : Gang;
  reader_min_seq_len : Z;
  reader_max_seq_len : Z;
  read_options : ParallelTextReadOptions;
}.

(** *** pathlib *)

Record Path : Type := { absolute : bool; parts : list string }.

Fixpoint split_slash (cur s : string) : list string :=
  match s with
  | EmptyString => [cur]
  | String c s' =>
      if String.eqb (String c EmptyString) "/" then cur :: split_slash "" s'
      else split_slash (cur +:+ String c EmptyString) s'
  end.

(** The components of a path given as text: empty and [.] components are
    dropped, [..] is kept. *)
Definition components (s : string) : list string :=
  filter (λ c, c ≠ "" ∧ c ≠ ".") (split_slash "" s).

(** [p.joinpath(s)]: an absolute [s] replaces [p]. *)
Definition joinpath (p : Path) (s : string) : Path :=
  if String.prefix "/" s then {| absolute := true; parts := components s |}
  else {| absolute := absolute p; parts := parts p ++ components s |}.

(** [p.parent]. *)
Definition parent (p : Path) : Path :=
  {| absolute := absolute p; parts := removelast (parts p) |}.

(** [str(p)]. *)
Definition path_str (p : Path) : string :=
  match absolute p, parts p with
  | false, [] => "."
  | a, ps => (if a then "/" else "") +:+ String.concat "/" ps
  end.

#[global] Instance Format_Path : Format Path := path_str.

#[global] Instance Path_eq_dec : EqDecision Path.
Proof. solve_decision. Defined.

(** *** Text streams and the file system *)

(** An open text stream: what has reached the file ([flushed]) and what is
    still in the stream's buffer ([pending]). *)
Record TextIO : Type := {
  name : Path;
  mode : FileMode;
  flushed : string;
  pending : string;
}.

(** [context.file_system]: for each operation, the I/O error (if any) the
    file system answers with. *)
Record FileSystem : Type := {
  make_directory_error : Path → option string;
  open_text_error : Path → FileMode → option string;
}.

Record RuntimeContext : Type := { file_system : FileSystem }.

(** What a process's evaluation code can touch besides its own objects:
    created directories, the open streams (a stream object is its index in
    [streams]) and the record of calls made to the sequence generator. *)
Record World : Type := {
  directories : list Path;
  streams : list TextIO;
  generator_calls : list (Tensor * option Tensor);
}.

Definition set_streams (f : list TextIO → list TextIO) (w : World) : World :=
  {| directories := directories w; streams := f (streams w);
     generator_calls := generator_calls w |}.

Definition make_directory (fs : FileSystem) (p : Path) : M World unit :=
  match make_directory_error fs p with
  | Some msg => raise (OSError msg)
  | None =>
      modify (λ w, {| directories := directories w ++ [p]; streams := streams w;
                      generator_calls := generator_calls w |})
  end.

Definition open_text (fs : FileSystem) (p : Path) (m : FileMode) : M World nat :=
  match open_text_error fs p m with
  | Some msg => raise (OSError msg)
  | None =>
      λ w, (inr (length (streams w)),
            set_streams (λ ss, ss ++ [{| name := p; mode := m;
                                         flushed := ""; pending := "" |}]) w)
  end.

(** [stream.write(s)].  A stream object is always an index of [streams]
    that [open_text] returned; on any other index nothing happens. *)
Definition write (stream : nat) (s : string) : M World unit :=
  modify (set_streams (alter (λ f,
    {| name := name f; mode := mode f; flushed := flushed f;
       pending := pending f +:+ s |}) stream)).

(** [stream.write(v)] for an arbitrary object: only [str] is accepted. *)
Definition write_obj (stream : nat) (v : PyVal) : M World unit :=
  match v with
  | PyStr s => write stream s
  | _ => raise (TypeError ("write() argument must be str, not " +:+ type_repr v))
  end.

(** [stream.flush()]. *)
Definition flush (stream : nat) : M World unit :=
  modify (set_streams (alter (λ f,
    {| name := name f; mode := mode f; flushed := flushed f +:+ pending f;
       pending := "" |}) stream)).

(** *** Metric bags *)

Inductive MetricKind : Type := BleuMetric | ChrfMetric.

(** An update an accumulator has received. *)
Inductive Update : Type :=
| TextUpdate (refs : PyVal) (hyps : list string).

(** Per-batch statistics a bag has received. *)
Inductive BatchStat : Type :=
| GenerationStat (output : Tensor) (num_elements : Z)
| LossStat (loss : Tensor) (batch : Seq2SeqBatch).

(** Modelled from the spec: the metric accumulators of [fairseq2.metrics],
    which are not part of the sources at hand.  The design document keeps
    the scoring formulas out of scope and describes an accumulator as an
    append-only statistic; it is taken here as the sequence of updates it
    has received since it was created or last cleared. *)
Record Accumulator : Type := {
  kind : MetricKind;
  acc_device : string;
  updates : list Update;
}.

(** Modelled from the spec: [BleuMetric(device=...)] and
    [ChrfMetric(device=...)], new accumulators without updates. *)
Definition new_metric (k : MetricKind) (dev : string) : Accumulator :=
  {| kind := k; acc_device := dev; updates := [] |}.

Record Metric : Type := { accumulator : Accumulator; persistent : bool }.

(** Modelled from the spec: [MetricBag] of [fairseq2.metrics] and its
    subclasses in [fairseq2.recipes.metrics], which are not part of the
    sources at hand: a mapping from unique metric names to an accumulator
    with a [persistent] flag, plus the generic per-batch counters that
    [update_batch_metrics] feeds. *)
Record MetricBag : Type := {
  bag_gang : Gang;
  metrics : gmap string Metric;
  batch_stats : list BatchStat;
}.

(** Modelled from the spec: [Seq2SeqMetricBag(gang, train=False)] and
    [Seq2SeqGenerationMetricBag(gang)], bags in which nothing has been
    registered by the unit and no batch has been counted. *)
Definition new_bag (g : Gang) : MetricBag :=
  {| bag_gang := g; metrics := ∅; batch_stats := [] |}.

(** Modelled from the spec: [register_metric(name, accumulator, persistent)]
    registers a named accumulator; a duplicate name is a fatal error. *)
Definition register_metric (nm : string) (a : Accumulator) (pers : bool)
    (bag : MetricBag) : PyExn + MetricBag :=
  match metrics bag !! nm with
  | Some _ => inl (MetricError ("duplicate metric '" +:+ nm +:+ "'"))
  | None =>
      inr {| bag_gang := bag_gang bag;
             metrics := <[nm := {| accumulator := a; persistent := pers |}]> (metrics bag);
             batch_stats := batch_stats bag |}
  end.

(** Modelled from the spec: [bag.<nm>.update(refs, hyps)] hands the update
    to the accumulator registered as [nm]; the attribute access fails on a
    name that was never registered. *)
Definition update_metric (nm : string) (u : Update) (bag : MetricBag)
    : PyExn + MetricBag :=
  match metrics bag !! nm with
  | None => inl (AttributeError ("object has no attribute '" +:+ nm +:+ "'"))
  | Some m =>
      let a := accumulator m in
      inr {| bag_gang := bag_gang bag;
             metrics := <[nm := {| accumulator :=
                                     {| kind := kind a; acc_device := acc_device a;
                                        updates := updates a ++ [u] |};
                                   persistent := persistent m |}]> (metrics bag);
             batch_stats := batch_stats bag |}
  end.

(** Modelled from the spec: [update_batch_metrics] updates the generic
    per-batch counters. *)
Definition update_batch_metrics (st : BatchStat) (bag : MetricBag) : MetricBag :=
  {| bag_gang := bag_gang bag; metrics := metrics bag;
     batch_stats := batch_stats bag ++ [st] |}.

(** Modelled from the spec: the Evaluator's clearing step, which resets every
    metric that is not [persistent] and leaves the persistent ones alone. *)
Definition reset_non_persistent_metrics (bag : MetricBag) : MetricBag :=
  {| bag_gang := bag_gang bag;
     metrics := (λ m, if persistent m then m
                      else {| accumulator := new_metric (kind (accumulator m))
                                                        (acc_device (accumulator m));
                              persistent := false |}) <$> metrics bag;
     batch_stats := batch_stats bag |}.

(** *** Recipe configuration *)

(** A Python [float] that is only passed along: decimal mantissa and
    exponent ([0.1] is [(1, -1)]). *)
Definition float : Type := (Z * Z)%type.

Module Config.

Record MTEvalDatasetSection : Type := {
  split : string;
  min_seq_len : Z;
  max_seq_len : Z;
  max_num_tokens : Z;
  num_prefetch : Z;
}.

Record MTEvaluatorSection : Type := {
  torch_compile : bool;
  label_smoothing : float;
}.

Record Seq2SeqGeneratorSection : Type := { batch_size : Z }.

Record MTEvalConfig : Type := {
  model : string;
  dataset : MTEvalDatasetSection;
  evaluator : MTEvaluatorSection;
  seq2seq_generator : Seq2SeqGeneratorSection;
  seed : Z;
}.

End Config.

Record ParallelTextDataset : Type := { directions : string → list Direction }.

Record Seq2SeqGenerator : Type := { generator_model : Model }.

Record SequenceToTextConverter : Type := {
  converter_generator : Seq2SeqGenerator;
  converter_tokenizer : TextTokenizer;
  converter_task : string;
  converter_target_lang : string;
}.

(** Modelled from the spec: [MTCriterion] of [fairseq2.recipes.mt._common],
    which is not part of the sources at hand. *)
Record MTCriterion : Type := {
  criterion_model : Model;
  criterion_label_smoothing : float;
}.

(** The functions of [fairseq2.recipes.common], of the model, of the
    generator and of the dataset that the recipe calls: an interface, whose
    implementations are outside this development. *)
Class Collaborators : Type := {
  setup_gangs : RuntimeContext → Config.MTEvalConfig → Gangs;
  load_dataset : RuntimeContext → Config.MTEvalDatasetSection → Gangs → ParallelTextDataset;
  load_text_tokenizer : RuntimeContext → string → TextTokenizer;
  load_eval_model : RuntimeContext → string → Gangs → Model;
  compile_eval_model : RuntimeContext → string → Model → Model;
  create_seq2seq_generator :
    RuntimeContext → Config.Seq2SeqGeneratorSection → Model → Seq2SeqGenerator;
  (** the model's forward pass with loss computation *)
  forward : Model → float → Seq2SeqBatch → PyExn + Tensor;
  (** [SequenceToTextConverter.batch_convert]: hypotheses and generator output *)
  batch_convert :
    SequenceToTextConverter → Tensor → option Tensor → PyExn + (list string * Tensor);
  (** how an f-string renders a [Direction] *)
  format_direction :: Format Direction;
}.

(** *** The evaluation units *)

Record MTLossEvalUnit : Type := {
  loss_model : Model;
  loss_display_name : string;
  _criterion : MTCriterion;
  loss_metric_bag : MetricBag;
}.

Record MTBleuChrfEvalUnit : Type := {
  score_model : Model;
  score_display_name : string;
  _converter : SequenceToTextConverter;
  _src_output_stream : option nat;
  _ref_output_stream : option nat;
  _hyp_output_stream : option nat;
  score_metric_bag : MetricBag;
}.

Inductive EvalUnit : Type :=
| LossUnit (u : MTLossEvalUnit)
| ScoreUnit (u : MTBleuChrfEvalUnit).

Definition display_name (u : EvalUnit) : string :=
  match u with
  | LossUnit u => loss_display_name u
  | ScoreUnit u => score_display_name u
  end.

(** What [create_evaluator] was called with. *)
Record Evaluator : Type := {
  evaluator_output_dir : Path;
  units : list EvalUnit;
  data_readers : list DataReader;
  evaluator_gangs : Gangs;
  evaluator_seed : Z;
}.

Definition set_loss_bag (b : MetricBag) (u : MTLossEvalUnit) : MTLossEvalUnit :=
  {| loss_model := loss_model u; loss_display_name := loss_display_name u;
     _criterion := _criterion u; loss_metric_bag := b |}.

Definition set_score_bag (b : MetricBag) (u : MTBleuChrfEvalUnit) : MTBleuChrfEvalUnit :=
  {| score_model := score_model u; score_display_name := score_display_name u;
     _converter := _converter u;
     _src_output_stream := _src_output_stream u;
     _ref_output_stream := _ref_output_stream u;
     _hyp_output_stream := _hyp_output_stream u;
     score_metric_bag := b |}.

(** A computation that touches only the world, run by a unit. *)
Definition in_world {U A} (c : M World A) : M (U * World) A :=
  λ s, let '(r, w') := c s.2 in (r, (s.1, w')).

(** A pure step that may raise. *)
Definition lift {S A} (r : PyExn + A) : M S A :=
  match r with inl e => raise e | inr a => ret a end.

Definition is_KeyError (e : PyExn) : bool :=
  match e with KeyError _ => true | _ => false end.

(** [v[key]]. *)
Definition subscript {S} (v : PyVal) (key : string) : M S PyVal :=
  match v with
  | PyDict items =>
      match getitem items key with
      | Some x => ret x
      | None => raise (KeyError key)
      end
  | _ => raise (TypeError ("'" +:+ type_repr v +:+ "' object is not subscriptable"))
  end.

Section Units.

Context `{Collaborators}.

(** Modelled from the spec: [MTCriterion.__call__(batch, metric_bag)]
    forwards the batch through the model to obtain a loss value and updates
    the counters of the bag it is given; it has no other effect. *)
Definition criterion_call (c : MTCriterion) (batch : Seq2SeqBatch)
    (bag : MetricBag) : PyExn + MetricBag :=
  match forward (criterion_model c) (criterion_label_smoothing c) batch with
  | inl e => inl e
  | inr loss => inr (update_batch_metrics (LossStat loss batch) bag)
  end.

Definition MTLossEvalUnit__init__ (criterion : MTCriterion)
    (direction : Direction) (gangs : Gangs) : MTLossEvalUnit :=
  {| loss_model := criterion_model criterion;
     loss_display_name := "loss/" +:+ format direction;
     _criterion := criterion;
     loss_metric_bag := new_bag (dp gangs) |}.

Definition MTLossEvalUnit__call__ (batch : Seq2SeqBatch)
    : M (MTLossEvalUnit * World) unit :=
  λ s, match criterion_call (_criterion s.1) batch (loss_metric_bag s.1) with
       | inl e => (inl e, s)
       | inr bag => (inr tt, (set_loss_bag bag s.1, s.2))
       end.

Definition MTBleuChrfEvalUnit__init__ (direction : Direction)
    (generator : Seq2SeqGenerator) (tokenizer : TextTokenizer) (gangs : Gangs)
    (src_output_stream ref_output_stream hyp_output_stream : option nat)
    : PyExn + MTBleuChrfEvalUnit :=
  let _converter :=
    {| converter_generator := generator; converter_tokenizer := tokenizer;
       converter_task := "translation";
       converter_target_lang := target_lang direction |} in
  let _metric_bag := new_bag (dp gangs) in
  let device := device (root gangs) in
  match register_metric "bleu" (new_metric BleuMetric device) false _metric_bag with
  | inl e => inl e
  | inr _metric_bag =>
      match register_metric "chrf" (new_metric ChrfMetric device) false _metric_bag with
      | inl e => inl e
      | inr _metric_bag =>
          inr {| score_model := generator_model generator;
                 score_display_name := "score/" +:+ format direction;
                 _converter := _converter;
                 _src_output_stream := src_output_stream;
                 _ref_output_stream := ref_output_stream;
                 _hyp_output_stream := hyp_output_stream;
                 score_metric_bag := _metric_bag |}
      end
  end.

(** [self._metric_bag.<nm>.update(refs, hyps)] and [update_batch_metrics]. *)
Definition on_score_bag (f : MetricBag → PyExn + MetricBag)
    : M (MTBleuChrfEvalUnit * World) unit :=
  λ s, match f (score_metric_bag s.1) with
       | inl e => (inl e, s)
       | inr bag => (inr tt, (set_score_bag bag s.1, s.2))
       end.

(** [self._converter.batch_convert(...)]: the call is recorded. *)
Definition call_batch_convert (conv : SequenceToTextConverter)
    (seqs : Tensor) (mask : option Tensor) : M World (list string * Tensor) :=
  modify (λ w, {| directories := directories w; streams := streams w;
                  generator_calls := generator_calls w ++ [(seqs, mask)] |}) ;;;
  lift (batch_convert conv seqs mask).

(** The checks on [batch.example] with which [__call__] starts; returns
    [srcs] and [refs]. *)
Definition validate {S} (batch : Seq2SeqBatch) : M S (PyVal * PyVal) :=
  match example batch with
  | PyNone => raise (ValueError "`batch.example` must not be `None`.")
  | _ => ret tt
  end ;;;
  (if is_Mapping (example batch) then ret tt
   else raise (TypeError
     ("`batch.example` must be of type `typing.Mapping`, but is of type `"
      +:+ type_repr (example batch) +:+ "` instead."))) ;;;
  let* srcs :=
    try_except (subscript (example batch) "source_text") is_KeyError
      (λ _, raise (ValueError "`batch.example` must contain a 'source_text' item.")) in
  (if is_Iterable srcs then ret tt
   else raise (TypeError
     ("`batch.example['source_text'] must be an iterable of strings, but is of type `"
      +:+ type_repr srcs +:+ "` instead."))) ;;;
  let* refs :=
    try_except (subscript (example batch) "target_text") is_KeyError
      (λ _, raise (ValueError "`batch.example` must contain a 'target_text' item.")) in
  (if is_Iterable refs then ret tt
   else raise (TypeError
     ("`batch.example['target_text'] must be an iterable of strings, but is of type `"
      +:+ type_repr refs +:+ "` instead."))) ;;;
  ret (srcs, refs).

(** The part of [__call__] after the checks. *)
Definition generate_score_dump (batch : Seq2SeqBatch) (srcs refs : PyVal)
    : M (MTBleuChrfEvalUnit * World) unit :=
  let* conv := gets (λ s, _converter s.1) in
  let* (hyps, output) :=
    in_world (call_batch_convert conv (source_seqs batch) (source_padding_mask batch)) in
  on_score_bag (update_metric "bleu" (TextUpdate refs hyps)) ;;;
  on_score_bag (update_metric "chrf" (TextUpdate refs hyps)) ;;;
  on_score_bag (λ bag, inr (update_batch_metrics
                              (GenerationStat output (num_source_elements batch)) bag)) ;;;
  (* Dump source sentences. *)
  let* stream := gets (λ s, _src_output_stream s.1) in
  match stream with
  | Some stream =>
      for_each (iterate srcs) (λ src,
        in_world (write_obj stream src) ;;;
        in_world (write stream nl)) ;;;
      in_world (flush stream)
  | None => ret tt
  end ;;;
  (* Dump references. *)
  let* stream := gets (λ s, _ref_output_stream s.1) in
  match stream with
  | Some stream =>
      for_each (iterate refs) (λ ref,
        in_world (write_obj stream ref) ;;;
        in_world (write stream nl)) ;;;
      in_world (flush stream)
  | None => ret tt
  end ;;;
  (* Dump hypotheses. *)
  let* stream := gets (λ s, _hyp_output_stream s.1) in
  match stream with
  | Some stream =>
      for_each hyps (λ hyp,
        in_world (write stream hyp) ;;;
        in_world (write stream nl)) ;;;
      in_world (flush stream)
  | None => ret tt
  end.

Definition MTBleuChrfEvalUnit__call__ (batch : Seq2SeqBatch)
    : M (MTBleuChrfEvalUnit * World) unit :=
  let* (srcs, refs) := validate batch in
  generate_score_dump batch srcs refs.

(** *** [load_mt_evaluator] *)

Definition is_OSError (e : PyExn) : bool :=
  match e with OSError _ => true | _ => false end.

(** [dataset.create_reader(split, tokenizer, gang, min_seq_len, max_seq_len,
    read_options)]. *)
Definition create_reader (split : string) (tokenizer : TextTokenizer)
    (gang : Gang) (min_seq_len max_seq_len : Z)
    (options : ParallelTextReadOptions) : DataReader :=
  {| reader_split := split; reader_tokenizer := tokenizer; reader_gang := gang;
     reader_min_seq_len := min_seq_len; reader_max_seq_len := max_seq_len;
     read_options := options |}.

(** The variables the [for direction in ...] loop updates. *)
Record LoopVars : Type := {
  loop_units : list EvalUnit;
  loop_data_readers : list DataReader;
  loop_seed : Z;
}.

(** One iteration of the loop over the directions. *)
Definition loop_body (context : RuntimeContext) (config : Config.MTEvalConfig)
    (output_dir : Path) (gangs : Gangs) (tokenizer : TextTokenizer)
    (seq2seq_generator : Seq2SeqGenerator) (criterion : MTCriterion)
    (direction : Direction) (vars : LoopVars) : M World LoopVars :=
  let units := loop_units vars in
  let data_readers := loop_data_readers vars in
  let seed := loop_seed vars in
  let loss_unit := MTLossEvalUnit__init__ criterion direction gangs in
  let units := units ++ [LossUnit loss_unit] in
  let batching := LengthBatching (Config.max_num_tokens (Config.dataset config)) in
  let read_options :=
    {| batching := batching; direction := direction; sync_mode := UNTIL_LAST;
       num_prefetch := Config.num_prefetch (Config.dataset config);
       seed := seed |} in
  let data_reader :=
    create_reader (Config.split (Config.dataset config)) tokenizer (dp gangs)
      (Config.min_seq_len (Config.dataset config))
      (Config.max_seq_len (Config.dataset config)) read_options in
  let seed := (seed + 1)%Z in
  let data_readers := data_readers ++ [data_reader] in
  (* BLEU/chrF++ Evaluation *)
  let* (src_fp, ref_fp, hyp_fp) :=
    (if decide (rank (tp gangs) = 0%Z) then
       let file_system := file_system context in
       let rank := rank (dp gangs) in
       let src_file := joinpath output_dir
         ("translations/" +:+ format direction +:+ "/rank_" +:+ format rank +:+ ".src.txt") in
       let ref_file := joinpath output_dir
         ("translations/" +:+ format direction +:+ "/rank_" +:+ format rank +:+ ".ref.txt") in
       let hyp_file := joinpath output_dir
         ("translations/" +:+ format direction +:+ "/rank_" +:+ format rank +:+ ".hyp.txt") in
       try_except (make_directory file_system (parent src_file)) is_OSError
         (λ ex, raise (SetupError
            ("The '" +:+ format (parent src_file) +:+
             "' output directory cannot be created. See the nested exception for details.")
            ex)) ;;;
       let* src_fp :=
         try_except (open_text file_system src_file WRITE) is_OSError
           (λ ex, raise (SetupError
              ("The '" +:+ format src_file +:+
               "' output file cannot be created. See the nested exception for details.")
              ex)) in
       let* ref_fp :=
         try_except (open_text file_system ref_file WRITE) is_OSError
           (λ ex, raise (SetupError
              ("The '" +:+ format ref_file +:+
               "' output file cannot be created. See the nested exception for details.")
              ex)) in
       let* hyp_fp :=
         try_except (open_text file_system hyp_file WRITE) is_OSError
           (λ ex, raise (SetupError
              ("The '" +:+ format hyp_file +:+
               "' output file cannot be created. See the nested exception for details.")
              ex)) in
       ret (Some src_fp, Some ref_fp, Some hyp_fp)
     else
       ret (None, None, None)) in
  let* score_unit :=
    lift (MTBleuChrfEvalUnit__init__ direction seq2seq_generator tokenizer gangs
            src_fp ref_fp hyp_fp) in
  let units := units ++ [ScoreUnit score_unit] in
  let batching := StaticBatching (Config.batch_size (Config.seq2seq_generator config)) in
  let read_options :=
    {| direction := direction; batching := batching; sync_mode := UNTIL_LAST;
       num_prefetch := Config.num_prefetch (Config.dataset config);
       seed := seed |} in
  let data_reader :=
    create_reader (Config.split (Config.dataset config)) tokenizer (dp gangs)
      (Config.min_seq_len (Config.dataset config))
      (Config.max_seq_len (Config.dataset config)) read_options in
  let data_readers := data_readers ++ [data_reader] in
  let seed := (seed + 1)%Z in
  ret {| loop_units := units; loop_data_readers := data_readers; loop_seed := seed |}.

(** [for direction in dataset.directions(config.dataset.split): ...]. *)
Fixpoint directions_loop (context : RuntimeContext) (config : Config.MTEvalConfig)
    (output_dir : Path) (gangs : Gangs) (tokenizer : TextTokenizer)
    (seq2seq_generator : Seq2SeqGenerator) (criterion : MTCriterion)
    (ds : list Direction) (vars : LoopVars) : M World LoopVars :=
  match ds with
  | [] => ret vars
  | direction :: rest =>
      let* vars := loop_body context config output_dir gangs tokenizer
                     seq2seq_generator criterion direction vars in
      directions_loop context config output_dir gangs tokenizer
        seq2seq_generator criterion rest vars
  end.

(** The calls whose only effects are on collaborators that this development
    does not represent ([register_extra_asset_paths], [process_config],
    [manual_seed], [broadcast_model], [remove_parametrizations],
    [log_model]) are left out; the collaborators that return something the
    function goes on to use are called as the source calls them. *)
Definition load_mt_evaluator (context : RuntimeContext)
    (config : Config.MTEvalConfig) (output_dir : Path) : M World Evaluator :=
  let gangs := setup_gangs context config in
  let dataset := load_dataset context (Config.dataset config) gangs in
  let tokenizer := load_text_tokenizer context (Config.model config) in
  let seed := Config.seed config in
  let seed := (seed + 1)%Z in
  let model := load_eval_model context (Config.model config) gangs in
  let model :=
    if Config.torch_compile (Config.evaluator config)
    then compile_eval_model context (Config.model config) model
    else model in
  (* Initialize the units. *)
  let seq2seq_generator :=
    create_seq2seq_generator context (Config.seq2seq_generator config) model in
  let criterion :=
    {| criterion_model := model;
       criterion_label_smoothing := Config.label_smoothing (Config.evaluator config) |} in
  let* vars :=
    directions_loop context config output_dir gangs tokenizer seq2seq_generator
      criterion (directions dataset (Config.split (Config.dataset config)))
      {| loop_units := []; loop_data_readers := []; loop_seed := seed |} in
  ret {| evaluator_output_dir := output_dir;
         units := loop_units vars;
         data_readers := loop_data_readers vars;
         evaluator_gangs := gangs;
         evaluator_seed := loop_seed vars |}.

(** *** Vocabulary for the properties *)

(** The text of a sequence of lines: each line followed by one newline. *)
Definition lines_text (ls : list string) : string :=
  foldr (λ l rest, l +:+ nl +:+ rest) "" ls.

(** A stream after [text] has been written to it and it has been flushed:
    everything that was pending and [text] have reached the file. *)
Definition dumped (text : string) (f : TextIO) : TextIO :=
  {| name := name f; mode := mode f;
     flushed := flushed f +:+ pending f +:+ text; pending := "" |}.

(** A stream with [text] added to its buffer. *)
Definition buffered (text : string) (f : TextIO) : TextIO :=
  {| name := name f; mode := mode f; flushed := flushed f;
     pending := pending f +:+ text |}.

(** A batch whose side-channel passes every check of
    [MTBleuChrfEvalUnit.__call__]: a mapping with iterable ['source_text']
    and ['target_text'] items. *)
Definition well_shaped (batch : Seq2SeqBatch) : bool :=
  match example batch with
  | PyDict items =>
      match getitem items "source_text", getitem items "target_text" with
      | Some srcs, Some refs => is_Iterable srcs && is_Iterable refs
      | _, _ => false
      end
  | _ => false
  end.

(** The three output files of a direction on a data-parallel rank. *)
Definition output_file (output_dir : Path) (direction : Direction) (rank : Z)
    (ext : string) : Path :=
  joinpath output_dir
    ("translations/" +:+ format direction +:+ "/rank_" +:+ format rank +:+ "." +:+ ext +:+ ".txt").

(** A stream that was just opened for writing. *)
Definition opened (p : Path) : TextIO :=
  {| name := p; mode := WRITE; flushed := ""; pending := "" |}.

(** The three files of a direction, in the order in which they are opened. *)
Definition direction_files (output_dir : Path) (rank : Z) (direction : Direction)
    : list Path :=
  [ output_file output_dir direction rank "src";
    output_file output_dir direction rank "ref";
    output_file output_dir direction rank "hyp" ].

(** [w] after the directories [dirs] were made and the files [files] opened. *)
Definition grown (w : World) (dirs files : list Path) : World :=
  {| directories := directories w ++ dirs;
     streams := streams w ++ (opened <$> files);
     generator_calls := generator_calls w |}.

Definition directory_error (p : Path) (msg : string) : PyExn :=
  SetupError
    ("The '" +:+ format p +:+
     "' output directory cannot be created. See the nested exception for details.")
    (OSError msg).

Definition file_error (p : Path) (msg : string) : PyExn :=
  SetupError
    ("The '" +:+ format p +:+
     "' output file cannot be created. See the nested exception for details.")
    (OSError msg).

(** The first of the four file-system operations of a direction that the
    file system refuses, as the error that [load_mt_evaluator] makes of it. *)
Definition first_failure (fs : FileSystem) (output_dir : Path) (rank : Z)
    (direction : Direction) : option PyExn :=
  let src := output_file output_dir direction rank "src" in
  let ref := output_file output_dir direction rank "ref" in
  let hyp := output_file output_dir direction rank "hyp" in
  match make_directory_error fs (parent src) with
  | Some msg => Some (directory_error (parent src) msg)
  | None =>
      match open_text_error fs src WRITE with
      | Some msg => Some (file_error src msg)
      | None =>
          match open_text_error fs ref WRITE with
          | Some msg => Some (file_error ref msg)
          | None =>
              match open_text_error fs hyp WRITE with
              | Some msg => Some (file_error hyp msg)
              | None => None
              end
          end
      end
  end.

(** The scoring unit that the constructor builds. *)
Definition built_score_unit (direction : Direction) (generator : Seq2SeqGenerator)
    (tokenizer : TextTokenizer) (gangs : Gangs) (src ref hyp : option nat)
    : MTBleuChrfEvalUnit :=
  {| score_model := generator_model generator;
     score_display_name := "score/" +:+ format direction;
     _converter :=
       {| converter_generator := generator; converter_tokenizer := tokenizer;
          converter_task := "translation";
          converter_target_lang := target_lang direction |};
     _src_output_stream := src;
     _ref_output_stream := ref;
     _hyp_output_stream := hyp;
     score_metric_bag :=
       {| bag_gang := dp gangs;
          metrics :=
            <["chrf" := {| accumulator := new_metric ChrfMetric (device (root gangs));
                           persistent := false |}]>
              (<["bleu" := {| accumulator := new_metric BleuMetric (device (root gangs));
                              persistent := false |}]> ∅);
          batch_stats := [] |} |}.

(** The loop variables after an iteration in which nothing raised; [first] is
    the index of the first stream opened in it, if streams were opened. *)
Definition step_vars (config : Config.MTEvalConfig) (gangs : Gangs)
    (tokenizer : TextTokenizer) (generator : Seq2SeqGenerator)
    (criterion : MTCriterion) (direction : Direction) (first : option nat)
    (vars : LoopVars) : LoopVars :=
  let options b s :=
    {| batching := b; direction := direction; sync_mode := UNTIL_LAST;
       num_prefetch := Config.num_prefetch (Config.dataset config); seed := s |} in
  let reader b s :=
    create_reader (Config.split (Config.dataset config)) tokenizer (dp gangs)
      (Config.min_seq_len (Config.dataset config))
      (Config.max_seq_len (Config.dataset config)) (options b s) in
  {| loop_units :=
       (loop_units vars ++ [LossUnit (MTLossEvalUnit__init__ criterion direction gangs)])
       ++ [ScoreUnit (built_score_unit direction generator tokenizer gangs
                        first ((λ n, n + 1) <$> first) ((λ n, n + 2) <$> first))];
     loop_data_readers :=
       (loop_data_readers vars
        ++ [reader (LengthBatching (Config.max_num_tokens (Config.dataset config)))
              (loop_seed vars)])
       ++ [reader (StaticBatching (Config.batch_size (Config.seq2seq_generator config)))
             (loop_seed vars + 1)%Z];
     loop_seed := (loop_seed vars + 1 + 1)%Z |}.

(** The units that a loop in which nothing raised appends. *)
Fixpoint built_units (gangs : Gangs) (tokenizer : TextTokenizer)
    (generator : Seq2SeqGenerator) (criterion : MTCriterion)
    (ds : list Direction) (first : option nat) : list EvalUnit :=
  match ds with
  | [] => []
  | d :: rest =>
      LossUnit (MTLossEvalUnit__init__ criterion d gangs)
      :: ScoreUnit (built_score_unit d generator tokenizer gangs
                      first ((λ n, n + 1) <$> first) ((λ n, n + 2) <$> first))
      :: built_units gangs tokenizer generator criterion rest ((λ n, n + 3) <$> first)
  end.

(** The file system refuses one of the operations that [load_mt_evaluator]
    performs for a direction. *)
Definition refuses (fs : FileSystem) (output_dir : Path) (rank : Z)
    (direction : Direction) : Prop :=
  is_Some (make_directory_error fs (parent (output_file output_dir direction rank "src")))
  ∨ ∃ p, p ∈ direction_files output_dir rank direction ∧
         is_Some (open_text_error fs p WRITE).

(** The directions of the configured split of the configured dataset. *)
Definition evaluated_directions (context : RuntimeContext)
    (config : Config.MTEvalConfig) : list Direction :=
  directions
    (load_dataset context (Config.dataset config) (setup_gangs context config))
    (Config.split (Config.dataset config)).

(** What building the evaluator may do to the world: make directories and
    open new, empty streams; it calls no generator and writes nothing. *)
Definition setup_only (w w' : World) : Prop :=
  generator_calls w' = generator_calls w ∧
  ∃ dirs files,
    directories w' = directories w ++ dirs ∧
    streams w' = streams w ++ (opened <$> files).

(** The loop variables after a whole loop in which nothing raised. *)
Fixpoint loop_vars (config : Config.MTEvalConfig) (gangs : Gangs)
    (tokenizer : TextTokenizer) (generator : Seq2SeqGenerator)
    (criterion : MTCriterion) (ds : list Direction) (first : option nat)
    (vars : LoopVars) : LoopVars :=
  match ds with
  | [] => vars
  | d :: rest =>
      loop_vars config gangs tokenizer generator criterion rest
        ((λ n, n + 3) <$> first)
        (step_vars config gangs tokenizer generator criterion d first vars)
  end.

End Units.

End MTEval.

(* ===================================================================== *)
(** ** Sample data *)
(* ===================================================================== *)

Module SetupSample.
Import Setup.

(** A context that remembers which registration functions were applied to
    it. *)
Definition Context : Type := list Registrar.

Definition register (r : Registrar) (c : Context) : option PyExn * Context :=
  (None, c ++ [r]).

(** Two installed extensions: one that works, one that cannot be called. *)
Definition entry_points (group : string) : list (EntryPoint Context) :=
  if decide (group = "fairseq2.extension") then
    [ {| value := "my_package:setup_extension"; load_and_call := λ c, (None, c) |};
      {| value := "broken_package:setup";
         load_and_call := λ c, (Some (TypeError "takes 0 positional arguments"), c) |} ]
  else [].

Definition fresh_process : Process Context :=
  {| _setup_called := false; _default_context := None; heap := [];
     environ := ∅; installed := entry_points; log := []; registered := [] |}.

End SetupSample.

Module Sample.
Import MTEval.

Definition gang (r n : Z) : Gang := {| rank := r; size := n; device := "cpu" |}.

(** Four processes: two data-parallel ranks times two tensor-parallel ranks;
    [gangs_at dp_rank tp_rank] is what one of them sees. *)
Definition gangs_at (dp_rank tp_rank : Z) : Gangs :=
  {| root := gang (2 * dp_rank + tp_rank) 4;
     dp := gang dp_rank 2;
     tp := gang tp_rank 2 |}.

Definition eng_fra : Direction := {| source_lang := "eng"; target_lang := "fra" |}.
Definition eng_deu : Direction := {| source_lang := "eng"; target_lang := "deu" |}.

Definition collaborators (gangs : Gangs) (ds : list Direction) : Collaborators :=
  {| setup_gangs := λ _ _, gangs;
     load_dataset := λ _ _ _, {| directions := λ _, ds |};
     load_text_tokenizer := λ _ nm, {| tokenizer_name := nm |};
     load_eval_model := λ _ nm _, {| model_name := nm |};
     compile_eval_model := λ _ _ m, m;
     create_seq2seq_generator := λ _ _ m, {| generator_model := m |};
     forward := λ _ _ batch, inr [num_source_elements batch];
     batch_convert := λ _ _ _, inr (["bonjour"; "le monde"], [2%Z]);
     format_direction := λ d, source_lang d +:+ "-" +:+ target_lang d |}.

Definition config : Config.MTEvalConfig :=
  {| Config.model := "nllb-200_dense_distill_600m";
     Config.dataset :=
       {| Config.split := "test"; Config.min_seq_len := 1; Config.max_seq_len := 512;
          Config.max_num_tokens := 4096; Config.num_prefetch := 4 |};
     Config.evaluator :=
       {| Config.torch_compile := false; Config.label_smoothing := (1, -1)%Z |};
     Config.seq2seq_generator := {| Config.batch_size := 8 |};
     Config.seed := 2 |}.

Definition output_dir : Path := {| absolute := true; parts := ["out"] |}.

(** A file system on which every operation succeeds. *)
Definition permissive : FileSystem :=
  {| make_directory_error := λ _, None; open_text_error := λ _ _, None |}.

(** A file system that refuses to open one path. *)
Definition refusing (bad : Path) : FileSystem :=
  {| make_directory_error := λ _, None;
     open_text_error := λ p _, if decide (p = bad) then Some "Permission denied" else None |}.

Definition empty_world : World :=
  {| directories := []; streams := []; generator_calls := [] |}.

Definition permissive_context : RuntimeContext := {| file_system := permissive |}.

(** A context whose file system refuses the reference file of [eng_deu]. *)
Definition refusing_context : RuntimeContext :=
  {| file_system := refusing (joinpath output_dir "translations/eng-deu/rank_1.ref.txt") |}.

Definition batch (ex : PyVal) : Seq2SeqBatch :=
  {| source_seqs := [5; 6; 7; 8]%Z; source_padding_mask := None;
     num_source_elements := 4; example := ex |}.

(** The process with data-parallel rank 1 and tensor-parallel rank 0, which
    writes, and its tensor-parallel neighbour, which does not. *)
Definition writer : Collaborators := collaborators (gangs_at 1 0) [eng_fra; eng_deu].
Definition non_writer : Collaborators := collaborators (gangs_at 1 1) [eng_fra; eng_deu].

Definition scoring_bag : MetricBag :=
  {| bag_gang := gang 1 2;
     metrics :=
       <["chrf" := {| accumulator := new_metric ChrfMetric "cpu"; persistent := false |}]>
         (<["bleu" := {| accumulator := new_metric BleuMetric "cpu"; persistent := false |}]> ∅);
     batch_stats := [] |}.

(** The scoring unit of [eng_fra] on the writer, with its three streams. *)
Definition score_unit : MTBleuChrfEvalUnit :=
  {| score_model := {| model_name := "nllb-200_dense_distill_600m" |};
     score_display_name := "score/eng-fra";
     _converter :=
       {| converter_generator :=
            {| generator_model := {| model_name := "nllb-200_dense_distill_600m" |} |};
          converter_tokenizer := {| tokenizer_name := "nllb-200_dense_distill_600m" |};
          converter_task := "translation";
          converter_target_lang := "fra" |};
     _src_output_stream := Some 0;
     _ref_output_stream := Some 1;
     _hyp_output_stream := Some 2;
     score_metric_bag := scoring_bag |}.

Definition stream_of (file : string) : TextIO :=
  {| name := joinpath output_dir file; mode := WRITE; flushed := ""; pending := "" |}.

Definition world : World :=
  {| directories := [joinpath output_dir "translations/eng-fra"];
     streams := [ stream_of "translations/eng-fra/rank_1.src.txt";
                  stream_of "translations/eng-fra/rank_1.ref.txt";
                  stream_of "translations/eng-fra/rank_1.hyp.txt" ];
     generator_calls := [] |}.

Definition well_formed_example : PyVal :=
  PyDict [("source_text", PyList [PyStr "hello"; PyStr "the world"]);
          ("target_text", PyList [PyStr "salut"; PyStr "le monde"])].

End Sample.

(* ===================================================================== *)
(** ** Vocabulary for [run_extensions] and [setup_runtime_context] *)
(* ===================================================================== *)

Module ExtensionsSpec.
Import Setup.

Section WithContext.
Context {RuntimeContext : Type}.

(** One iteration of the loop of [run_extensions], for a given value of
    [should_trace]. *)
Definition extension_body (should_trace : bool) (context : nat)
    (entry_point : EntryPoint RuntimeContext) : M (Process RuntimeContext) unit :=
  try_except
    (on_object context (load_and_call entry_point))
    is_Exception
    (λ ex,
       if is_TypeError ex then
         if should_trace then
           raise (ExtensionError (value entry_point)
             ("The '" +:+ value entry_point +:+
              "' entry point is not a valid extension function.") None)
         else
           log_record WARNING
             ("The '" +:+ value entry_point +:+
              "' entry point is not a valid extension function. Set `FAIRSEQ2_EXTENSION_TRACE` environment variable to print the stack trace.")
       else
         if should_trace then
           raise (ExtensionError (value entry_point)
             ("The '" +:+ value entry_point +:+
              "' extension function has failed. See the nested exception for details.")
             (Some ex))
         else
           log_record WARNING
             ("The '" +:+ value entry_point +:+
              "' extension function has failed. Set `FAIRSEQ2_EXTENSION_TRACE` environment variable to print the stack trace.")) ;;;
  if should_trace then
    log_record INFO
      ("The `" +:+ value entry_point +:+ "` extension function run successfully.")
  else ret tt.

(** The context after every entry point of [eps] has been loaded and called
    on it, one after the other. *)
Definition apply_all (eps : list (EntryPoint RuntimeContext)) (c : RuntimeContext)
    : RuntimeContext :=
  foldl (λ c ep, (load_and_call ep c).2) c eps.

(** The warning logged, without tracing, for an extension that raised [ex]. *)
Definition warning_for (entry_point : EntryPoint RuntimeContext) (ex : PyExn)
    : LogLevel * string :=
  (WARNING,
   if is_TypeError ex then
     "The '" +:+ value entry_point +:+
     "' entry point is not a valid extension function. Set `FAIRSEQ2_EXTENSION_TRACE` environment variable to print the stack trace."
   else
     "The '" +:+ value entry_point +:+
     "' extension function has failed. Set `FAIRSEQ2_EXTENSION_TRACE` environment variable to print the stack trace.").

(** The error raised, with tracing, for an extension that raised [ex]: a
    [TypeError] is reported without cause ([from None]), any other
    [Exception] as the cause; what is not an [Exception] passes through. *)
Definition traced_error (entry_point : EntryPoint RuntimeContext) (ex : PyExn) : PyExn :=
  if is_Exception ex then
    if is_TypeError ex then
      ExtensionError (value entry_point)
        ("The '" +:+ value entry_point +:+
         "' entry point is not a valid extension function.") None
    else
      ExtensionError (value entry_point)
        ("The '" +:+ value entry_point +:+
         "' extension function has failed. See the nested exception for details.")
        (Some ex)
  else ex.

(** The record logged, with tracing, for an extension that returned. *)
Definition info_for (entry_point : EntryPoint RuntimeContext) : LogLevel * string :=
  (INFO, "The `" +:+ value entry_point +:+ "` extension function run successfully.").

(** [ExtensionError.entry_point]. *)
Definition ExtensionError_entry_point (e : PyExn) : option string :=
  match e with ExtensionError entry_point _ _ => Some entry_point | _ => None end.

(** Every object but the one behind [ref] is as it was. *)
Definition others_kept (ref : nat) (p p' : Process RuntimeContext) : Prop :=
  ∀ i, i ≠ ref → heap p' !! i = heap p !! i.

End WithContext.

(** The sample process of [SetupSample] with [FAIRSEQ2_EXTENSION_TRACE] set,
    and a context already allocated. *)
Definition traced_process : Process SetupSample.Context :=
  {| _setup_called := false; _default_context := None; heap := [[]];
     environ := {["FAIRSEQ2_EXTENSION_TRACE" := "1"]};
     installed := SetupSample.entry_points; log := []; registered := [] |}.

Definition quiet_process : Process SetupSample.Context :=
  {| _setup_called := false; _default_context := None; heap := [[]];
     environ := ∅;
     installed := SetupSample.entry_points; log := []; registered := [] |}.

End ExtensionsSpec.

Module SetupSpec.
Import Setup.

(** The module-level variables of [setup/_root.py] and [fairseq2.context]
    are as they were. *)
Definition same_flags {RuntimeContext} (p p' : Process RuntimeContext) : Prop :=
  _setup_called p' = _setup_called p ∧ _default_context p' = _default_context p.

(** A process in which nothing was set up yet, with
    [FAIRSEQ2_EXTENSION_TRACE] set and the broken sample extension
    installed. *)
Definition traced_fresh_process : Process SetupSample.Context :=
  {| _setup_called := false; _default_context := None; heap := [];
     environ := {["FAIRSEQ2_EXTENSION_TRACE" := "1"]};
     installed := SetupSample.entry_points; log := []; registered := [] |}.

End SetupSpec.

(* ===================================================================== *)
(** ** More vocabulary for the evaluation recipe *)
(* ===================================================================== *)

Module MTEvalSpec.
Import MTEval.

(** A metric after its accumulator has received the update [u]. *)
Definition fed (u : Update) (m : Metric) : Metric :=
  {| accumulator :=
       {| kind := kind (accumulator m); acc_device := acc_device (accumulator m);
          updates := updates (accumulator m) ++ [u] |};
     persistent := persistent m |}.

(** What a call of a unit leaves alone when it only writes: the unit itself,
    the directories and the record of generator calls. *)
Definition only_streams {U} (s s' : U * World) : Prop :=
  s'.1 = s.1 ∧
  directories s'.2 = directories s.2 ∧
  generator_calls s'.2 = generator_calls s.2.

(** The two readers of a direction, given the seed at the start of its
    iteration. *)
Definition direction_readers (config : Config.MTEvalConfig) (gangs : Gangs)
    (tokenizer : TextTokenizer) (d : Direction) (s : Z) : list DataReader :=
  [ create_reader (Config.split (Config.dataset config)) tokenizer (dp gangs)
      (Config.min_seq_len (Config.dataset config))
      (Config.max_seq_len (Config.dataset config))
      {| batching := LengthBatching (Config.max_num_tokens (Config.dataset config));
         direction := d; sync_mode := UNTIL_LAST;
         num_prefetch := Config.num_prefetch (Config.dataset config); seed := s |};
    create_reader (Config.split (Config.dataset config)) tokenizer (dp gangs)
      (Config.min_seq_len (Config.dataset config))
      (Config.max_seq_len (Config.dataset config))
      {| batching := StaticBatching (Config.batch_size (Config.seq2seq_generator config));
         direction := d; sync_mode := UNTIL_LAST;
         num_prefetch := Config.num_prefetch (Config.dataset config);
         seed := (s + 1)%Z |} ].

(** The readers that a loop in which nothing raised appends. *)
Fixpoint built_readers (config : Config.MTEvalConfig) (gangs : Gangs)
    (tokenizer : TextTokenizer) (ds : list Direction) (s : Z) : list DataReader :=
  match ds with
  | [] => []
  | d :: rest =>
      direction_readers config gangs tokenizer d s
      ++ built_readers config gangs tokenizer rest (s + 1 + 1)%Z
  end.

(** A batch whose ['source_text'] holds a number between two sentences. *)
Definition number_in_source : PyVal :=
  PyDict [("source_text", PyList [PyStr "hello"; PyInt 7; PyStr "the world"]);
          ("target_text", PyList [PyStr "salut"; PyStr "le monde"])].

(** The sample collaborators with a generator that raises. *)
Definition failing_generator : Collaborators :=
  {| setup_gangs := @setup_gangs Sample.writer;
     load_dataset := @load_dataset Sample.writer;
     load_text_tokenizer := @load_text_tokenizer Sample.writer;
     load_eval_model := @load_eval_model Sample.writer;
     compile_eval_model := @compile_eval_model Sample.writer;
     create_seq2seq_generator := @create_seq2seq_generator Sample.writer;
     forward := @forward Sample.writer;
     batch_convert := λ _ _ _, inl (RuntimeError "CUDA out of memory");
     format_direction := @format_direction Sample.writer |}.

End MTEvalSpec.

(* ===================================================================== *)
(** ** The library's own exceptions, [fairseq2.assets.error] *)
(* ===================================================================== *)

Module Lib.

(** Modelled from the spec: [InvalidOperationError] of [fairseq2.error] and
    [TextTokenizerLoadError] of [fairseq2.data.text.tokenizers], which are
    not part of the sources at hand, are exception classes of the library
    that derive from [Exception] and from no other class here; the second
    carries the name of the tokenizer.  The other classes are those of
    [assets/error.py], which declares [AssetError], its subclass
    [AssetCardError] with a [name], and the two subclasses
    [AssetCardNotFoundError] and [AssetCardFieldNotFoundError] of that.
    [cause] is the exception that a [raise ... from] chains. *)
#[warnings="-register-all"]
Inductive LibExn : Type :=
| Python (e : PyExn)
| InvalidOperationError (msg : string)
| AssetError (msg : string)
| AssetCardError (name msg : string) (cause : option LibExn)
| AssetCardNotFoundError (name msg : string)
| AssetCardFieldNotFoundError (name msg : string)
| TextTokenizerLoadError (name msg : string) (cause : option LibExn).

(** [AssetNotFoundError: TypeAlias = AssetCardNotFoundError  # compat]. *)
Definition AssetNotFoundError : string → string → LibExn := AssetCardNotFoundError.

(** [isinstance(e, AssetCardFieldNotFoundError)]. *)
Definition is_AssetCardFieldNotFoundError (e : LibExn) : bool :=
  match e with AssetCardFieldNotFoundError _ _ => true | _ => false end.

(** [isinstance(e, AssetCardNotFoundError)]. *)
Definition is_AssetCardNotFoundError (e : LibExn) : bool :=
  match e with AssetCardNotFoundError _ _ => true | _ => false end.

(** [isinstance(e, AssetCardError)]: the class and its two subclasses. *)
Definition is_AssetCardError (e : LibExn) : bool :=
  match e with
  | AssetCardError _ _ _ | AssetCardNotFoundError _ _
  | AssetCardFieldNotFoundError _ _ => true
  | _ => false
  end.

(** [isinstance(e, AssetError)]. *)
Definition is_AssetError (e : LibExn) : bool :=
  match e with AssetError _ => true | _ => is_AssetCardError e end.

(** [e.name] of an [AssetCardError]. *)
Definition card_error_name (e : LibExn) : option string :=
  match e with
  | AssetCardError name _ _ | AssetCardNotFoundError name _
  | AssetCardFieldNotFoundError name _ => Some name
  | _ => None
  end.

(** [isinstance(e, ValueError)] and [isinstance(e, RuntimeError)]. *)
Definition is_ValueError (e : LibExn) : bool :=
  match e with Python (ValueError _) => true | _ => false end.

Definition is_RuntimeError (e : LibExn) : bool :=
  match e with Python (RuntimeError _) => true | _ => false end.

(** The effect monad with the library's exceptions. *)
Definition L (S A : Type) : Type := S → (LibExn + A) * S.

Definition lret {S A} (a : A) : L S A := λ s, (inr a, s).
Definition lraise {S A} (e : LibExn) : L S A := λ s, (inl e, s).
Definition lbind {S A B} (c : L S A) (k : A → L S B) : L S B :=
  λ s, match c s with
       | (inr a, s') => k a s'
       | (inl e, s') => (inl e, s')
       end.

End Lib.

Export Lib.

Notation "'let+' x ':=' c 'in' k" := (lbind c (λ x, k))
  (at level 10, x pattern, c at level 100, k at level 200).
Notation "c ';;+' k" := (lbind c (λ _, k))
  (at level 100, k at level 200, right associativity).

(* ===================================================================== *)
(** ** [fairseq2.utils.profiler] *)
(* ===================================================================== *)

Module Profiler.

Record Device : Type := { device_type : string; device_index : option Z }.

(** *** [Stopwatch] *)

Section Stopwatch.

(** Python's [float], the readings of [perf_counter], the difference of two
    floats and the float [0.0] are parameters: the [k]-th call of
    [perf_counter()] in a process returns [perf_counter k]. *)
Context {float : Type}.
Variable perf_counter : nat → float.
Variable fsub : float → float → float.
Variable zero : float.

(** What the stopwatch can touch outside itself: the clock, of which
    [reads] readings were taken so far, and the devices that were waited
    for with [torch.cuda.synchronize], in order. *)
Record Clock : Type := { reads : nat; synchronized : list Device }.

Record Stopwatch : Type := {
  _start_time : option float;
  _device : option Device;
}.

Definition set_start_time (t : option float) (self : Stopwatch) : Stopwatch :=
  {| _start_time := t; _device := _device self |}.

(** [perf_counter()]. *)
Definition read_clock : L (Stopwatch * Clock) float :=
  λ s, (inr (perf_counter (reads s.2)),
        (s.1, {| reads := S (reads s.2); synchronized := synchronized s.2 |})).

(** [torch.cuda.synchronize(device)], which is taken to return: all that is
    kept of it is the device that was waited for. *)
Definition cuda_synchronize (d : Device) : L (Stopwatch * Clock) unit :=
  λ s, (inr tt, (s.1, {| reads := reads s.2; synchronized := synchronized s.2 ++ [d] |})).

Definition _sync_device : L (Stopwatch * Clock) unit :=
  λ s, match _device s.1 with
       | Some d =>
           if decide (device_type d = "cuda") then cuda_synchronize d s
           else (inr tt, s)
       | None => (inr tt, s)
       end.

Definition start : L (Stopwatch * Clock) unit :=
  λ s, match _start_time s.1 with
       | Some _ => (inl (InvalidOperationError "The stopwatch is already running."), s)
       | None =>
           (_sync_device ;;+
            let+ now := read_clock in
            λ s, (inr tt, (set_start_time (Some now) s.1, s.2))) s
       end.

Definition stop : L (Stopwatch * Clock) unit :=
  λ s, (inr tt, (set_start_time None s.1, s.2)).

Definition reset : L (Stopwatch * Clock) unit :=
  λ s, match _start_time s.1 with
       | None => (inl (InvalidOperationError "The stopwatch is not running."), s)
       | Some _ =>
           (_sync_device ;;+
            let+ now := read_clock in
            λ s, (inr tt, (set_start_time (Some now) s.1, s.2))) s
       end.

Definition get_elapsed_time : L (Stopwatch * Clock) float :=
  λ s, match _start_time s.1 with
       | None => (inr zero, s)
       | Some start_time =>
           (_sync_device ;;+
            let+ now := read_clock in
            lret (fsub now start_time)) s
       end.

Definition __enter__ : L (Stopwatch * Clock) unit :=
  λ s, match _start_time s.1 with
       | None => start s
       | Some _ => (inr tt, s)
       end.

Definition __exit__ : L (Stopwatch * Clock) unit := stop.

Definition is_running (self : Stopwatch) : bool :=
  match _start_time self with Some _ => true | None => false end.

(** [Stopwatch(start=..., device=...)]. *)
Definition Stopwatch__init__ (start_now : bool) (device : option Device)
    : Clock → (LibExn + Stopwatch) * Clock :=
  λ k,
    let rest :=
      let self := {| _start_time := None; _device := device |} in
      if start_now then
        match start (self, k) with
        | (inl e, s) => (inl e, s.2)
        | (inr _, s) => (inr s.1, s.2)
        end
      else (inr self, k) in
    match device with
    | Some d =>
        if decide (device_type d ≠ "cpu" ∧ device_type d ≠ "cuda") then
          (inl (Python (ValueError
             ("The type of `device` must be `cpu` or `cuda`, but is `"
              +:+ device_type d +:+ "` instead."))), k)
        else rest
    | None => rest
    end.

(** Vocabulary of the properties: a stopwatch that waits for its device
    before it reads the clock. *)
Definition waits (sw : Stopwatch) : bool :=
  match _device sw with
  | Some d => bool_decide (device_type d = "cuda")
  | None => false
  end.

(** The start time of a stopwatch is a reading that was taken. *)
Definition timed (s : Stopwatch * Clock) : Prop :=
  ∀ t, _start_time s.1 = Some t → ∃ i, (i < reads s.2)%nat ∧ t = perf_counter i.

(** The methods of a stopwatch that a caller can invoke on it. *)
Inductive Call : Type :=
| CallStart | CallStop | CallReset | CallElapsed | CallEnter | CallExit.

(** A method call, its result forgotten up to success or failure. *)
Definition invoke (c : Call) : L (Stopwatch * Clock) unit :=
  match c with
  | CallStart => start
  | CallStop => stop
  | CallReset => reset
  | CallElapsed => get_elapsed_time ;;+ lret tt
  | CallEnter => __enter__
  | CallExit => __exit__
  end.

(** A sequence of calls in which a caller carries on after an exception. *)
Fixpoint invoke_all (cs : list Call) (s : Stopwatch * Clock) : Stopwatch * Clock :=
  match cs with
  | [] => s
  | c :: rest => invoke_all rest (invoke c s).2
  end.

End Stopwatch.

Arguments Stopwatch : clear implicits.

End Profiler.

Module StopwatchSample.
Import Profiler.

(** A clock that is read in ticks: reading [k] is [100 + 7 k]. *)
Definition ticks (k : nat) : Z := (100 + 7 * Z.of_nat k)%Z.

Definition cuda0 : Device := {| device_type := "cuda"; device_index := Some 0%Z |}.
Definition cpu : Device := {| device_type := "cpu"; device_index := None |}.
Definition tpu : Device := {| device_type := "xla"; device_index := None |}.

Definition fresh_clock : Clock := {| reads := 0; synchronized := [] |}.

Definition stopped_on (d : option Device) : Stopwatch Z :=
  {| _start_time := None; _device := d |}.

End StopwatchSample.

(* ===================================================================== *)
(** ** [fairseq2.data.text.tokenizers.llama] *)
(* ===================================================================== *)

Module LLaMA.
Import Profiler.

(** A computation that returns or raises, without state: the constructors
    and the card accessors that the module calls. *)
Definition ebind {A B} (c : LibExn + A) (k : A → LibExn + B) : LibExn + B :=
  match c with inr a => k a | inl e => inl e end.

(** [try: c except <class>: h], the class given by its [isinstance] test. *)
Definition ecatch {A} (c : LibExn + A) (is_class : LibExn → bool)
    (h : LibExn → LibExn + A) : LibExn + A :=
  match c with
  | inl e => if is_class e then h e else inl e
  | r => r
  end.

(** The keyword arguments that [LLaMA3Tokenizer.__init__] hands to
    [TiktokenTokenizer.__init__]. *)
Record TiktokenArgs : Type := {
  split_regex : string;
  unk_token : option string;
  bos_token : string;
  eos_token : string;
  pad_token : string;
  boh_token : string;
  eoh_token : string;
  special_tokens : list string;
}.

Definition _SPLIT_REGEX : string :=
  "(?i:'s|'t|'re|'ve|'m|'ll|'d)|[^\r\n\p{L}\p{N}]?\p{L}+|\p{N}{1,3}| ?[^\s\p{L}\p{N}]+[\r\n]*|\s*[\r\n]+|\s+(?!\S)|\s+".

(** The list literal of [LLaMA3Tokenizer.__init__]. *)
Definition named_special_tokens : list string := [
  "<|begin_of_text|>";
  "<|end_of_text|>";
  "<|reserved_special_token_0|>";
  "<|reserved_special_token_1|>";
  "<|finetune_right_pad_id|>";
  "<|step_id|>";
  "<|start_header_id|>";
  "<|end_header_id|>";
  "<|eom_id|>";
  "<|eot_id|>";
  "<|python_tag|>"
].

Definition num_reserved_special_tokens : nat := 256.

(** [f"<|reserved_special_token_{2 + i}|>"]. *)
Definition reserved_special_token (i : nat) : string :=
  "<|reserved_special_token_" +:+ pretty (2 + i) +:+ "|>".

(** The loop [for i in range(256 - len(special_tokens)): special_tokens.append(...)]:
    the range is computed once, before the first append. *)
Definition all_special_tokens : list string :=
  foldl (λ special_tokens i, special_tokens ++ [reserved_special_token i])
        named_special_tokens
        (seq 0 (num_reserved_special_tokens - length named_special_tokens)).

(** The arguments with which [create_encoder] builds a [TiktokenEncoder]. *)
Record EncoderArgs {Encoding : Type} : Type := {
  encoding : Encoding;
  prefix_tokens : list string;
  suffix_tokens : list string;
  device : option Device;
  pin_memory : bool;
}.
Arguments EncoderArgs : clear implicits.

Section Tokenizer.

(** The path of the BPE file, the encoding that [TiktokenTokenizer] builds
    from it and the encoder are those of [fairseq2.data.text.tokenizers.tiktoken]. *)
Context {Path Encoding TiktokenEncoder : Type}.

(** Modelled from the spec: [TiktokenTokenizer.__init__], of a module that is
    not part of the sources at hand, loads the BPE file and keeps the result
    as [self._encoding], or raises; [TiktokenEncoder(...)] builds an encoder
    or raises. *)
Variable TiktokenTokenizer__init__ : Path → TiktokenArgs → LibExn + Encoding.
Variable TiktokenEncoder__init__ : EncoderArgs Encoding → LibExn + TiktokenEncoder.

Record LLaMA3Tokenizer : Type := {
  _eos_token : string;
  _encoding : Encoding;
}.

(** [LLaMA3Tokenizer(path, instruct)]. *)
Definition LLaMA3Tokenizer__init__ (path : Path) (instruct : bool)
    : LibExn + LLaMA3Tokenizer :=
  let _eos_token := if instruct then "<|eot_id|>" else "<|end_of_text|>" in
  let special_tokens := all_special_tokens in
  ebind (TiktokenTokenizer__init__ path {|
           split_regex := _SPLIT_REGEX;
           unk_token := None;
           bos_token := "<|begin_of_text|>";
           eos_token := _eos_token;
           pad_token := "<|finetune_right_pad_id|>";
           boh_token := "<|start_header_id|>";
           eoh_token := "<|end_header_id|>";
           special_tokens := special_tokens |})
        (λ enc, inr {| _eos_token := _eos_token; _encoding := enc |}).

(** The [match mode] statement of [create_encoder]: the prefix and the
    suffix tokens, or [None] in the [case _] branch. *)
Definition mode_tokens (self : LLaMA3Tokenizer) (mode : option string)
    : option (list string * list string) :=
  match mode with
  | None => Some (["<|begin_of_text|>"], [_eos_token self])
  | Some m =>
      if String.eqb m "default" then Some (["<|begin_of_text|>"], [_eos_token self])
      else if String.eqb m "prompt" then Some (["<|begin_of_text|>"], [])
      else if String.eqb m "prompt_response" then Some ([], [_eos_token self])
      else if String.eqb m "as_is" then Some ([], [])
      else None
  end.

(** The modes that the [match] statement names. *)
Definition accepted_modes : list (option string) :=
  [None; Some "default"; Some "prompt"; Some "prompt_response"; Some "as_is"].

Definition create_encoder (self : LLaMA3Tokenizer)
    (task lang mode : option string) (device : option Device) (pin_memory : bool)
    : LibExn + TiktokenEncoder :=
  match task with
  | Some task =>
      inl (Python (ValueError ("`task` must be `None`, but is '" +:+ task +:+ "' instead.")))
  | None =>
      match lang with
      | Some lang =>
          inl (Python (ValueError ("`lang` must be `None`, but is '" +:+ lang +:+ "' instead.")))
      | None =>
          match mode_tokens self mode with
          | Some (prefix_tokens, suffix_tokens) =>
              TiktokenEncoder__init__ {|
                encoding := _encoding self;
                prefix_tokens := prefix_tokens;
                suffix_tokens := suffix_tokens;
                device := device;
                pin_memory := pin_memory |}
          | None =>
              inl (Python (ValueError
                ("`mode` must be one of the following values, but is '"
                 +:+ default "" mode
                 +:+ "' instead: default, prompt, prompt_response, as_is")))
          end
      end
  end.

End Tokenizer.

Arguments LLaMA3Tokenizer : clear implicits.

(** *** [LLaMATokenizerHandler] *)

Definition LLAMA_TOKENIZER_FAMILY : string := "llama".

Section Handler.

Context {Path Encoding BasicSentencePieceTokenizer : Type}.
Variable TiktokenTokenizer__init__ : Path → TiktokenArgs → LibExn + Encoding.

(** Modelled from the spec: [BasicSentencePieceTokenizer(path)], of a module
    that is not part of the sources at hand, returns a tokenizer or raises. *)
Variable BasicSentencePieceTokenizer__init__ : Path → LibExn + BasicSentencePieceTokenizer.

(** Modelled from the spec: an [AssetCard] of [fairseq2.assets] has a [name];
    [card.field(name)] and [field.field(name)] return a field or raise, and
    [field.as_(bool)] and [field.as_(int)] return its value or raise
    (an [AssetCardFieldNotFoundError] when the card has no such field). *)
Context {AssetCard AssetCardField : Type}.
Variable name : AssetCard → string.
Variable card_field : AssetCard → string → LibExn + AssetCardField.
Variable field_field : AssetCardField → string → LibExn + AssetCardField.
Variable as_bool : AssetCardField → LibExn + bool.
Variable as_int : AssetCardField → LibExn + Z.

(** What [_load_tokenizer] returns: a [TextTokenizer]. *)
Inductive TextTokenizer : Type :=
| LLaMA3 (t : LLaMA3Tokenizer Encoding)
| SentencePiece (t : BasicSentencePieceTokenizer).

Definition family : string := LLAMA_TOKENIZER_FAMILY.

Definition eot_idx : Z := 128009.

(** [card.field("use_v2_tokenizer").as_(bool)] and the field
    [card.field("model_config").field("vocab_info").field("eos_idx")]. *)
Definition use_v2_field (card : AssetCard) : LibExn + bool :=
  ebind (card_field card "use_v2_tokenizer") as_bool.

Definition eos_idx_field (card : AssetCard) : LibExn + AssetCardField :=
  ebind (ebind (card_field card "model_config") (λ f, field_field f "vocab_info"))
        (λ f, field_field f "eos_idx").

(** The [try] statement around [LLaMA3Tokenizer(path, instruct=eos_idx == eot_idx)]. *)
Definition load_llama3 (path : Path) (card : AssetCard) (eos_idx : Z)
    : LibExn + TextTokenizer :=
  match LLaMA3Tokenizer__init__ TiktokenTokenizer__init__ path (Z.eqb eos_idx eot_idx) with
  | inr t => inr (LLaMA3 t)
  | inl ex =>
      if is_ValueError ex then
        inl (AssetCardError (name card)
               ("The value of the `model_config.vocab_info.eos_idx` field of the '"
                +:+ name card
                +:+ "' asset card does not represent a valid LLaMA tokenizer configuration. See the nested exception for details.")
               (Some ex))
      else if is_RuntimeError ex then
        inl (TextTokenizerLoadError (name card)
               ("The '" +:+ name card
                +:+ "' text tokenizer cannot be loaded. See the nested exception for details.")
               (Some ex))
      else inl ex
  end.

(** The [try] statement around [BasicSentencePieceTokenizer(path)]. *)
Definition load_sentencepiece (path : Path) (card : AssetCard) : LibExn + TextTokenizer :=
  match BasicSentencePieceTokenizer__init__ path with
  | inr t => inr (SentencePiece t)
  | inl ex =>
      if is_RuntimeError ex then
        inl (TextTokenizerLoadError (name card)
               ("The '" +:+ name card
                +:+ "' text tokenizer cannot be loaded. See the nested exception for details.")
               (Some ex))
      else inl ex
  end.

Definition _load_tokenizer (path : Path) (card : AssetCard) : LibExn + TextTokenizer :=
  ebind
    (ecatch (use_v2_field card) is_AssetCardFieldNotFoundError (λ _, inr false))
    (λ use_v2,
       if use_v2 : bool then
         ebind (eos_idx_field card)
           (λ field,
              ebind (ecatch (as_int field) is_AssetCardFieldNotFoundError (λ _, inr 0%Z))
                (λ eos_idx, load_llama3 path card eos_idx))
       else load_sentencepiece path card).

(** Vocabulary of the properties: the two messages, which name the card. *)
Definition cannot_be_loaded (card : AssetCard) : string :=
  "The '" +:+ name card
  +:+ "' text tokenizer cannot be loaded. See the nested exception for details.".

Definition not_a_valid_configuration (card : AssetCard) : string :=
  "The value of the `model_config.vocab_info.eos_idx` field of the '" +:+ name card
  +:+ "' asset card does not represent a valid LLaMA tokenizer configuration. See the nested exception for details.".

(** The two ways in which the card chooses SentencePiece. *)
Definition legacy (card : AssetCard) : Prop :=
  use_v2_field card = inr false ∨
  ∃ e, use_v2_field card = inl e ∧ is_AssetCardFieldNotFoundError e = true.

(** The value that [eos_idx] takes for a field of the card. *)
Definition eos_idx_of (field : AssetCardField) (i : Z) : Prop :=
  as_int field = inr i ∨
  (i = 0%Z ∧ ∃ e, as_int field = inl e ∧ is_AssetCardFieldNotFoundError e = true).

End Handler.

Arguments TextTokenizer : clear implicits.

End LLaMA.

Module LLaMASample.
Import LLaMA.

(** A file system with one BPE file that cannot be read, and an encoding
    that is the list of its special tokens. *)
Definition load_bpe (path : string) (args : TiktokenArgs) : LibExn + list string :=
  if String.eqb path "broken.tiktoken"
  then inl (Python (RuntimeError "The file cannot be read."))
  else inr (special_tokens args).

Definition load_spm (path : string) : LibExn + string :=
  if String.eqb path "broken.model"
  then inl (Python (RuntimeError "The file cannot be read."))
  else if String.eqb path "odd.model"
  then inl (Python (ValueError "The model is not a SentencePiece model."))
  else inr path.

Definition new_encoder (args : EncoderArgs (list string)) : LibExn + EncoderArgs (list string) :=
  inr args.

(** A card with the two fields that the handler reads. *)
Record Card : Type := {
  card_name : string;
  use_v2_tokenizer : option bool;
  eos_idx : option Z;
}.

Definition card_field (card : Card) (nm : string) : LibExn + (Card * list string) :=
  inr (card, [nm]).

Definition field_field (f : Card * list string) (nm : string)
    : LibExn + (Card * list string) :=
  inr (f.1, f.2 ++ [nm]).

Definition not_found (f : Card * list string) : LibExn :=
  AssetCardFieldNotFoundError (card_name f.1) "The field is not found.".

Definition as_bool (f : Card * list string) : LibExn + bool :=
  if decide (f.2 = ["use_v2_tokenizer"])
  then from_option inr (inl (not_found f)) (use_v2_tokenizer f.1)
  else inl (not_found f).

Definition as_int (f : Card * list string) : LibExn + Z :=
  if decide (f.2 = ["model_config"; "vocab_info"; "eos_idx"])
  then from_option inr (inl (not_found f)) (eos_idx f.1)
  else inl (not_found f).

Definition load (path : string) (card : Card) :=
  _load_tokenizer load_bpe load_spm card_name card_field field_field as_bool as_int
    path card.

Definition llama3_instruct : Card :=
  {| card_name := "llama3_instruct"; use_v2_tokenizer := Some true;
     eos_idx := Some 128009%Z |}.

Definition llama3 : Card :=
  {| card_name := "llama3"; use_v2_tokenizer := Some true; eos_idx := None |}.

Definition llama2 : Card :=
  {| card_name := "llama2"; use_v2_tokenizer := None; eos_idx := None |}.

End LLaMASample.

(* ===================================================================== *)
(** ** [fairseq2.models.nllb.builder] *)
(* ===================================================================== *)

Module Nllb.
Import Profiler.

(** [TransformerNormOrder] of [fairseq2.nn.transformer]. *)
Inductive TransformerNormOrder : Type := POST | PRE | PRE_WITH_NORMFORMER.

Section Builder.

(** Python's [float] and the [DataType] of [fairseq2.typing]. *)
Context {float DataType : Type}.

Record NllbConfig : Type := {
  model_dim : Z;
  max_seq_len : Z;
  vocabulary_size : Z;
  pad_idx : Z;
  num_encoder_layers : Z;
  num_decoder_layers : Z;
  num_encoder_attn_heads : Z;
  num_decoder_attn_heads : Z;
  ffn_inner_dim : Z;
  dropout_p : float;
}.

(** The float literal [0.1] of the architectures. *)
Variable point_one : float.

Definition nllb_dense_1b : NllbConfig := {|
  model_dim := 1024;
  max_seq_len := 1024;
  vocabulary_size := 256206;
  pad_idx := 0;
  num_encoder_layers := 24;
  num_decoder_layers := 24;
  num_encoder_attn_heads := 16;
  num_decoder_attn_heads := 16;
  ffn_inner_dim := 1024 * 8;
  dropout_p := point_one;
|}.

Definition nllb_dense_3b : NllbConfig := {|
  model_dim := 2048;
  max_seq_len := 1024;
  vocabulary_size := 256206;
  pad_idx := 0;
  num_encoder_layers := 24;
  num_decoder_layers := 24;
  num_encoder_attn_heads := 16;
  num_decoder_attn_heads := 16;
  ffn_inner_dim := 1024 * 8;
  dropout_p := point_one;
|}.

Definition nllb_dense_600m : NllbConfig := {|
  model_dim := 1024;
  max_seq_len := 1024;
  vocabulary_size := 256206;
  pad_idx := 0;
  num_encoder_layers := 12;
  num_decoder_layers := 12;
  num_encoder_attn_heads := 16;
  num_decoder_attn_heads := 16;
  ffn_inner_dim := 1024 * 4;
  dropout_p := point_one;
|}.

(** The architectures that the [arch] marker registers, by name. *)
Definition nllb_archs : list (string * NllbConfig) :=
  [("dense_1b", nllb_dense_1b); ("dense_3b", nllb_dense_3b);
   ("dense_600m", nllb_dense_600m)].

(** Modules are objects: a module that holds another holds a reference to
    it, which is its position in the store of the objects built so far. *)
Definition Ref : Type := nat.

(** Modelled from the spec: the modules of [fairseq2.nn] and
    [fairseq2.models.transformer], which are not part of the sources at
    hand, each with the arguments that the builder gives its constructor.
    [TiedProjection(embed.weight)] keeps the weight of the embedding it is
    given. *)
Inductive Obj : Type :=
| Embedding (num_embeddings embedding_dim pad_idx : Z) (scaled : bool)
    (device : option Device) (dtype : option DataType)
| SinusoidalPositionEncoder (encoding_dim max_seq_len _legacy_pad_idx : Z)
    (device : option Device) (dtype : option DataType)
| TransformerEmbeddingFrontend (embed pos_encoder : Ref) (dropout_p : float)
    (device : option Device) (dtype : option DataType)
| DefaultSDPA (attn_dropout_p : float)
| StandardMultiheadAttention (model_dim num_heads : Z) (sdpa : Ref)
    (device : option Device) (dtype : option DataType)
| StandardFeedForwardNetwork (model_dim inner_dim : Z) (norm_order : TransformerNormOrder)
    (device : option Device) (dtype : option DataType)
| StandardTransformerEncoderLayer (self_attn ffn : Ref) (dropout_p : float)
    (norm_order : TransformerNormOrder) (device : option Device) (dtype : option DataType)
| StandardTransformerDecoderLayer (self_attn encoder_decoder_attn ffn : Ref)
    (dropout_p : float) (norm_order : TransformerNormOrder)
    (device : option Device) (dtype : option DataType)
| StandardTransformerEncoder (layers : list Ref) (norm_order : TransformerNormOrder)
    (device : option Device) (dtype : option DataType)
| StandardTransformerDecoder (layers : list Ref) (norm_order : TransformerNormOrder)
    (device : option Device) (dtype : option DataType)
| TiedProjection (weight_of : Ref)
| TransformerModel (encoder_frontend encoder decoder_frontend decoder final_proj : Ref)
    (pad_idx : Z).

Definition Store : Type := list Obj.

(** Modelled from the spec: a constructor (or [get_default_sdpa]) either
    raises, having built nothing, or returns a new object.  Whether it
    raises may depend on its arguments and on the objects they refer to. *)
Variable refuses : Store → Obj → option LibExn.

Definition construct (o : Obj) : L Store Ref :=
  λ h, match refuses h o with
       | Some e => (inl e, h)
       | None => (inr (length h), h ++ [o])
       end.

Record NllbBuilder : Type := {
  config : NllbConfig;
  device : option Device;
  dtype : option DataType;
}.

(** [NllbBuilder(config, device, dtype)]. *)
Definition NllbBuilder__init__ (config : NllbConfig) (device : option Device)
    (dtype : option DataType) : NllbBuilder :=
  {| config := config; device := device; dtype := dtype |}.

(** [reset], whose body is its docstring. *)
Definition reset (self : NllbBuilder) : L Store unit := lret tt.

Definition build_attention (self : NllbBuilder) (num_heads : Z) : L Store Ref :=
  let+ sdpa := construct (DefaultSDPA (dropout_p (config self))) in
  construct (StandardMultiheadAttention (model_dim (config self)) num_heads sdpa
               (device self) (dtype self)).

Definition build_ffn (self : NllbBuilder) : L Store Ref :=
  construct (StandardFeedForwardNetwork (model_dim (config self))
               (ffn_inner_dim (config self)) PRE (device self) (dtype self)).

Definition build_encoder_layer (self : NllbBuilder) : L Store Ref :=
  let+ self_attn := build_attention self (num_encoder_attn_heads (config self)) in
  let+ ffn := build_ffn self in
  construct (StandardTransformerEncoderLayer self_attn ffn (dropout_p (config self))
               PRE (device self) (dtype self)).

Definition build_decoder_layer (self : NllbBuilder) : L Store Ref :=
  let+ self_attn := build_attention self (num_decoder_attn_heads (config self)) in
  let+ encoder_decoder_attn :=
    build_attention self (num_decoder_attn_heads (config self)) in
  let+ ffn := build_ffn self in
  construct (StandardTransformerDecoderLayer self_attn encoder_decoder_attn ffn
               (dropout_p (config self)) PRE (device self) (dtype self)).

(** The comprehension [[build() for _ in range(num_layers)]]; [range] of a
    negative number is empty. *)
Fixpoint build_each (n : nat) (build : L Store Ref) : L Store (list Ref) :=
  match n with
  | 0 => lret []
  | S n =>
      let+ layer := build in
      let+ layers := build_each n build in
      lret (layer :: layers)
  end.

Definition build_encoder (self : NllbBuilder) : L Store Ref :=
  let num_layers := num_encoder_layers (config self) in
  let+ layers := build_each (Z.to_nat num_layers) (build_encoder_layer self) in
  construct (StandardTransformerEncoder layers PRE (device self) (dtype self)).

Definition build_decoder (self : NllbBuilder) : L Store Ref :=
  let num_layers := num_decoder_layers (config self) in
  let+ layers := build_each (Z.to_nat num_layers) (build_decoder_layer self) in
  construct (StandardTransformerDecoder layers PRE (device self) (dtype self)).

Definition build_frontend (self : NllbBuilder) (embed : Ref) : L Store Ref :=
  let+ pos_encoder :=
    construct (SinusoidalPositionEncoder (model_dim (config self))
                 (max_seq_len (config self)) (pad_idx (config self))
                 (device self) (dtype self)) in
  construct (TransformerEmbeddingFrontend embed pos_encoder (dropout_p (config self))
               (device self) (dtype self)).

Definition build_model (self : NllbBuilder) : L Store Ref :=
  let+ embed :=
    construct (Embedding (vocabulary_size (config self)) (model_dim (config self))
                 (pad_idx (config self)) true (device self) (dtype self)) in
  let+ frontend := build_frontend self embed in
  let+ encoder := build_encoder self in
  let+ decoder := build_decoder self in
  let+ final_proj := construct (TiedProjection embed) in
  construct (TransformerModel frontend encoder frontend decoder final_proj
               (pad_idx (config self))).

Definition create_nllb_model (config : NllbConfig) (device : option Device)
    (dtype : option DataType) : L Store Ref :=
  build_model (NllbBuilder__init__ config device dtype).

(** *** Vocabulary of the properties *)

(** The objects of a model in the order in which they are built, the first
    of them at position [b] of the store. *)
Definition attention_plan (self : NllbBuilder) (num_heads : Z) (b : nat) : list Obj :=
  [DefaultSDPA (dropout_p (config self));
   StandardMultiheadAttention (model_dim (config self)) num_heads b
     (device self) (dtype self)].

Definition encoder_layer_plan (self : NllbBuilder) (b : nat) : list Obj :=
  attention_plan self (num_encoder_attn_heads (config self)) b
  ++ [StandardFeedForwardNetwork (model_dim (config self)) (ffn_inner_dim (config self))
        PRE (device self) (dtype self);
      StandardTransformerEncoderLayer (b + 1) (b + 2) (dropout_p (config self))
        PRE (device self) (dtype self)].

Definition decoder_layer_plan (self : NllbBuilder) (b : nat) : list Obj :=
  attention_plan self (num_decoder_attn_heads (config self)) b
  ++ attention_plan self (num_decoder_attn_heads (config self)) (b + 2)
  ++ [StandardFeedForwardNetwork (model_dim (config self)) (ffn_inner_dim (config self))
        PRE (device self) (dtype self);
      StandardTransformerDecoderLayer (b + 1) (b + 3) (b + 4) (dropout_p (config self))
        PRE (device self) (dtype self)].

(** [n] layers of [size] objects each, and the positions of the layers. *)
Fixpoint layers_plan (layer_plan : nat → list Obj) (size n b : nat) : list Obj :=
  match n with
  | 0 => []
  | S n => layer_plan b ++ layers_plan layer_plan size n (b + size)
  end.

Fixpoint layers_refs (size n b : nat) : list Ref :=
  match n with
  | 0 => []
  | S n => (b + size - 1) :: layers_refs size n (b + size)
  end.

Definition encoder_layers (self : NllbBuilder) : nat :=
  Z.to_nat (num_encoder_layers (config self)).

Definition decoder_layers (self : NllbBuilder) : nat :=
  Z.to_nat (num_decoder_layers (config self)).

Definition model_plan (self : NllbBuilder) (b : nat) : list Obj :=
  let enc := b + 3 + 4 * encoder_layers self in
  let dec := enc + 1 + 6 * decoder_layers self in
  [Embedding (vocabulary_size (config self)) (model_dim (config self))
     (pad_idx (config self)) true (device self) (dtype self);
   SinusoidalPositionEncoder (model_dim (config self)) (max_seq_len (config self))
     (pad_idx (config self)) (device self) (dtype self);
   TransformerEmbeddingFrontend b (b + 1) (dropout_p (config self))
     (device self) (dtype self)]
  ++ layers_plan (encoder_layer_plan self) 4 (encoder_layers self) (b + 3)
  ++ [StandardTransformerEncoder (layers_refs 4 (encoder_layers self) (b + 3))
        PRE (device self) (dtype self)]
  ++ layers_plan (decoder_layer_plan self) 6 (decoder_layers self) (enc + 1)
  ++ [StandardTransformerDecoder (layers_refs 6 (decoder_layers self) (enc + 1))
        PRE (device self) (dtype self)]
  ++ [TiedProjection b;
      TransformerModel (b + 2) enc (b + 2) dec (dec + 1) (pad_idx (config self))].

(** The norm order, the device and data type, and the dropout probability
    with which an object was built, where it has one. *)
Definition norm_order_of (o : Obj) : option TransformerNormOrder :=
  match o with
  | StandardFeedForwardNetwork _ _ n _ _ | StandardTransformerEncoderLayer _ _ _ n _ _
  | StandardTransformerDecoderLayer _ _ _ _ n _ _ | StandardTransformerEncoder _ n _ _
  | StandardTransformerDecoder _ n _ _ => Some n
  | _ => None
  end.

Definition placement_of (o : Obj) : option (option Device * option DataType) :=
  match o with
  | Embedding _ _ _ _ d t | SinusoidalPositionEncoder _ _ _ d t
  | TransformerEmbeddingFrontend _ _ _ d t | StandardMultiheadAttention _ _ _ d t
  | StandardFeedForwardNetwork _ _ _ d t | StandardTransformerEncoderLayer _ _ _ _ d t
  | StandardTransformerDecoderLayer _ _ _ _ _ d t | StandardTransformerEncoder _ _ d t
  | StandardTransformerDecoder _ _ d t => Some (d, t)
  | DefaultSDPA _ | TiedProjection _ | TransformerModel _ _ _ _ _ _ => None
  end.

Definition dropout_of (o : Obj) : option float :=
  match o with
  | TransformerEmbeddingFrontend _ _ p _ _ | DefaultSDPA p
  | StandardTransformerEncoderLayer _ _ p _ _ _
  | StandardTransformerDecoderLayer _ _ _ p _ _ _ => Some p
  | _ => None
  end.

(** The objects that an object holds. *)
Definition parts (o : Obj) : list Ref :=
  match o with
  | TransformerEmbeddingFrontend e p _ _ _ => [e; p]
  | StandardMultiheadAttention _ _ s _ _ => [s]
  | StandardTransformerEncoderLayer a f _ _ _ _ => [a; f]
  | StandardTransformerDecoderLayer a c f _ _ _ _ => [a; c; f]
  | StandardTransformerEncoder ls _ _ _ | StandardTransformerDecoder ls _ _ _ => ls
  | TiedProjection e => [e]
  | TransformerModel ef e df d p _ => [ef; e; df; d; p]
  | _ => []
  end.

(** The position of the model among the objects of its plan. *)
Definition model_ref (self : NllbBuilder) (b : nat) : Ref :=
  b + 6 + 4 * encoder_layers self + 6 * decoder_layers self.

(** The objects that the object at [r] holds, and the modules of a layer:
    the layer, what it holds, and what those hold. *)
Definition held_by (h : Store) (r : Ref) : list Ref :=
  from_option parts [] (h !! r).

Definition layer_modules (h : Store) (l : Ref) : list Ref :=
  l :: held_by h l ++ (held_by h l ≫= held_by h).

Definition is_model (o : Obj) : bool :=
  match o with TransformerModel _ _ _ _ _ _ => true | _ => false end.

(** An object built with the settings of the builder. *)
Definition settled (self : NllbBuilder) (o : Obj) : Prop :=
  (∀ n, norm_order_of o = Some n → n = PRE) ∧
  (∀ p, placement_of o = Some p → p = (device self, dtype self)) ∧
  (∀ p, dropout_of o = Some p → p = dropout_p (config self)).

(** A computation follows a plan from a store: when it returns, the store
    has grown by the plan and the result is the one given; when it raises,
    the store has grown by the objects of the plan before the one whose
    constructor raised that error. *)
Definition follows {A} (c : L Store A) (h : Store) (plan : list Obj) (res : A) : Prop :=
  match c h with
  | (inr r, h') => h' = h ++ plan ∧ r = res
  | (inl e, h') =>
      ∃ k o, plan !! k = Some o ∧ h' = h ++ take k plan ∧ refuses h' o = Some e
  end.

End Builder.

Arguments NllbConfig : clear implicits.
Arguments NllbBuilder : clear implicits.
Arguments Obj : clear implicits.
Arguments Store : clear implicits.

End Nllb.

Module NllbSample.
Import Profiler Nllb.

(** Floats and data types by their names. *)
Definition small : NllbConfig string := {|
  model_dim := 8;
  max_seq_len := 16;
  vocabulary_size := 32;
  pad_idx := 0;
  num_encoder_layers := 2;
  num_decoder_layers := 1;
  num_encoder_attn_heads := 2;
  num_decoder_attn_heads := 3;
  ffn_inner_dim := 32;
  dropout_p := "0.1";
|}.

(** Constructors that accept everything, and constructors of which the
    attention checks that the heads divide the model dimension. *)
Definition permissive (h : Store string string) (o : Obj string string)
    : option LibExn := None.

Definition checking (h : Store string string) (o : Obj string string)
    : option LibExn :=
  match o with
  | StandardMultiheadAttention model_dim num_heads _ _ _ =>
      if decide (model_dim `mod` num_heads = 0)%Z then None
      else Some (Python (ValueError "`model_dim` must be a multiple of `num_heads`."))
  | _ => None
  end.

Definition builder : NllbBuilder string string :=
  NllbBuilder__init__ small None (Some "float16").

End NllbSample.

Module LoaderSpec.
Import MTEval.

(** What an iteration of the loop of [load_mt_evaluator] has done when the
    file system refuses one of its four operations: the directory that was
    made and the files that were opened before the refusal. *)
Definition left_behind `{Collaborators} (fs : FileSystem) (output_dir : Path)
    (rank : Z) (direction : Direction) : list Path * list Path :=
  let src := output_file output_dir direction rank "src" in
  let ref := output_file output_dir direction rank "ref" in
  match make_directory_error fs (parent src) with
  | Some _ => ([], [])
  | None =>
      match open_text_error fs src WRITE with
      | Some _ => ([parent src], [])
      | None =>
          match open_text_error fs ref WRITE with
          | Some _ => ([parent src], [src])
          | None => ([parent src], [src; ref])
          end
      end
  end.

End LoaderSpec.

(* ===================================================================== *)
(** * Properties *)
(* ===================================================================== *)

(** ** Frame reasoning in the effect monad *)

Module MonadFacts.

Section Preserves.
Context {S : Type} (R : relation S) `{!PreOrder R}.

Lemma preserves_ret {A} (a : A) : preserves R (ret a).
Proof. intros s. simpl. reflexivity. Qed.

Lemma preserves_raise {A} (e : PyExn) : preserves R (@raise S A e).
Proof. intros s. simpl. reflexivity. Qed.

Lemma preserves_gets {A} (f : S → A) : preserves R (gets f).
Proof. intros s. simpl. reflexivity. Qed.

Lemma preserves_lift {A} (r : PyExn + A) : preserves R (MTEval.lift r).
Proof. destruct r; [apply preserves_raise | apply preserves_ret]. Qed.

Lemma preserves_modify (f : S → S) : (∀ s, R s (f s)) → preserves R (modify f).
Proof. intros Hf s. apply Hf. Qed.

Lemma preserves_bind {A B} (c : M S A) (k : A → M S B) :
  preserves R c → (∀ a, preserves R (k a)) → preserves R (bind c k).
Proof.
  intros Hc Hk s. unfold bind. specialize (Hc s).
  destruct (c s) as [[e|a] s']; simpl in *; [exact Hc|].
  etrans; [exact Hc | apply Hk].
Qed.

Lemma preserves_try_except {A} (c : M S A) handles (h : PyExn → M S A) :
  preserves R c → (∀ e, preserves R (h e)) → preserves R (try_except c handles h).
Proof.
  intros Hc Hh s. unfold try_except. specialize (Hc s).
  destruct (c s) as [[e|a] s']; simpl in *; [|exact Hc].
  destruct (handles e); simpl; [|exact Hc].
  etrans; [exact Hc | apply Hh].
Qed.

Lemma preserves_for_each {A} (xs : list A) (body : A → M S unit) :
  (∀ x, preserves R (body x)) → preserves R (for_each xs body).
Proof.
  intros Hb. induction xs as [|x xs IH]; simpl.
  - apply preserves_ret.
  - apply preserves_bind; [apply Hb | intros _; exact IH].
Qed.

Lemma preserves_if {A} (b : bool) (c1 c2 : M S A) :
  preserves R c1 → preserves R c2 → preserves R (if b then c1 else c2).
Proof. by destruct b. Qed.

End Preserves.

(** Inversion of a [bind] that returned. *)
Lemma bind_inr {S A B} (c : M S A) (k : A → M S B) s b s' :
  bind c k s = (inr b, s') →
  ∃ a s1, c s = (inr a, s1) ∧ k a s1 = (inr b, s').
Proof.
  unfold bind. destruct (c s) as [[e|a] s1]; [done|]. intros Hk. by exists a, s1.
Qed.

Lemma bind_returns {S A B} (c : M S A) (k : A → M S B) s a s1 :
  c s = (inr a, s1) → bind c k s = k a s1.
Proof. unfold bind. by intros ->. Qed.

Lemma bind_raises {S A B} (c : M S A) (k : A → M S B) s e s1 :
  c s = (inl e, s1) → bind c k s = (inl e, s1).
Proof. unfold bind. by intros ->. Qed.

(** Inversion of a [bind] that raised. *)
Lemma bind_inl {S A B} (c : M S A) (k : A → M S B) s e s' :
  bind c k s = (inl e, s') →
  c s = (inl e, s') ∨ ∃ a s1, c s = (inr a, s1) ∧ k a s1 = (inl e, s').
Proof.
  unfold bind. destruct (c s) as [[e0|a] s1]; intros Hk.
  - left. by simplify_eq.
  - right. by exists a, s1.
Qed.

(** [sub] occurs in any text built around it. *)
Lemma prefix_app (sub post : string) : String.prefix sub (sub +:+ post) = true.
Proof.
  induction sub as [|c sub IH]; simpl; [by destruct post|].
  destruct (Ascii.ascii_dec c c); [exact IH | done].
Qed.

Lemma contains_prefix (sub s : string) :
  String.prefix sub s = true → contains sub s = true.
Proof. destruct s; simpl; intros ->; done. Qed.

Lemma contains_app (sub pre post : string) :
  contains sub (pre +:+ sub +:+ post) = true.
Proof.
  induction pre as [|c pre IH].
  - change (contains sub (sub +:+ post) = true). apply contains_prefix, prefix_app.
  - change (contains sub (String c (pre +:+ sub +:+ post)) = true).
    simpl. rewrite IH. apply orb_true_r.
Qed.

End MonadFacts.

(** ** One-time setup *)

Module SetupProps.
Import Setup MonadFacts.

Section WithContext.
Context {RuntimeContext : Type}.
Variable new_context : RuntimeContext.
Variable register : Registrar → RuntimeContext → option PyExn * RuntimeContext.

#[local] Instance same_globals_preorder : PreOrder (@same_globals RuntimeContext).
Proof.
  split.
  - by intros p.
  - intros p q r (?&?&?&?&?&?) (?&?&?&?&?&?). repeat split; congruence.
Qed.

#[local] Instance same_objects_preorder : PreOrder (@same_objects RuntimeContext).
Proof.
  split.
  - by intros p.
  - intros p q r (?&?&?&?&?) (?&?&?&?&?). repeat split; congruence.
Qed.

Lemma same_globals_objects (p p' : Process RuntimeContext) :
  same_globals p p' → same_objects p p'.
Proof. intros (?&?&?&?&?&?). by repeat split. Qed.

Lemma on_object_globals ref f :
  preserves same_globals (@on_object RuntimeContext ref f).
Proof.
  intros p. unfold on_object. destruct (heap p !! ref) as [c|]; [|done].
  destruct (f c) as [[e|] c']; unfold same_globals; simpl;
    by rewrite length_insert.
Qed.

Lemma log_record_globals lvl msg :
  preserves same_globals (@log_record RuntimeContext lvl msg).
Proof. by intros p. Qed.

Lemma run_extensions_globals nm ref :
  preserves same_globals (@run_extensions RuntimeContext nm ref).
Proof.
  unfold run_extensions.
  apply preserves_bind; [apply _ | apply preserves_gets, _ | intros should_trace].
  apply preserves_bind; [apply _ | apply preserves_gets, _ | intros eps].
  apply preserves_for_each; [apply _ | intros ep].
  apply preserves_bind; [apply _ | | intros _].
  - apply preserves_try_except; [apply _ | apply on_object_globals | intros e].
    destruct (is_TypeError e), should_trace;
      first [apply preserves_raise, _ | apply log_record_globals].
  - destruct should_trace; [apply log_record_globals | apply preserves_ret, _].
Qed.

(** The loop over the registration functions records each of them, in
    order, and changes nothing else outside the objects. *)
Lemma registration_loop ref rs (p p' : Process RuntimeContext) r :
  for_each rs (λ r, note_registered r ;;; on_object ref (register r)) p = (r, p') →
  same_objects p p' ∧
  (r = inr tt → registered p' = registered p ++ rs).
Proof.
  revert p. induction rs as [|x rs IH]; intros p Hrun; simpl in Hrun.
  - unfold ret in Hrun. simplify_eq. split; [reflexivity|]. by rewrite app_nil_r.
  - unfold bind at 1 in Hrun. unfold bind at 1 in Hrun.
    unfold note_registered, modify in Hrun.
    pose proof (on_object_globals ref (register x)
      {| _setup_called := _setup_called p; _default_context := _default_context p;
         heap := heap p; environ := environ p; installed := installed p;
         log := log p; registered := registered p ++ [x] |}) as Hobj.
    destruct (on_object _ _ _) as [[e|[]] q]; simpl in Hobj;
      destruct Hobj as (?&?&Hreg&?&?&?); simpl in *.
    + simplify_eq. split; [by repeat split|done].
    + apply IH in Hrun as [Hfr Hrs]. split.
      * etrans; [|exact Hfr]. by repeat split.
      * intros ->. rewrite Hrs, Hreg by done. by rewrite <- app_assoc.
Qed.

Lemma setup_runtime_context_returns (p p' : Process RuntimeContext) c :
  setup_runtime_context new_context register p = (inr c, p') →
  c = length (heap p) ∧
  length (heap p') = S (length (heap p)) ∧
  registered p' = registered p ++ registrars ∧
  _setup_called p' = _setup_called p ∧
  _default_context p' = _default_context p.
Proof.
  unfold setup_runtime_context. intros Hrun.
  apply bind_inr in Hrun as (a & p1 & Halloc & Hrun).
  unfold alloc in Halloc. simplify_eq.
  apply bind_inr in Hrun as ([] & p2 & Hloop & Hrun).
  apply registration_loop in Hloop as [(?&?&Hlen&?&?) Hreg].
  apply bind_inr in Hrun as ([] & p3 & Hext & Hret).
  unfold ret in Hret. simplify_eq.
  pose proof (run_extensions_globals "fairseq2.extension" (length (heap p)) p2) as Hg.
  rewrite Hext in Hg. destruct Hg as (?&?&?&Hlen'&?&?). simpl in *.
  rewrite length_app in Hlen. simpl in Hlen.
  repeat split; try congruence.
  - lia.
  - rewrite <- (Hreg eq_refl). congruence.
Qed.

(** Once the flag is set and the context stored, a call returns the stored
    context and changes nothing. *)
Lemma setup_fairseq2_again (p : Process RuntimeContext) c :
  _setup_called p = true → _default_context p = Some c →
  setup_fairseq2 new_context register p = (inr c, p).
Proof.
  intros Hc Hd. unfold setup_fairseq2, get_runtime_context, bind, gets, ret.
  by rewrite Hc, Hd.
Qed.

(** A loop returns when each iteration does, given an invariant [I] that
    the iterations maintain. *)
Lemma for_each_returns {S A} (I : S → Prop) (xs : list A) (body : A → M S unit) s :
  (∀ x s, x ∈ xs → I s → ∃ s', body x s = (inr tt, s') ∧ I s') →
  I s → ∃ s', for_each xs body s = (inr tt, s') ∧ I s'.
Proof.
  revert s. induction xs as [|x xs IH]; intros s Hbody Hs; simpl.
  - by exists s.
  - destruct (Hbody x s) as (s1 & Hx & Hs1); [left | done |].
    unfold bind. rewrite Hx. apply IH; [|done].
    intros y t Hy. apply Hbody. by right.
Qed.

Lemma on_object_returns ref f (p : Process RuntimeContext) :
  ref < length (heap p) →
  (∀ c, (f c).1 = None) →
  ∃ p', on_object ref f p = (inr tt, p') ∧ ref < length (heap p').
Proof.
  intros Hlt Hf. unfold on_object.
  destruct (lookup_lt_is_Some_2 (heap p) ref Hlt) as [c ->].
  specialize (Hf c). destruct (f c) as [ex c']. simpl in Hf. subst ex.
  eexists. split; [done|]. simpl. by rewrite length_insert.
Qed.

Lemma registration_loop_returns ref (p : Process RuntimeContext) :
  ref < length (heap p) →
  (∀ r c, (register r c).1 = None) →
  ∃ p', for_each registrars (λ r, note_registered r ;;; on_object ref (register r)) p
        = (inr tt, p') ∧
        ref < length (heap p') ∧ same_objects p p'.
Proof.
  intros Hlt Hreg.
  destruct (for_each_returns (λ q, ref < length (heap q)) registrars
              (λ r, note_registered r ;;; on_object ref (register r)) p)
    as (p' & Hloop & Hlt'); [|done|].
  - intros r q _ Hq.
    destruct (on_object_returns ref (register r)
                (note_registered r q).2 Hq (Hreg r)) as (q' & Hq' & Hlt').
    exists q'. split; [|done]. unfold bind. simpl. exact Hq'.
  - exists p'. split; [done|]. split; [done|].
    by apply registration_loop in Hloop as [? _].
Qed.

Lemma run_extensions_returns nm ref (p : Process RuntimeContext) :
  ref < length (heap p) →
  environ p !! "FAIRSEQ2_EXTENSION_TRACE" = None →
  (∀ ep c e, ep ∈ installed p nm →
             (load_and_call ep c).1 = Some e → is_Exception e = true) →
  ∃ p', run_extensions nm ref p = (inr tt, p').
Proof.
  intros Hlt Henv Hext. unfold run_extensions.
  erewrite bind_returns; [|reflexivity].
  erewrite bind_returns; [|reflexivity].
  rewrite Henv, bool_decide_eq_false_2 by (by intros [? ?]).
  match goal with
  | |- ∃ p', for_each ?xs ?body ?s = _ =>
      destruct (for_each_returns
                  (λ q : Process RuntimeContext, ref < length (heap q)) xs body s)
        as (p' & Hrun & _); [|exact Hlt|exists p'; exact Hrun]
  end.
  intros ep q Hep Hq. unfold bind, try_except, on_object.
  destruct (lookup_lt_is_Some_2 (heap q) ref Hq) as [ctx ->].
  specialize (Hext ep ctx). destruct (load_and_call ep ctx) as [[e|] ctx']; simpl in *.
  - rewrite (Hext e Hep eq_refl).
    destruct (is_TypeError e); simpl;
      (eexists; split; [done|]; simpl; by rewrite length_insert).
  - eexists. split; [done|]. simpl. by rewrite length_insert.
Qed.

(** The first call returns when no registration function raises and the
    extensions are run without [FAIRSEQ2_EXTENSION_TRACE], provided no
    extension raises past [except Exception]. *)
Lemma setup_fairseq2_first_call_returns (p : Process RuntimeContext) :
  _setup_called p = false →
  (∀ r c, (register r c).1 = None) →
  environ p !! "FAIRSEQ2_EXTENSION_TRACE" = None →
  (∀ ep c e, ep ∈ installed p "fairseq2.extension" →
             (load_and_call ep c).1 = Some e → is_Exception e = true) →
  ∃ c p1, setup_fairseq2 new_context register p = (inr c, p1).
Proof.
  intros Hcalled Hreg Henv Hext. unfold setup_fairseq2.
  erewrite bind_returns; [|reflexivity]. rewrite Hcalled.
  destruct (registration_loop_returns (length (heap p))
              (alloc new_context (set_setup_called true p)).2)
    as (p2 & Hloop & Hlt & (_ & _ & _ & Henv2 & Hins2)); [|done|].
  { simpl. rewrite length_app. simpl. lia. }
  destruct (run_extensions_returns "fairseq2.extension" (length (heap p)) p2)
    as (p3 & Hrun); [done|by rewrite Henv2|by rewrite Hins2|].
  erewrite bind_returns; [unfold ret; eauto|].
  erewrite bind_returns; [|reflexivity].
  erewrite bind_returns; [reflexivity|].
  unfold setup_runtime_context.
  erewrite bind_returns; [|reflexivity].
  erewrite bind_returns; [|exact Hloop].
  erewrite bind_returns; [|exact Hrun].
  reflexivity.
Qed.

(** C10. [setup_fairseq2] is idempotent.  A first call that returns has
    built a new context object and run every registration function on it,
    has set the process-wide flag and stored the context; from then on,
    any number of further calls return that same context and leave the
    whole process state, the record of registration calls included, as it
    was. *)
Theorem setup_fairseq2_idempotent (p p1 : Process RuntimeContext) (c : nat) :
  _setup_called p = false →
  setup_fairseq2 new_context register p = (inr c, p1) →
  (c = length (heap p) ∧
   length (heap p1) = S (length (heap p)) ∧
   registered p1 = registered p ++ registrars ∧
   _setup_called p1 = true ∧
   _default_context p1 = Some c) ∧
  ∀ n, repeat_setup new_context register n p1 = (inr (replicate n c), p1).
Proof.
  intros Hcalled Hrun.
  assert (Hfirst : c = length (heap p) ∧ length (heap p1) = S (length (heap p)) ∧
                   registered p1 = registered p ++ registrars ∧
                   _setup_called p1 = true ∧ _default_context p1 = Some c).
  { unfold setup_fairseq2 in Hrun.
    apply bind_inr in Hrun as (called & q0 & Hget & Hrun).
    unfold gets in Hget. simplify_eq. rewrite Hcalled in Hrun.
    apply bind_inr in Hrun as (c0 & q1 & Hrun & Hret).
    unfold ret in Hret. simplify_eq.
    apply bind_inr in Hrun as ([] & q2 & Hflag & Hrun).
    unfold modify in Hflag. simplify_eq.
    apply bind_inr in Hrun as (c1 & q3 & Hctx & Hrun).
    apply bind_inr in Hrun as ([] & q4 & Hset & Hret).
    unfold ret in Hret. unfold set_runtime_context, modify in Hset. simplify_eq.
    apply setup_runtime_context_returns in Hctx as (-> & Hlen & Hreg & Hsc & Hdc).
    simpl in *. by repeat split. }
  split; [exact Hfirst|].
  destruct Hfirst as (_ & _ & _ & Hsc & Hdc).
  induction n as [|n IH]; simpl; [done|].
  by rewrite (setup_fairseq2_again p1 c Hsc Hdc), IH.
Qed.

End WithContext.

(** On the sample process, the first call builds object [0]; three more
    calls return it again and change nothing. *)
Lemma setup_fairseq2_idempotent_witness :
  let run := setup_fairseq2 [] SetupSample.register SetupSample.fresh_process in
  run.1 = inr 0 ∧
  registered run.2 = registrars ∧
  repeat_setup [] SetupSample.register 3 run.2 = (inr [0; 0; 0], run.2).
Proof.
  intros run.
  assert (Hfirst : run = (inr 0, run.2)) by (vm_compute; reflexivity).
  destruct (setup_fairseq2_idempotent [] SetupSample.register
              SetupSample.fresh_process run.2 0 eq_refl Hfirst)
    as [(_ & _ & Hreg & _) Hagain].
  split; [by rewrite Hfirst|]. split; [exact Hreg | exact (Hagain 3)].
Defined.

End SetupProps.

(** ** The evaluation units *)

Module UnitProps.
Import MTEval MonadFacts.

Lemma append_assoc (a b c : string) : (a +:+ b) +:+ c = a +:+ b +:+ c.
Proof.
  induction a as [|x a IH]; [reflexivity|].
  change (String x ((a +:+ b) +:+ c) = String x (a +:+ b +:+ c)). by rewrite IH.
Qed.

Lemma append_empty_r (a : string) : a +:+ "" = a.
Proof.
  induction a as [|x a IH]; [reflexivity|].
  change (String x (a +:+ "") = String x a). by rewrite IH.
Qed.

Lemma for_each_fmap {S A B} (f : A → B) (xs : list A) (body : B → M S unit) :
  for_each (f <$> xs) body = for_each xs (λ x, body (f x)).
Proof. induction xs as [|x xs IH]; csimpl; [done|]. by rewrite IH. Qed.

Lemma set_streams_twice f g w :
  set_streams f (set_streams g w) = set_streams (f ∘ g) w.
Proof. done. Qed.

Lemma buffered_twice a b f : buffered b (buffered a f) = buffered (a +:+ b) f.
Proof. unfold buffered. simpl. by rewrite append_assoc. Qed.

Lemma buffered_empty f : buffered "" f = f.
Proof. destruct f. unfold buffered. simpl. by rewrite append_empty_r. Qed.

(** Writing the lines of a batch to a stream adds their text to the
    stream's buffer and touches nothing else. *)
Lemma write_lines {U} (stream : nat) (ls : list string) (u : U) (w : World) :
  for_each ls (λ l, in_world (write stream l) ;;; in_world (write stream nl)) (u, w)
  = (inr tt, (u, set_streams (alter (buffered (lines_text ls)) stream) w)).
Proof.
  revert w. induction ls as [|l ls IH]; intros w; simpl.
  - unfold ret. do 2 f_equal. destruct w. unfold set_streams. simpl. f_equal.
    symmetry. apply list_alter_id, buffered_empty.
  - unfold bind at 1. unfold bind at 1. simpl. rewrite IH.
    do 2 f_equal. unfold set_streams. simpl. f_equal.
    rewrite !list_alter_alter_eq. apply list_alter_ext; [|done].
    intros f _. simpl. change (buffered (lines_text ls) (buffered nl (buffered l f))
                               = buffered (l +:+ nl +:+ lines_text ls) f).
    by rewrite !buffered_twice.
Qed.

(** The same for a loop over Python objects that are all strings. *)
Lemma write_objects {U} (stream : nat) (ls : list string) (u : U) (w : World) :
  for_each (PyStr <$> ls)
    (λ x, in_world (write_obj stream x) ;;; in_world (write stream nl)) (u, w)
  = (inr tt, (u, set_streams (alter (buffered (lines_text ls)) stream) w)).
Proof. rewrite for_each_fmap. apply write_lines. Qed.

Lemma flush_buffered text stream (w : World) :
  flush stream (set_streams (alter (buffered text) stream) w)
  = (inr tt, set_streams (alter (dumped text) stream) w).
Proof.
  unfold flush, modify. f_equal. unfold set_streams. simpl. f_equal.
  rewrite list_alter_alter_eq. apply list_alter_ext; [|done].
  intros f _. done.
Qed.

Lemma prefix_app_l (sub a b : string) :
  String.prefix sub a = true → String.prefix sub (a +:+ b) = true.
Proof.
  revert a. induction sub as [|c sub IH]; intros a; [by destruct a, b|].
  destruct a as [|c' a]; [done|].
  change (String c' a +:+ b) with (String c' (a +:+ b)). simpl.
  destruct (Ascii.ascii_dec c c'); [apply IH | done].
Qed.

Lemma contains_app_l (sub a b : string) :
  contains sub a = true → contains sub (a +:+ b) = true.
Proof.
  induction a as [|c a IH].
  - destruct sub; [|done]. intros _. by destruct b.
  - change (String c a +:+ b) with (String c (a +:+ b)).
    simpl. intros [Hp|Hc]%orb_true_iff.
    + apply (prefix_app_l _ (String c a) b) in Hp.
      change (String c a +:+ b) with (String c (a +:+ b)) in Hp.
      simpl in Hp. by rewrite Hp.
    + rewrite (IH Hc). apply orb_true_r.
Qed.

Section Units.
Context `{Collaborators}.

(** What the checks at the head of [__call__] answer, case by case; they
    never touch the state. *)
Lemma validate_cases {S} (batch : Seq2SeqBatch) (s : S) :
  validate batch s =
  match example batch with
  | PyNone => (inl (ValueError "`batch.example` must not be `None`."), s)
  | PyDict items =>
      match getitem items "source_text" with
      | None =>
          (inl (ValueError "`batch.example` must contain a 'source_text' item."), s)
      | Some srcs =>
          if is_Iterable srcs then
            match getitem items "target_text" with
            | None =>
                (inl (ValueError "`batch.example` must contain a 'target_text' item."), s)
            | Some refs =>
                if is_Iterable refs then (inr (srcs, refs), s)
                else
                  (inl (TypeError
                     ("`batch.example['target_text'] must be an iterable of strings, but is of type `"
                      +:+ type_repr refs +:+ "` instead.")), s)
            end
          else
            (inl (TypeError
               ("`batch.example['source_text'] must be an iterable of strings, but is of type `"
                +:+ type_repr srcs +:+ "` instead.")), s)
      end
  | v =>
      (inl (TypeError
         ("`batch.example` must be of type `typing.Mapping`, but is of type `"
          +:+ type_repr v +:+ "` instead.")), s)
  end.
Proof.
  unfold validate, bind, try_except, subscript, raise, ret.
  destruct (example batch) as [| | | | |items|]; try done. simpl.
  destruct (getitem items "source_text") as [srcs|]; [|done]. simpl.
  destruct (is_Iterable srcs); [|done].
  destruct (getitem items "target_text") as [refs|]; [|done]. simpl.
  by destruct (is_Iterable refs).
Qed.

Lemma call_after_validate (batch : Seq2SeqBatch) s :
  MTBleuChrfEvalUnit__call__ batch s =
  match validate batch s with
  | (inr (srcs, refs), s') => generate_score_dump batch srcs refs s'
  | (inl e, s') => (inl e, s')
  end.
Proof.
  unfold MTBleuChrfEvalUnit__call__, bind.
  by destruct (validate batch s) as [[e|[srcs refs]] s'].
Qed.

(** A batch that is not well shaped is rejected before anything happens. *)
Lemma call_malformed (batch : Seq2SeqBatch) u w :
  well_shaped batch = false →
  ∃ e msg, MTBleuChrfEvalUnit__call__ batch (u, w) = (inl e, (u, w)) ∧
           (e = ValueError msg ∨ e = TypeError msg).
Proof.
  unfold well_shaped. intros Hbad.
  rewrite call_after_validate, validate_cases.
  destruct (example batch) as [| | | | |items|]; try by eauto.
  destruct (getitem items "source_text") as [srcs|]; [|by eauto].
  destruct (getitem items "target_text") as [refs|];
    destruct (is_Iterable srcs); simpl in Hbad; try by eauto.
  rewrite Hbad. by eauto.
Qed.

(** One dump block of [__call__]: the lines are written and the stream is
    flushed. *)
Lemma dump_block {U} (stream : nat) (ls : list string) (u : U) (w : World) :
  (for_each (PyStr <$> ls)
     (λ x, in_world (write_obj stream x) ;;; in_world (write stream nl)) ;;;
   in_world (flush stream)) (u, w)
  = (inr tt, (u, set_streams (alter (dumped (lines_text ls)) stream) w)).
Proof.
  erewrite bind_returns; [|apply write_objects].
  unfold in_world. cbn [fst snd]. by rewrite flush_buffered.
Qed.

Lemma dump_block_str {U} (stream : nat) (ls : list string) (u : U) (w : World) :
  (for_each ls
     (λ l, in_world (write stream l) ;;; in_world (write stream nl)) ;;;
   in_world (flush stream)) (u, w)
  = (inr tt, (u, set_streams (alter (dumped (lines_text ls)) stream) w)).
Proof.
  erewrite bind_returns; [|apply write_lines].
  unfold in_world. cbn [fst snd]. by rewrite flush_buffered.
Qed.

(** The part of [__call__] after the checks, on the writer rank, when the
    generator returns and the items are strings. *)
Lemma generate_score_dump_returns
    (u : MTBleuChrfEvalUnit) (w : World) (batch : Seq2SeqBatch)
    (srcs refs : PyVal) (src_lines ref_lines hyps : list string) (output : Tensor)
    (hs hr hh : nat) :
  iterate srcs = PyStr <$> src_lines →
  iterate refs = PyStr <$> ref_lines →
  batch_convert (_converter u) (source_seqs batch) (source_padding_mask batch)
    = inr (hyps, output) →
  is_Some (metrics (score_metric_bag u) !! "bleu") →
  is_Some (metrics (score_metric_bag u) !! "chrf") →
  _src_output_stream u = Some hs →
  _ref_output_stream u = Some hr →
  _hyp_output_stream u = Some hh →
  ∃ bag,
    generate_score_dump batch srcs refs (u, w)
    = (inr tt,
       (set_score_bag bag u,
        {| directories := directories w;
           streams :=
             alter (dumped (lines_text hyps)) hh
               (alter (dumped (lines_text ref_lines)) hr
                  (alter (dumped (lines_text src_lines)) hs (streams w)));
           generator_calls :=
             generator_calls w ++ [(source_seqs batch, source_padding_mask batch)] |})).
Proof.
  intros Hsrcs Hrefs Hconv [mb Hb] [mc Hc] Hs Hr Hh.
  unfold generate_score_dump.
  erewrite bind_returns; [|reflexivity]. simpl.
  erewrite bind_returns;
    [|unfold in_world, call_batch_convert, bind, modify, lift; simpl;
      rewrite Hconv; reflexivity].
  cbv beta iota.
  erewrite bind_returns;
    [|unfold on_score_bag, update_metric; simpl; rewrite Hb; reflexivity].
  erewrite bind_returns;
    [|unfold on_score_bag, update_metric; simpl;
      rewrite lookup_insert_ne, Hc by done; reflexivity].
  erewrite bind_returns; [|reflexivity].
  erewrite bind_returns; [|reflexivity]. simpl. rewrite Hs, Hsrcs.
  erewrite bind_returns; [|apply dump_block].
  erewrite bind_returns; [|reflexivity]. simpl. rewrite Hr, Hrefs.
  erewrite bind_returns; [|apply dump_block].
  erewrite bind_returns; [|reflexivity]. simpl. rewrite Hh.
  rewrite dump_block_str. eexists. reflexivity.
Qed.

(** C1 (as amended). The checks run in a fixed order and the first one that
    fails decides the error.  For a batch whose side-channel is a mapping:
    a missing ['source_text'] raises a [ValueError] naming it; a
    ['source_text'] that is not iterable raises a [TypeError] naming the
    item, the expected shape and the actual type; once ['source_text'] is
    present and iterable, a missing ['target_text'] raises a [ValueError]
    naming it, and a ['target_text'] that is not iterable raises a
    [TypeError] naming the item, the expected shape and the actual type. *)
Theorem score_unit_contract_violations
    (u : MTBleuChrfEvalUnit) (w : World) (batch : Seq2SeqBatch)
    (items : list (string * PyVal)) :
  example batch = PyDict items →
  let outcome := (MTBleuChrfEvalUnit__call__ batch (u, w)).1 in
  (getitem items "source_text" = None →
     ∃ msg, outcome = inl (ValueError msg) ∧ contains "'source_text'" msg = true) ∧
  (∀ srcs, getitem items "source_text" = Some srcs → is_Iterable srcs = false →
     ∃ msg, outcome = inl (TypeError msg) ∧
            contains "'source_text'" msg = true ∧
            contains "an iterable of strings" msg = true ∧
            contains (type_repr srcs) msg = true) ∧
  (∀ srcs, getitem items "source_text" = Some srcs → is_Iterable srcs = true →
     getitem items "target_text" = None →
     ∃ msg, outcome = inl (ValueError msg) ∧ contains "'target_text'" msg = true) ∧
  (∀ srcs refs, getitem items "source_text" = Some srcs → is_Iterable srcs = true →
     getitem items "target_text" = Some refs → is_Iterable refs = false →
     ∃ msg, outcome = inl (TypeError msg) ∧
            contains "'target_text'" msg = true ∧
            contains "an iterable of strings" msg = true ∧
            contains (type_repr refs) msg = true).
Proof.
  intros Hex outcome. subst outcome.
  rewrite call_after_validate, validate_cases, Hex.
  split; [|split; [|split]].
  - intros ->. eexists. split; [done|]. by vm_compute.
  - intros srcs -> ->. eexists. split; [done|].
    split; [by apply contains_app_l|]. split; [by apply contains_app_l|].
    apply contains_app.
  - intros srcs -> -> ->. eexists. split; [done|]. by vm_compute.
  - intros srcs refs -> -> -> ->. eexists. split; [done|].
    split; [by apply contains_app_l|]. split; [by apply contains_app_l|].
    apply contains_app.
Qed.

(** C8. [__call__] is error-atomic.  A batch whose side-channel fails any of
    the checks (absent, not a mapping, a key missing, a value not iterable)
    makes the call raise a [ValueError] or a [TypeError] and leaves the unit
    (its metric bag included) and the world (the output streams and the
    record of generator calls included) exactly as they were.  Conversely,
    a call after which the unit or the world differs had passed every
    check. *)
Theorem score_unit_call_error_atomic
    (u : MTBleuChrfEvalUnit) (w : World) (batch : Seq2SeqBatch) :
  (well_shaped batch = false →
     ∃ e msg, MTBleuChrfEvalUnit__call__ batch (u, w) = (inl e, (u, w)) ∧
              (e = ValueError msg ∨ e = TypeError msg)) ∧
  (∀ r u' w', MTBleuChrfEvalUnit__call__ batch (u, w) = (r, (u', w')) →
     (score_metric_bag u' ≠ score_metric_bag u ∨
      streams w' ≠ streams w ∨
      generator_calls w' ≠ generator_calls w) →
     well_shaped batch = true).
Proof.
  split; [apply call_malformed|].
  intros r u' w' Hrun Hchanged.
  destruct (well_shaped batch) eqn:Hshape; [done|].
  destruct (call_malformed batch u w Hshape) as (e & msg & Hbad & _).
  rewrite Hbad in Hrun. simplify_eq. by destruct Hchanged as [?|[?|?]].
Qed.

(** The constructor of the scoring unit never raises: the two names it
    registers are distinct and the bag is new. *)
Lemma score_unit_init_returns (direction : Direction) (generator : Seq2SeqGenerator)
    (tokenizer : TextTokenizer) (gangs : Gangs) (src ref hyp : option nat) :
  MTBleuChrfEvalUnit__init__ direction generator tokenizer gangs src ref hyp =
  inr {| score_model := generator_model generator;
         score_display_name := "score/" +:+ format direction;
         _converter :=
           {| converter_generator := generator; converter_tokenizer := tokenizer;
              converter_task := "translation";
              converter_target_lang := target_lang direction |};
         _src_output_stream := src;
         _ref_output_stream := ref;
         _hyp_output_stream := hyp;
         score_metric_bag :=
           {| bag_gang := dp gangs;
              metrics :=
                <["chrf" := {| accumulator := new_metric ChrfMetric (device (root gangs));
                               persistent := false |}]>
                  (<["bleu" := {| accumulator := new_metric BleuMetric (device (root gangs));
                                  persistent := false |}]> ∅);
              batch_stats := [] |} |}.
Proof.
  unfold MTBleuChrfEvalUnit__init__, register_metric, new_bag. simpl.
  rewrite lookup_empty. simpl. by rewrite lookup_insert_ne, lookup_empty.
Qed.

(** C3. On the writer rank (all three streams present, distinct and open),
    for a batch whose ['source_text'] and ['target_text'] are iterables of
    strings and on which the generator returns, [__call__] returns, and
    when it does each stream has received one line per item (the text
    followed by one newline) and has been flushed: everything written is
    in the file and the buffer is empty.  No other stream is touched. *)
Theorem score_unit_dumps_and_flushes
    (u : MTBleuChrfEvalUnit) (w : World) (batch : Seq2SeqBatch)
    (items : list (string * PyVal)) (srcs refs : PyVal)
    (src_lines ref_lines hyps : list string) (output : Tensor)
    (hs hr hh : nat) (fs fr fh : TextIO) :
  example batch = PyDict items →
  getitem items "source_text" = Some srcs → is_Iterable srcs = true →
  iterate srcs = PyStr <$> src_lines →
  getitem items "target_text" = Some refs → is_Iterable refs = true →
  iterate refs = PyStr <$> ref_lines →
  batch_convert (_converter u) (source_seqs batch) (source_padding_mask batch)
    = inr (hyps, output) →
  is_Some (metrics (score_metric_bag u) !! "bleu") →
  is_Some (metrics (score_metric_bag u) !! "chrf") →
  _src_output_stream u = Some hs →
  _ref_output_stream u = Some hr →
  _hyp_output_stream u = Some hh →
  hs ≠ hr → hs ≠ hh → hr ≠ hh →
  streams w !! hs = Some fs → streams w !! hr = Some fr → streams w !! hh = Some fh →
  ∃ u' w',
    MTBleuChrfEvalUnit__call__ batch (u, w) = (inr tt, (u', w')) ∧
    streams w' !! hs = Some (dumped (lines_text src_lines) fs) ∧
    streams w' !! hr = Some (dumped (lines_text ref_lines) fr) ∧
    streams w' !! hh = Some (dumped (lines_text hyps) fh) ∧
    length (lines_text <$> [src_lines; ref_lines; hyps]) = 3 ∧
    ∀ h, h ≠ hs → h ≠ hr → h ≠ hh → streams w' !! h = streams w !! h.
Proof.
  intros Hex Hsrc Hsi Hsl Href Hri Hrl Hconv Hb Hc Hs Hr Hh Hsr Hsh Hrh Hfs Hfr Hfh.
  destruct (generate_score_dump_returns u w batch srcs refs src_lines ref_lines
              hyps output hs hr hh Hsl Hrl Hconv Hb Hc Hs Hr Hh) as [bag Hrun].
  do 2 eexists.
  rewrite call_after_validate, validate_cases, Hex, Hsrc, Hsi, Href, Hri.
  split; [exact Hrun|]. simpl.
  split; [|split; [|split; [|split; [done|]]]].
  - rewrite !list_lookup_alter_ne by done. by rewrite list_lookup_alter_eq, Hfs.
  - rewrite list_lookup_alter_ne by done. rewrite list_lookup_alter_eq.
    rewrite list_lookup_alter_ne by done. by rewrite Hfr.
  - rewrite list_lookup_alter_eq. rewrite !list_lookup_alter_ne by done. by rewrite Hfh.
  - intros h ? ? ?. by rewrite !list_lookup_alter_ne.
Qed.

(** C2 (as amended). The constructor registers ['bleu'] and ['chrf'] with
    [persistent=False]: both start empty and are not persistent, so the
    Evaluator's clearing of the metrics that are not persistent empties
    them again. *)
Theorem scoring_metrics_not_persistent (direction : Direction)
    (generator : Seq2SeqGenerator) (tokenizer : TextTokenizer) (gangs : Gangs)
    (src ref hyp : option nat) (nm : string) :
  nm = "bleu" ∨ nm = "chrf" →
  ∃ u m,
    MTBleuChrfEvalUnit__init__ direction generator tokenizer gangs src ref hyp = inr u ∧
    metrics (score_metric_bag u) !! nm = Some m ∧
    persistent m = false ∧
    updates (accumulator m) = [] ∧
    ∀ bag m0, metrics bag !! nm = Some m0 → persistent m0 = persistent m →
      ∃ m1, metrics (reset_non_persistent_metrics bag) !! nm = Some m1 ∧
            persistent m1 = false ∧
            updates (accumulator m1) = [].
Proof.
  intros Hnm.
  assert (Hreset : ∀ bag m0, metrics bag !! nm = Some m0 → persistent m0 = false →
            ∃ m1, metrics (reset_non_persistent_metrics bag) !! nm = Some m1 ∧
                  persistent m1 = false ∧ updates (accumulator m1) = []).
  { intros bag m0 Hm0 Hp. unfold reset_non_persistent_metrics. simpl.
    rewrite lookup_fmap, Hm0. simpl. rewrite Hp. by eexists. }
  destruct Hnm as [-> | ->];
    (eexists; eexists; split; [apply score_unit_init_returns|]); simpl.
  - split; [rewrite lookup_insert_ne by done; apply lookup_insert_eq|].
    simpl. repeat split. exact Hreset.
  - split; [apply lookup_insert_eq|].
    simpl. repeat split. exact Hreset.
Qed.

(** What the two constructors make of [display_name]. *)
Lemma constructors_display_names (criterion : MTCriterion) (direction : Direction)
    (generator : Seq2SeqGenerator) (tokenizer : TextTokenizer) (gangs : Gangs)
    (src ref hyp : option nat) :
  loss_display_name (MTLossEvalUnit__init__ criterion direction gangs)
    = "loss/" +:+ format direction ∧
  ∃ u,
    MTBleuChrfEvalUnit__init__ direction generator tokenizer gangs src ref hyp = inr u ∧
    score_display_name u = "score/" +:+ format direction.
Proof.
  split; [done|]. eexists. split; [apply score_unit_init_returns|done].
Qed.

(** C6. The loss unit has no stream among its fields, and a call changes
    nothing but its own metric bag: the world (directories, streams,
    generator calls) is as before, the unit is the old unit with a new
    bag, and the bag differs from the old one by the counters fed with
    this batch's loss, or not at all when the forward pass raised. *)
Theorem loss_unit_call_frame (u : MTLossEvalUnit) (w : World) (batch : Seq2SeqBatch) :
  let '(r, (u', w')) := MTLossEvalUnit__call__ batch (u, w) in
  w' = w ∧
  u' = set_loss_bag (loss_metric_bag u') u ∧
  bag_gang (loss_metric_bag u') = bag_gang (loss_metric_bag u) ∧
  metrics (loss_metric_bag u') = metrics (loss_metric_bag u) ∧
  match r with
  | inl _ => u' = u
  | inr _ =>
      ∃ loss,
        forward (criterion_model (_criterion u)) (criterion_label_smoothing (_criterion u))
          batch = inr loss ∧
        batch_stats (loss_metric_bag u')
          = batch_stats (loss_metric_bag u) ++ [LossStat loss batch]
  end.
Proof.
  unfold MTLossEvalUnit__call__, criterion_call. simpl.
  destruct (forward _ _ batch) as [e|loss]; simpl.
  - destruct u. by repeat split.
  - repeat split. by exists loss.
Qed.

End Units.

(** On a batch that lacks ['target_text'] next to a ['source_text'] that is
    not iterable, the error is a [TypeError] about ['source_text']: not a
    [ValueError], and ['target_text'] is not named. *)
Lemma score_unit_missing_key_counterexample :
  let items := [("source_text", PyInt 5)] in
  let outcome :=
    (@MTBleuChrfEvalUnit__call__ Sample.writer (Sample.batch (PyDict items))
       (Sample.score_unit, Sample.world)).1 in
  getitem items "target_text" = None ∧
  outcome = inl (TypeError
    "`batch.example['source_text'] must be an iterable of strings, but is of type `<class 'int'>` instead.") ∧
  ¬ ∃ msg, outcome = inl (ValueError msg) ∧ contains "target_text" msg = true.
Proof.
  split; [done|]. split; [by vm_compute|].
  intros (msg & Hout & _). vm_compute in Hout. discriminate Hout.
Qed.

(** The scenario of the design document: ['target_text'] is missing next to
    a well-formed ['source_text']. *)
Lemma score_unit_contract_violations_witness :
  ∃ msg,
    (@MTBleuChrfEvalUnit__call__ Sample.writer
       (Sample.batch (PyDict [("source_text", PyList [PyStr "hello"])]))
       (Sample.score_unit, Sample.world)).1 = inl (ValueError msg) ∧
    contains "'target_text'" msg = true.
Proof.
  exact (proj1 (proj2 (proj2
    (@score_unit_contract_violations Sample.writer Sample.score_unit Sample.world
       (Sample.batch (PyDict [("source_text", PyList [PyStr "hello"])]))
       [("source_text", PyList [PyStr "hello"])] eq_refl)))
    (PyList [PyStr "hello"]) eq_refl eq_refl eq_refl).
Defined.

(** A batch without side-channel is rejected and nothing has changed. *)
Lemma score_unit_call_error_atomic_witness :
  ∃ e msg,
    @MTBleuChrfEvalUnit__call__ Sample.writer (Sample.batch PyNone)
      (Sample.score_unit, Sample.world)
    = (inl e, (Sample.score_unit, Sample.world)) ∧
    (e = ValueError msg ∨ e = TypeError msg).
Proof.
  exact (proj1 (@score_unit_call_error_atomic Sample.writer Sample.score_unit
                  Sample.world (Sample.batch PyNone)) eq_refl).
Defined.

(** The sample batch of two sentences on the sample writer: two lines reach
    each of the three files. *)
Lemma score_unit_dumps_and_flushes_witness :
  ∃ u' w',
    @MTBleuChrfEvalUnit__call__ Sample.writer (Sample.batch Sample.well_formed_example)
      (Sample.score_unit, Sample.world) = (inr tt, (u', w')) ∧
    streams w' !! 0 =
      Some (dumped (lines_text ["hello"; "the world"])
              (Sample.stream_of "translations/eng-fra/rank_1.src.txt")) ∧
    streams w' !! 1 =
      Some (dumped (lines_text ["salut"; "le monde"])
              (Sample.stream_of "translations/eng-fra/rank_1.ref.txt")) ∧
    streams w' !! 2 =
      Some (dumped (lines_text ["bonjour"; "le monde"])
              (Sample.stream_of "translations/eng-fra/rank_1.hyp.txt")).
Proof.
  destruct (@score_unit_dumps_and_flushes Sample.writer Sample.score_unit Sample.world
              (Sample.batch Sample.well_formed_example)
              [("source_text", PyList [PyStr "hello"; PyStr "the world"]);
               ("target_text", PyList [PyStr "salut"; PyStr "le monde"])]
              (PyList [PyStr "hello"; PyStr "the world"])
              (PyList [PyStr "salut"; PyStr "le monde"])
              ["hello"; "the world"] ["salut"; "le monde"] ["bonjour"; "le monde"]
              [2%Z] 0 1 2
              (Sample.stream_of "translations/eng-fra/rank_1.src.txt")
              (Sample.stream_of "translations/eng-fra/rank_1.ref.txt")
              (Sample.stream_of "translations/eng-fra/rank_1.hyp.txt"))
    as (u' & w' & Hrun & Hs & Hr & Hh & _).
  1-8: reflexivity.
  1-2: (eexists; vm_compute; reflexivity).
  1-3: reflexivity.
  1-3: lia.
  1-3: reflexivity.
  exists u', w'. split; [exact Hrun|]. split; [exact Hs|]. split; [exact Hr|exact Hh].
Defined.

(** After construction on the sample writer both scoring metrics are flagged
    as not persistent; after one batch, the clearing step empties the
    ['bleu'] accumulator, so the scores do not survive it. *)
Lemma scoring_metrics_persistent_counterexample :
  let built :=
    @MTBleuChrfEvalUnit__init__ Sample.writer Sample.eng_fra
      {| generator_model := {| model_name := "nllb-200_dense_distill_600m" |} |}
      {| tokenizer_name := "nllb-200_dense_distill_600m" |}
      (Sample.gangs_at 1 0) (Some 0) (Some 1) (Some 2) in
  let scored :=
    (@MTBleuChrfEvalUnit__call__ Sample.writer (Sample.batch Sample.well_formed_example)
       (Sample.score_unit, Sample.world)).2.1 in
  built = inr Sample.score_unit ∧
  persistent <$> metrics (score_metric_bag Sample.score_unit) !! "bleu" = Some false ∧
  persistent <$> metrics (score_metric_bag Sample.score_unit) !! "chrf" = Some false ∧
  (updates ∘ accumulator) <$> metrics (score_metric_bag scored) !! "bleu"
    = Some [TextUpdate (PyList [PyStr "salut"; PyStr "le monde"]) ["bonjour"; "le monde"]] ∧
  (updates ∘ accumulator) <$>
    metrics (reset_non_persistent_metrics (score_metric_bag scored)) !! "bleu" = Some [].
Proof. vm_compute. by repeat split. Qed.

Lemma scoring_metrics_not_persistent_witness :
  ∃ u m,
    @MTBleuChrfEvalUnit__init__ Sample.writer Sample.eng_fra
      {| generator_model := {| model_name := "nllb-200_dense_distill_600m" |} |}
      {| tokenizer_name := "nllb-200_dense_distill_600m" |}
      (Sample.gangs_at 1 0) (Some 0) (Some 1) (Some 2) = inr u ∧
    metrics (score_metric_bag u) !! "bleu" = Some m ∧
    persistent m = false.
Proof.
  destruct (@scoring_metrics_not_persistent Sample.writer Sample.eng_fra
              {| generator_model := {| model_name := "nllb-200_dense_distill_600m" |} |}
              {| tokenizer_name := "nllb-200_dense_distill_600m" |}
              (Sample.gangs_at 1 0) (Some 0) (Some 1) (Some 2) "bleu")
    as (u & m & Hinit & Hm & Hp & _); [left; reflexivity|].
  exists u, m. by repeat split.
Defined.

End UnitProps.

(** ** Building the evaluator *)

Module LoaderProps.
Import MTEval MonadFacts UnitProps.

Section Loader.
Context `{Collaborators}.

Variables (context : RuntimeContext) (config : Config.MTEvalConfig)
          (output_dir : Path) (gangs : Gangs) (tokenizer : TextTokenizer)
          (generator : Seq2SeqGenerator) (criterion : MTCriterion).

#[local] Abbreviation body := (loop_body context config output_dir gangs tokenizer generator criterion).
#[local] Abbreviation loop := (directions_loop context config output_dir gangs tokenizer generator criterion).
#[local] Abbreviation step := (step_vars config gangs tokenizer generator criterion).
#[local] Abbreviation result := (loop_vars config gangs tokenizer generator criterion).
#[local] Abbreviation failure := (first_failure (file_system context) output_dir (rank (dp gangs))).

Lemma score_unit_built (d : Direction) (src ref hyp : option nat) :
  MTBleuChrfEvalUnit__init__ d generator tokenizer gangs src ref hyp
  = inr (built_score_unit d generator tokenizer gangs src ref hyp).
Proof. apply score_unit_init_returns. Qed.

(** An iteration on a process that does not write. *)
Lemma body_non_writer d vars w :
  rank (tp gangs) ≠ 0%Z →
  body d vars w = (inr (step d None vars), w).
Proof.
  intros Htp. unfold loop_body. destruct (decide _) as [|_]; [done|].
  unfold bind, ret, lift. simpl. by rewrite score_unit_built.
Qed.

(** An iteration on a writer for which the file system refuses nothing. *)
Lemma body_writer d vars w :
  rank (tp gangs) = 0%Z →
  failure d = None →
  body d vars w
  = (inr (step d (Some (length (streams w))) vars),
     grown w [parent (output_file output_dir d (rank (dp gangs)) "src")]
       (direction_files output_dir (rank (dp gangs)) d)).
Proof.
  intros Htp Hok. unfold first_failure in Hok.
  unfold loop_body. destruct (decide _) as [_|]; [|done].
  unfold output_file in *. simpl in *.
  unfold bind, try_except, make_directory, open_text, modify, ret, lift.
  destruct (make_directory_error _ _); [done|].
  destruct (open_text_error _ _ _); [done|].
  destruct (open_text_error _ _ _); [done|].
  destruct (open_text_error _ _ _); [done|].
  simpl. rewrite score_unit_built. unfold ret, grown, step_vars, set_streams. simpl.
  rewrite !length_app. simpl. rewrite <- !app_assoc, <- !Nat.add_assoc. reflexivity.
Qed.

(** An iteration on a writer for which the file system refuses something. *)
Lemma body_writer_fails d vars w e :
  rank (tp gangs) = 0%Z →
  failure d = Some e →
  (body d vars w).1 = inl e.
Proof.
  intros Htp Hbad. unfold first_failure in Hbad.
  unfold loop_body. destruct (decide _) as [_|]; [|done].
  unfold output_file in *. simpl in *.
  unfold bind, try_except, make_directory, open_text, modify, ret, raise, lift.
  destruct (make_directory_error _ _); [by simplify_eq|].
  destruct (open_text_error _ _ _); [by simplify_eq|].
  destruct (open_text_error _ _ _); [by simplify_eq|].
  destruct (open_text_error _ _ _); [by simplify_eq|done].
Qed.

Lemma grown_grown w dirs files dirs' files' :
  grown (grown w dirs files) dirs' files' = grown w (dirs ++ dirs') (files ++ files').
Proof. unfold grown. simpl. by rewrite fmap_app, !app_assoc. Qed.

Lemma grown_nil w : grown w [] [] = w.
Proof. destruct w. unfold grown. simpl. by rewrite !app_nil_r. Qed.

(** The loop on a process that does not write: it returns, and the world is
    untouched. *)
Lemma loop_non_writer ds vars w :
  rank (tp gangs) ≠ 0%Z →
  loop ds vars w = (inr (result ds None vars), w).
Proof.
  intros Htp. revert vars. induction ds as [|d ds IH]; intros vars; simpl; [done|].
  unfold bind. rewrite body_non_writer by done. apply IH.
Qed.

(** The loop on a writer for which the file system refuses nothing. *)
Lemma loop_writer ds vars w :
  rank (tp gangs) = 0%Z →
  Forall (λ d, failure d = None) ds →
  loop ds vars w
  = (inr (result ds (Some (length (streams w))) vars),
     grown w ((λ d, parent (output_file output_dir d (rank (dp gangs)) "src")) <$> ds)
       (flat_map (direction_files output_dir (rank (dp gangs))) ds)).
Proof.
  intros Htp Hok. revert vars w.
  induction Hok as [|d ds Hd Hds IH]; intros vars w; simpl.
  - by rewrite grown_nil.
  - unfold bind. rewrite body_writer by done. rewrite IH, grown_grown.
    simpl. rewrite length_app. reflexivity.
Qed.

(** The loop on a writer for which the file system refuses something: the
    error of the first refusal comes out. *)
Lemma loop_writer_fails ds vars w :
  rank (tp gangs) = 0%Z →
  Exists (λ d, failure d ≠ None) ds →
  ∃ d e, d ∈ ds ∧ failure d = Some e ∧ (loop ds vars w).1 = inl e.
Proof.
  intros Htp Hbad. revert vars w.
  induction ds as [|d ds IH]; intros vars w; [by apply Exists_nil in Hbad|].
  simpl. unfold bind.
  destruct (failure d) as [e|] eqn:Hd.
  - exists d, e. split; [left|]. split; [done|].
    pose proof (body_writer_fails d vars w e Htp Hd) as Hrun.
    destruct (body d vars w) as [[e'|v] w1]; simpl in *; by simplify_eq.
  - rewrite body_writer by done.
    apply Exists_cons in Hbad as [Hbad|Hbad]; [done|].
    destruct (IH Hbad (step d (Some (length (streams w))) vars)
                (grown w [parent (output_file output_dir d (rank (dp gangs)) "src")]
                   (direction_files output_dir (rank (dp gangs)) d)))
      as (d' & e & Hin & He & Hrun).
    exists d', e. split; [by right|done].
Qed.

(** A loop that returned: its variables and the world it left. *)
Lemma loop_returned ds vars w vars' w' :
  loop ds vars w = (inr vars', w') →
  if decide (rank (tp gangs) = 0%Z) then
    Forall (λ d, failure d = None) ds ∧
    vars' = result ds (Some (length (streams w))) vars ∧
    w' = grown w ((λ d, parent (output_file output_dir d (rank (dp gangs)) "src")) <$> ds)
           (flat_map (direction_files output_dir (rank (dp gangs))) ds)
  else vars' = result ds None vars ∧ w' = w.
Proof.
  intros Hrun. destruct (decide _) as [Htp|Htp].
  - destruct (decide (Forall (λ d, failure d = None) ds)) as [Hok|Hbad].
    + rewrite loop_writer in Hrun by done. by simplify_eq.
    + apply not_Forall_Exists in Hbad; [|apply _].
      destruct (loop_writer_fails ds vars w Htp Hbad) as (d & e & _ & _ & He).
      rewrite Hrun in He. done.
  - rewrite loop_non_writer in Hrun by done. by simplify_eq.
Qed.

(** *** What a loop without failure computes *)

Lemma result_units ds first vars :
  loop_units (result ds first vars)
  = loop_units vars ++ built_units gangs tokenizer generator criterion ds first.
Proof.
  revert first vars. induction ds as [|d ds IH]; intros first vars; simpl.
  - by rewrite app_nil_r.
  - rewrite IH. simpl. by rewrite <- !app_assoc.
Qed.

Lemma result_readers ds first vars :
  ∃ R,
    loop_data_readers (result ds first vars) = loop_data_readers vars ++ R ∧
    length R = 2 * length ds ∧
    (∀ (i : nat) r, R !! i = Some r →
       seed (read_options r) = (loop_seed vars + Z.of_nat i)%Z) ∧
    loop_seed (result ds first vars) = (loop_seed vars + 2 * Z.of_nat (length ds))%Z.
Proof.
  revert first vars. induction ds as [|d ds IH]; intros first vars; simpl.
  - exists []. rewrite app_nil_r. repeat split; [|lia]. by intros i r.
  - destruct (IH ((λ n, n + 3) <$> first) (step d first vars))
      as (R & HR & Hlen & Hseeds & Hseed).
    eexists (_ :: _ :: R). split; [|split; [|split]].
    + rewrite HR. simpl. rewrite <- !app_assoc. reflexivity.
    + simpl. lia.
    + intros [|[|i]] r Hr; simpl in *; simplify_eq; simpl; try lia.
      rewrite (Hseeds i r Hr). simpl. lia.
    + rewrite Hseed. simpl. lia.
Qed.

(** On a process that does not write, no scoring unit holds a stream. *)
Lemma built_units_non_writer ds u :
  ScoreUnit u ∈ built_units gangs tokenizer generator criterion ds None →
  _src_output_stream u = None ∧ _ref_output_stream u = None ∧
  _hyp_output_stream u = None.
Proof.
  induction ds as [|d ds IH]; simpl; [by intros ?%elem_of_nil|].
  intros [?|[?|?]%elem_of_cons]%elem_of_cons; [done|by simplify_eq|by apply IH].
Qed.

(** On a writer, each scoring unit holds three consecutive streams, the
    ones of its direction. *)
Lemma built_units_writer ds n u :
  ScoreUnit u ∈ built_units gangs tokenizer generator criterion ds (Some n) →
  ∃ k d, ds !! k = Some d ∧
         _src_output_stream u = Some (n + 3 * k) ∧
         _ref_output_stream u = Some (n + 3 * k + 1) ∧
         _hyp_output_stream u = Some (n + 3 * k + 2).
Proof.
  revert n. induction ds as [|d ds IH]; intros n; simpl; [by intros ?%elem_of_nil|].
  intros [?|[?|Hin]%elem_of_cons]%elem_of_cons; [done| |].
  - simplify_eq. exists 0, d. simpl. repeat split; f_equal; lia.
  - destruct (IH _ Hin) as (k & d' & Hk & Hs & Hr & Hh).
    exists (S k), d'. rewrite Hs, Hr, Hh. repeat split; [done|..]; f_equal; lia.
Qed.

Lemma direction_files_lookup ds k d (j : nat) :
  ds !! k = Some d → j < 3 →
  flat_map (direction_files output_dir (rank (dp gangs))) ds !! (3 * k + j)
  = direction_files output_dir (rank (dp gangs)) d !! j.
Proof.
  revert k. induction ds as [|d' ds IH]; intros k Hk Hj; [done|].
  destruct k as [|k]; simpl in Hk.
  - simplify_eq. simpl. by destruct j as [|[|[|j]]]; [..|lia].
  - replace (3 * S k + j) with (S (S (S (3 * k + j)))) by lia. simpl. by apply IH.
Qed.

Lemma built_units_names ds first :
  display_name <$> built_units gangs tokenizer generator criterion ds first
  = flat_map (λ d, ["loss/" +:+ format d; "score/" +:+ format d]) ds.
Proof.
  revert first. induction ds as [|d ds IH]; intros first; [done|].
  csimpl. do 2 f_equal. apply IH.
Qed.

(** The error of a refusal names the refused path and carries the I/O
    error as its cause. *)
Lemma failure_shape d e :
  failure d = Some e →
  ∃ p msg,
    (p = parent (output_file output_dir d (rank (dp gangs)) "src") ∧
     make_directory_error (file_system context) p = Some msg ∧
     e = directory_error p msg)
    ∨ (p ∈ direction_files output_dir (rank (dp gangs)) d ∧
       open_text_error (file_system context) p WRITE = Some msg ∧
       e = file_error p msg).
Proof.
  unfold first_failure, direction_files.
  destruct (make_directory_error _ _) as [m|] eqn:Hd.
  { intros ?. simplify_eq. eexists _, m. by left. }
  destruct (open_text_error _ (output_file _ _ _ "src") _) as [m|] eqn:Hs.
  { intros ?. simplify_eq. eexists _, m. right. split; [|done]. set_solver. }
  destruct (open_text_error _ (output_file _ _ _ "ref") _) as [m|] eqn:Hr.
  { intros ?. simplify_eq. eexists _, m. right. split; [|done]. set_solver. }
  destruct (open_text_error _ (output_file _ _ _ "hyp") _) as [m|] eqn:Hh; [|done].
  intros ?. simplify_eq. eexists _, m. right. split; [|done]. set_solver.
Qed.

Lemma refuses_failure d :
  refuses (file_system context) output_dir (rank (dp gangs)) d → failure d ≠ None.
Proof.
  unfold refuses, first_failure, direction_files.
  intros [[m Hm]|(p & Hp & [m Hm])].
  - by rewrite Hm.
  - destruct (make_directory_error _ _); [done|].
    apply elem_of_cons in Hp as [->|Hp]; [by rewrite Hm|].
    destruct (open_text_error _ (output_file _ _ _ "src") _); [done|].
    apply elem_of_cons in Hp as [->|Hp]; [by rewrite Hm|].
    destruct (open_text_error _ (output_file _ _ _ "ref") _); [done|].
    apply list_elem_of_singleton in Hp as ->. by rewrite Hm.
Qed.

End Loader.

Section Load.
Context `{Collaborators}.

#[local] Instance setup_only_preorder : PreOrder setup_only.
Proof.
  split.
  - intros w. split; [done|]. exists [], []. by rewrite !app_nil_r.
  - intros w1 w2 w3 (Hg1 & d1 & f1 & Hd1 & Hs1) (Hg2 & d2 & f2 & Hd2 & Hs2).
    split; [congruence|]. exists (d1 ++ d2), (f1 ++ f2).
    rewrite Hd2, Hd1, Hs2, Hs1, fmap_app, !app_assoc. done.
Qed.

Lemma make_directory_setup_only fs p : preserves setup_only (make_directory fs p).
Proof.
  intros w. unfold make_directory. destruct (make_directory_error fs p); simpl.
  - reflexivity.
  - split; [done|]. exists [p], []. simpl. by rewrite app_nil_r.
Qed.

Lemma open_text_setup_only fs p : preserves setup_only (open_text fs p WRITE).
Proof.
  intros w. unfold open_text. destruct (open_text_error fs p WRITE); simpl.
  - reflexivity.
  - split; [done|]. exists [], [p]. simpl. by rewrite app_nil_r.
Qed.

Ltac frame :=
  repeat first
    [ apply preserves_ret; apply _
    | apply preserves_raise; apply _
    | apply preserves_lift; apply _
    | apply make_directory_setup_only
    | apply open_text_setup_only
    | apply preserves_try_except; [apply _ | | intros ?]
    | apply preserves_bind; [apply _ | | intros ?]
    | match goal with
      | |- preserves _ (if ?b then _ else _) => destruct b
      | |- preserves _ (let '(_, _) := ?x in _) => destruct x
      end ].

(** Building the evaluator only makes directories and opens empty streams,
    also when it raises. *)
Lemma load_mt_evaluator_setup_only context config output_dir :
  preserves setup_only (load_mt_evaluator context config output_dir).
Proof.
  unfold load_mt_evaluator. cbv zeta.
  apply preserves_bind; [apply _ | | intros ?; apply preserves_ret, _].
  generalize ({| loop_units := []; loop_data_readers := [];
                 loop_seed := (Config.seed config + 1)%Z |}).
  induction (directions _ _) as [|d ds IH]; intros vars; simpl.
  - apply preserves_ret, _.
  - apply preserves_bind; [apply _ | | intros ?; apply IH].
    unfold loop_body. cbv zeta. frame.
Qed.

(** [load_mt_evaluator] in terms of its loop. *)
Lemma load_mt_evaluator_loop context config output_dir w :
  load_mt_evaluator context config output_dir w =
  let gangs := setup_gangs context config in
  let tokenizer := load_text_tokenizer context (Config.model config) in
  let model := load_eval_model context (Config.model config) gangs in
  let model :=
    if Config.torch_compile (Config.evaluator config)
    then compile_eval_model context (Config.model config) model else model in
  let generator :=
    create_seq2seq_generator context (Config.seq2seq_generator config) model in
  let criterion :=
    {| criterion_model := model;
       criterion_label_smoothing := Config.label_smoothing (Config.evaluator config) |} in
  match directions_loop context config output_dir gangs tokenizer generator criterion
          (evaluated_directions context config)
          {| loop_units := []; loop_data_readers := [];
             loop_seed := (Config.seed config + 1)%Z |} w with
  | (inr vars, w') =>
      (inr {| evaluator_output_dir := output_dir; units := loop_units vars;
              data_readers := loop_data_readers vars; evaluator_gangs := gangs;
              evaluator_seed := loop_seed vars |}, w')
  | (inl e, w') => (inl e, w')
  end.
Proof.
  unfold load_mt_evaluator, evaluated_directions, bind, ret. cbv zeta.
  by destruct (directions_loop _ _ _ _ _ _ _ _ _ _) as [[e|vars] w'].
Qed.

(** A scoring unit without streams leaves streams and directories alone. *)
Lemma call_without_streams (u : MTBleuChrfEvalUnit) (w : World) (batch : Seq2SeqBatch) :
  _src_output_stream u = None → _ref_output_stream u = None →
  _hyp_output_stream u = None →
  streams (MTBleuChrfEvalUnit__call__ batch (u, w)).2.2 = streams w ∧
  directories (MTBleuChrfEvalUnit__call__ batch (u, w)).2.2 = directories w.
Proof.
  intros Hs Hr Hh. rewrite call_after_validate, validate_cases.
  destruct (example batch) as [| | | | |items|]; try done.
  destruct (getitem items "source_text") as [srcs|]; [|done].
  destruct (is_Iterable srcs); [|done].
  destruct (getitem items "target_text") as [refs|]; [|done].
  destruct (is_Iterable refs); [|done].
  unfold generate_score_dump, bind, gets, in_world, call_batch_convert, on_score_bag,
    lift, modify, bind, raise, ret. simpl.
  destruct (batch_convert _ _ _) as [e|[hyps output]]; simpl; [done|].
  destruct (update_metric "bleu" _ _) as [e|bag1]; simpl; [done|].
  destruct (update_metric "chrf" _ _) as [e|bag2]; simpl; [done|].
  rewrite Hs. simpl. rewrite Hr. simpl. by rewrite Hh.
Qed.

(** Building the evaluator returns on every process that does not write,
    and on a writer whenever the file system refuses nothing. *)
Lemma load_mt_evaluator_returns context config output_dir w :
  rank (tp (setup_gangs context config)) ≠ 0%Z
  ∨ Forall (λ d, first_failure (file_system context) output_dir
                   (rank (dp (setup_gangs context config))) d = None)
      (evaluated_directions context config) →
  ∃ ev w', load_mt_evaluator context config output_dir w = (inr ev, w').
Proof.
  intros Hok. rewrite load_mt_evaluator_loop. cbv zeta.
  destruct (decide (rank (tp (setup_gangs context config)) = 0%Z)) as [Htp|Htp].
  - destruct Hok as [?|Hok]; [done|]. rewrite loop_writer by done. eauto.
  - rewrite loop_non_writer by done. eauto.
Qed.

(** C9. In a run of [load_mt_evaluator] that returns, there are two readers
    per direction, the [i]-th reader created was given the seed
    [config.seed + 1 + i], so no two readers share a seed, and the seed
    handed to the evaluator is [config.seed + 1 + 2 * (number of
    directions)].  The seeds depend on nothing but [config.seed] and the
    list of directions. *)
Theorem reader_seeds context config output_dir (w w' : World) (ev : Evaluator) :
  load_mt_evaluator context config output_dir w = (inr ev, w') →
  length (data_readers ev) = 2 * length (evaluated_directions context config) ∧
  (∀ (i : nat) r, data_readers ev !! i = Some r →
     seed (read_options r) = (Config.seed config + 1 + Z.of_nat i)%Z) ∧
  (∀ (i j : nat) ri rj,
     data_readers ev !! i = Some ri → data_readers ev !! j = Some rj →
     seed (read_options ri) = seed (read_options rj) → i = j) ∧
  evaluator_seed ev
  = (Config.seed config + 1 + 2 * Z.of_nat (length (evaluated_directions context config)))%Z.
Proof.
  intros Hrun. rewrite load_mt_evaluator_loop in Hrun. cbv zeta in Hrun.
  destruct (directions_loop _ _ _ _ _ _ _ _ _ _) as [[e|vars] w1] eqn:Hloop; [done|].
  simplify_eq. simpl.
  match type of Hloop with
  | directions_loop _ ?cfg _ ?g ?t ?gen ?crit ?l ?v _ = _ =>
      assert (∃ first, vars = loop_vars cfg g t gen crit l first v) as [first ->];
      [ apply loop_returned in Hloop; destruct (decide _);
        [destruct Hloop as (_ & -> & _) | destruct Hloop as (-> & _)]; by eexists
      | destruct (result_readers cfg g t gen crit l first v)
          as (R & HR & Hlen & Hseeds & Hseed) ]
  end.
  simpl in *. rewrite HR, Hseed.
  split; [done|]. split; [exact Hseeds|]. split; [|done].
  intros i j ri rj Hi Hj Heq.
  rewrite (Hseeds i ri Hi), (Hseeds j rj Hj) in Heq. lia.
Qed.

(** C7. The display name of a unit is formed with the direction as its
    suffix: the loss unit is built with the name [loss/{direction}] and the
    scoring unit with [score/{direction}], and so the units of an evaluator
    that [load_mt_evaluator] returns are named, in order,
    [loss/{d}], [score/{d}] for each direction [d]. *)
Theorem unit_display_names context config output_dir (w w' : World) (ev : Evaluator) :
  load_mt_evaluator context config output_dir w = (inr ev, w') →
  (∀ criterion d gangs,
     loss_display_name (MTLossEvalUnit__init__ criterion d gangs)
     = "loss/" +:+ format d) ∧
  (∀ d generator tokenizer gangs src ref hyp,
     ∃ u, MTBleuChrfEvalUnit__init__ d generator tokenizer gangs src ref hyp = inr u ∧
          score_display_name u = "score/" +:+ format d) ∧
  display_name <$> units ev
  = flat_map (λ d, ["loss/" +:+ format d; "score/" +:+ format d])
      (evaluated_directions context config).
Proof.
  intros Hrun. split; [done|]. split.
  { intros d generator tokenizer gangs src ref hyp. eexists.
    split; [apply score_unit_init_returns|done]. }
  rewrite load_mt_evaluator_loop in Hrun. cbv zeta in Hrun.
  destruct (directions_loop _ _ _ _ _ _ _ _ _ _) as [[e|vars] w1] eqn:Hloop; [done|].
  simplify_eq. simpl. apply loop_returned in Hloop.
  destruct (decide _).
  - destruct Hloop as (_ & -> & _). rewrite result_units. apply built_units_names.
  - destruct Hloop as (-> & _). rewrite result_units. apply built_units_names.
Qed.

(** C4. On a process with [tp.rank == 0], a run of [load_mt_evaluator] that
    returns has made one directory per direction and opened, for writing,
    exactly the files [translations/{direction}/rank_{dp_rank}.src.txt],
    [.ref.txt] and [.hyp.txt] under the output directory, in the order of
    the directions, and every scoring unit holds the three streams of its
    own direction.  On any other tensor-parallel rank the run returns
    without touching the world, every scoring unit is given no stream, and
    no call of such a unit changes a stream or a directory. *)
Theorem output_files_only_on_writer context config output_dir (w : World) :
  let gangs := setup_gangs context config in
  let ds := evaluated_directions context config in
  (rank (tp gangs) = 0%Z →
   ∀ ev w', load_mt_evaluator context config output_dir w = (inr ev, w') →
     directories w'
       = directories w
         ++ ((λ d, parent (output_file output_dir d (rank (dp gangs)) "src")) <$> ds) ∧
     streams w'
       = streams w ++ (opened <$> flat_map (direction_files output_dir (rank (dp gangs))) ds) ∧
     ∀ u, ScoreUnit u ∈ units ev →
       ∃ d hs hr hh,
         d ∈ ds ∧
         _src_output_stream u = Some hs ∧
         _ref_output_stream u = Some hr ∧
         _hyp_output_stream u = Some hh ∧
         streams w' !! hs = Some (opened (output_file output_dir d (rank (dp gangs)) "src")) ∧
         streams w' !! hr = Some (opened (output_file output_dir d (rank (dp gangs)) "ref")) ∧
         streams w' !! hh = Some (opened (output_file output_dir d (rank (dp gangs)) "hyp"))) ∧
  (rank (tp gangs) ≠ 0%Z →
   ∃ ev, load_mt_evaluator context config output_dir w = (inr ev, w) ∧
     ∀ u, ScoreUnit u ∈ units ev →
       _src_output_stream u = None ∧
       _ref_output_stream u = None ∧
       _hyp_output_stream u = None ∧
       ∀ batch w0,
         streams (MTBleuChrfEvalUnit__call__ batch (u, w0)).2.2 = streams w0 ∧
         directories (MTBleuChrfEvalUnit__call__ batch (u, w0)).2.2 = directories w0).
Proof.
  intros gangs ds. split.
  - intros Htp ev w' Hrun. rewrite load_mt_evaluator_loop in Hrun. cbv zeta in Hrun.
    destruct (directions_loop _ _ _ _ _ _ _ _ _ _) as [[e|vars] w1] eqn:Hloop; [done|].
    simplify_eq. apply loop_returned in Hloop.
    destruct (decide _) as [_|]; [|done]. destruct Hloop as (_ & -> & ->).
    simpl. split; [done|]. split; [done|].
    intros u Hu. rewrite result_units in Hu. simpl in Hu.
    apply built_units_writer in Hu as (k & d & Hk & Hs & Hr & Hh).
    exists d, (length (streams w) + 3 * k), (length (streams w) + 3 * k + 1),
      (length (streams w) + 3 * k + 2).
    split; [by eapply list_elem_of_lookup_2|]. do 3 (split; [done|]).
    pose proof (direction_files_lookup output_dir (setup_gangs context config)
                  (evaluated_directions context config) k d) as Hfiles.
    repeat split.
    + rewrite lookup_app_r by lia.
      replace (length (streams w) + 3 * k - length (streams w)) with (3 * k + 0) by lia.
      by rewrite list_lookup_fmap, (Hfiles 0 Hk) by lia.
    + rewrite lookup_app_r by lia.
      replace (length (streams w) + 3 * k + 1 - length (streams w)) with (3 * k + 1) by lia.
      by rewrite list_lookup_fmap, (Hfiles 1 Hk) by lia.
    + rewrite lookup_app_r by lia.
      replace (length (streams w) + 3 * k + 2 - length (streams w)) with (3 * k + 2) by lia.
      by rewrite list_lookup_fmap, (Hfiles 2 Hk) by lia.
  - intros Htp. rewrite load_mt_evaluator_loop. cbv zeta.
    rewrite loop_non_writer by done. eexists. split; [done|]. simpl.
    intros u Hu. rewrite result_units in Hu. simpl in Hu.
    apply built_units_non_writer in Hu as (Hs & Hr & Hh).
    do 3 (split; [done|]). intros batch w0. by apply call_without_streams.
Qed.

(** C5. On a writer, when the file system refuses to make the output
    directory of a direction or to open one of its three files,
    [load_mt_evaluator] raises a [SetupError] whose message contains the
    whole refused path and whose cause is the I/O error.  This happens
    while the evaluator is being built: no evaluator comes out, the
    generator has not been called, and all that has happened to the world
    is that directories were made and streams opened, all still empty. *)
Theorem setup_error_names_path context config output_dir (w : World) :
  let gangs := setup_gangs context config in
  let fs := file_system context in
  rank (tp gangs) = 0%Z →
  Exists (refuses fs output_dir (rank (dp gangs))) (evaluated_directions context config) →
  ∃ msg cause p w',
    load_mt_evaluator context config output_dir w
      = (inl (SetupError msg (OSError cause)), w') ∧
    contains (path_str p) msg = true ∧
    (make_directory_error fs p = Some cause ∨ open_text_error fs p WRITE = Some cause) ∧
    (∃ d, d ∈ evaluated_directions context config ∧
          (p = parent (output_file output_dir d (rank (dp gangs)) "src") ∨
           p ∈ direction_files output_dir (rank (dp gangs)) d)) ∧
    setup_only w w'.
Proof.
  intros gangs fs Htp Hbad.
  pose proof (load_mt_evaluator_setup_only context config output_dir w) as Hframe.
  rewrite load_mt_evaluator_loop in Hframe |- *. cbv zeta in Hframe |- *.
  eapply Exists_impl in Hbad; [|intros d; apply refuses_failure].
  match type of Hframe with
  | context [directions_loop ?c ?cfg ?o ?g ?t ?gen ?crit ?l ?v ?s] =>
      destruct (loop_writer_fails c cfg o g t gen crit l v s Htp Hbad)
        as (d & e & Hd & He & Hrun)
  end.
  destruct (directions_loop _ _ _ _ _ _ _ _ _ _) as [[e'|vars] w1]; simpl in *; [|done].
  simplify_eq.
  apply failure_shape in He as (p & m & [(-> & Hm & ->)|(Hp & Hm & ->)]).
  - eexists _, m, _, w1. split; [done|]. split; [apply contains_app|].
    split; [by left|]. split; [|done]. exists d. split; [done|by left].
  - eexists _, m, p, w1. split; [done|]. split; [apply contains_app|].
    split; [by right|]. split; [|done]. exists d. split; [done|by right].
Qed.

End Load.

(** The sample writer with two directions and [config.seed = 2]: four
    readers with seeds 3, 4, 5, 6, and 7 for the evaluator. *)
Lemma reader_seeds_witness :
  ∃ ev w',
    @load_mt_evaluator Sample.writer Sample.permissive_context Sample.config
      Sample.output_dir Sample.empty_world = (inr ev, w') ∧
    length (data_readers ev) = 4 ∧
    (seed ∘ read_options) <$> data_readers ev = [3; 4; 5; 6]%Z ∧
    evaluator_seed ev = 7%Z.
Proof.
  destruct (@load_mt_evaluator Sample.writer Sample.permissive_context Sample.config
              Sample.output_dir Sample.empty_world) as [[e|ev] w'] eqn:Hrun;
    [vm_compute in Hrun; discriminate Hrun|].
  destruct (@reader_seeds Sample.writer Sample.permissive_context Sample.config
              Sample.output_dir Sample.empty_world w' ev Hrun)
    as (Hlen & Hseeds & _ & Hseed).
  exists ev, w'. split; [reflexivity|]. split; [exact Hlen|]. split; [|exact Hseed].
  vm_compute in Hrun. injection Hrun as <- _. reflexivity.
Defined.

(** The sample writer opens the six files of its two directions; its
    tensor-parallel neighbour opens nothing. *)
Lemma output_files_only_on_writer_witness :
  (∃ ev w',
     @load_mt_evaluator Sample.writer Sample.permissive_context Sample.config
       Sample.output_dir Sample.empty_world = (inr ev, w') ∧
     path_str ∘ name <$> streams w'
     = [ "/out/translations/eng-fra/rank_1.src.txt";
         "/out/translations/eng-fra/rank_1.ref.txt";
         "/out/translations/eng-fra/rank_1.hyp.txt";
         "/out/translations/eng-deu/rank_1.src.txt";
         "/out/translations/eng-deu/rank_1.ref.txt";
         "/out/translations/eng-deu/rank_1.hyp.txt" ]) ∧
  (∃ ev,
     @load_mt_evaluator Sample.non_writer Sample.permissive_context Sample.config
       Sample.output_dir Sample.empty_world = (inr ev, Sample.empty_world)).
Proof.
  split.
  - destruct (@load_mt_evaluator Sample.writer Sample.permissive_context Sample.config
                Sample.output_dir Sample.empty_world) as [[e|ev] w'] eqn:Hrun;
      [vm_compute in Hrun; discriminate Hrun|].
    destruct (proj1 (@output_files_only_on_writer Sample.writer Sample.permissive_context
                       Sample.config Sample.output_dir Sample.empty_world)
                eq_refl ev w' Hrun) as (_ & Hstreams & _).
    exists ev, w'. split; [reflexivity|]. rewrite Hstreams. vm_compute. reflexivity.
  - destruct (proj2 (@output_files_only_on_writer Sample.non_writer
                       Sample.permissive_context Sample.config Sample.output_dir
                       Sample.empty_world)) as (ev & Hrun & _); [vm_compute; discriminate|].
    exists ev. exact Hrun.
Defined.

(** On the sample writer, a file system that refuses the reference file of
    the second direction makes the build raise, and the message contains
    that file's whole path. *)
Lemma setup_error_names_path_witness :
  ∃ msg cause w',
    @load_mt_evaluator Sample.writer Sample.refusing_context Sample.config
      Sample.output_dir Sample.empty_world
    = (inl (SetupError msg (OSError cause)), w') ∧
    contains "/out/translations/eng-deu/rank_1.ref.txt" msg = true ∧
    generator_calls w' = [].
Proof.
  destruct (@setup_error_names_path Sample.writer Sample.refusing_context Sample.config
              Sample.output_dir Sample.empty_world)
    as (msg & cause & p & w' & Hrun & Hmsg & Hp & _ & Hcalls & _).
  - reflexivity.
  - apply Exists_cons. right. apply Exists_cons. left. right.
    exists (joinpath Sample.output_dir "translations/eng-deu/rank_1.ref.txt").
    split; [|eexists; vm_compute; reflexivity].
    apply elem_of_cons. right. apply elem_of_cons. left. vm_compute. reflexivity.
  - exists msg, cause, w'. split; [exact Hrun|]. split; [|exact Hcalls].
    vm_compute in Hrun. injection Hrun as <- _ _. vm_compute. reflexivity.
Defined.

(** The units of the sample writer. *)
Lemma unit_display_names_witness :
  ∃ ev w',
    @load_mt_evaluator Sample.writer Sample.permissive_context Sample.config
      Sample.output_dir Sample.empty_world = (inr ev, w') ∧
    display_name <$> units ev
    = ["loss/eng-fra"; "score/eng-fra"; "loss/eng-deu"; "score/eng-deu"].
Proof.
  destruct (@load_mt_evaluator Sample.writer Sample.permissive_context Sample.config
              Sample.output_dir Sample.empty_world) as [[e|ev] w'] eqn:Hrun;
    [vm_compute in Hrun; discriminate Hrun|].
  destruct (@unit_display_names Sample.writer Sample.permissive_context Sample.config
              Sample.output_dir Sample.empty_world w' ev Hrun) as (_ & _ & Hnames).
  exists ev, w'. split; [reflexivity|]. rewrite Hnames. vm_compute. reflexivity.
Defined.

End LoaderProps.

(** ** Running the extensions, building contexts *)

Module ExtensionsProps.
Import Setup ExtensionsSpec MonadFacts.

Section WithContext.
Context {RuntimeContext : Type}.
Variable new_context : RuntimeContext.
Variable register : Registrar → RuntimeContext → option PyExn * RuntimeContext.

Implicit Types (p q : Process RuntimeContext) (c : RuntimeContext)
               (ep : EntryPoint RuntimeContext) (eps : list (EntryPoint RuntimeContext)).

Lemma run_extensions_loop nm ref p :
  run_extensions nm ref p
  = for_each (installed p nm)
      (extension_body
         (bool_decide (is_Some (environ p !! "FAIRSEQ2_EXTENSION_TRACE"))) ref) p.
Proof. reflexivity. Qed.

Lemma apply_all_cons ep eps c :
  apply_all (ep :: eps) c = apply_all eps (load_and_call ep c).2.
Proof. reflexivity. Qed.

Lemma apply_all_snoc eps ep c :
  apply_all (eps ++ [ep]) c = (load_and_call ep (apply_all eps c)).2.
Proof. unfold apply_all. by rewrite foldl_app. Qed.

(** One iteration without tracing. *)
Lemma extension_body_quiet ref ep q c :
  heap q !! ref = Some c →
  extension_body false ref ep q =
  match load_and_call ep c with
  | (None, c') => (inr tt, set_heap (<[ref := c']> (heap q)) q)
  | (Some e, c') =>
      if is_Exception e
      then log_record WARNING (warning_for ep e).2 (set_heap (<[ref := c']> (heap q)) q)
      else (inl e, set_heap (<[ref := c']> (heap q)) q)
  end.
Proof.
  intros Hc. unfold extension_body, bind, try_except, on_object, warning_for.
  rewrite Hc. destruct (load_and_call ep c) as [[e|] c']; simpl; [|done].
  destruct (is_Exception e); [|done]. by destruct (is_TypeError e).
Qed.

(** One iteration with tracing. *)
Lemma extension_body_traced ref ep q c :
  heap q !! ref = Some c →
  extension_body true ref ep q =
  match load_and_call ep c with
  | (None, c') => log_record INFO (info_for ep).2 (set_heap (<[ref := c']> (heap q)) q)
  | (Some e, c') => (inl (traced_error ep e), set_heap (<[ref := c']> (heap q)) q)
  end.
Proof.
  intros Hc. unfold extension_body, bind, try_except, on_object, traced_error.
  rewrite Hc. destruct (load_and_call ep c) as [[e|] c']; simpl; [|done].
  destruct (is_Exception e); [|done]. by destruct (is_TypeError e).
Qed.

Lemma quiet_loop ref eps q c r q' :
  heap q !! ref = Some c →
  for_each eps (extension_body false ref) q = (r, q') →
  ∃ new c',
    log q' = log q ++ new ∧
    Forall (λ rec, ∃ ep ex, ep ∈ eps ∧ rec = warning_for ep ex) new ∧
    (length new ≤ length eps)%nat ∧
    heap q' = <[ref := c']> (heap q) ∧
    match r with
    | inr _ => c' = apply_all eps c
    | inl e => is_Exception e = false ∧
               ∃ ep c0, ep ∈ eps ∧ (load_and_call ep c0).1 = Some e
    end.
Proof.
  revert q c. induction eps as [|ep eps IH]; intros q c Hc Hrun; simpl in Hrun.
  - unfold ret in Hrun. simplify_eq. exists [], c.
    rewrite app_nil_r, list_insert_id by done. by repeat split.
  - unfold bind in Hrun. rewrite (extension_body_quiet ref ep q c Hc) in Hrun.
    assert (Hlt : ref < length (heap q)) by by eapply lookup_lt_Some.
    destruct (load_and_call ep c) as [[e|] c1] eqn:Hep.
    + destruct (is_Exception e) eqn:He.
      * simpl in Hrun.
        eapply IH in Hrun as (new & c' & Hlog & Hnew & Hlen & Hheap & Hr);
          [|simpl; by apply list_lookup_insert_eq].
        simpl in *. exists (warning_for ep e :: new), c'.
        rewrite Hlog, <- app_assoc. split; [done|]. split.
        { constructor; [exists ep, e; split; [left|done]|].
          eapply Forall_impl; [exact Hnew|].
          intros rec (ep' & ex & ? & ->). exists ep', ex. split; [by right|done]. }
        split; [simpl; lia|]. split; [by rewrite Hheap, list_insert_insert_eq|].
        destruct r as [e'|[]].
        -- destruct Hr as (? & ep' & c0 & ? & ?). split; [done|].
           exists ep', c0. split; [by right|done].
        -- rewrite ?apply_all_cons, Hep; by simplify_eq.
      * simplify_eq. exists [], c1. rewrite app_nil_r. simpl.
        split; [done|]. split; [constructor|]. split; [simpl; lia|]. split; [done|].
        split; [done|]. exists ep, c. split; [left|by rewrite Hep].
    + eapply IH in Hrun as (new & c' & Hlog & Hnew & Hlen & Hheap & Hr);
        [|simpl; by apply list_lookup_insert_eq].
      simpl in *. exists new, c'. split; [done|]. split.
      { eapply Forall_impl; [exact Hnew|].
        intros rec (ep' & ex & ? & ->). exists ep', ex. split; [by right|done]. }
      split; [simpl; lia|]. split; [by rewrite Hheap, list_insert_insert_eq|].
      destruct r as [e'|[]].
      * destruct Hr as (? & ep' & c0 & ? & ?). split; [done|].
        exists ep', c0. split; [by right|done].
      * rewrite ?apply_all_cons, Hep; by simplify_eq.
Qed.

Lemma traced_loop ref eps q c r q' :
  heap q !! ref = Some c →
  for_each eps (extension_body true ref) q = (r, q') →
  ∃ k c',
    log q' = log q ++ (info_for <$> take k eps) ∧
    heap q' = <[ref := c']> (heap q) ∧
    match r with
    | inr _ => k = length eps ∧ c' = apply_all eps c
    | inl e =>
        ∃ ep ex,
          eps !! k = Some ep ∧
          (load_and_call ep (apply_all (take k eps) c)).1 = Some ex ∧
          e = traced_error ep ex ∧
          c' = apply_all (take (S k) eps) c
    end.
Proof.
  revert q c. induction eps as [|ep eps IH]; intros q c Hc Hrun; simpl in Hrun.
  - unfold ret in Hrun. simplify_eq. exists 0, c.
    rewrite list_insert_id by done. simpl. by rewrite app_nil_r.
  - unfold bind in Hrun. rewrite (extension_body_traced ref ep q c Hc) in Hrun.
    assert (Hlt : ref < length (heap q)) by by eapply lookup_lt_Some.
    destruct (load_and_call ep c) as [[e|] c1] eqn:Hep.
    + simplify_eq. exists 0, c1. simpl. rewrite app_nil_r.
      split; [done|]. split; [done|]. exists ep, e.
      split; [done|]. split; [by rewrite Hep|]. split; [done|].
      rewrite ?apply_all_cons, Hep; by simplify_eq.
    + simpl in Hrun.
      eapply IH in Hrun as (k & c' & Hlog & Hheap & Hr);
        [|simpl; by apply list_lookup_insert_eq].
      simpl in *. exists (S k), c'. rewrite Hlog, <- app_assoc. simpl.
      split; [done|]. split; [by rewrite Hheap, list_insert_insert_eq|].
      destruct r as [e'|[]].
      * destruct Hr as (ep' & ex & Hk & Hex & -> & ->).
        exists ep', ex. rewrite ?apply_all_cons, Hep; done.
      * destruct Hr as [-> ->]. rewrite ?apply_all_cons, Hep; by simplify_eq.
Qed.


(** X2. With [FAIRSEQ2_EXTENSION_TRACE] set, [run_extensions] stops at the
    first extension that raises.  The [k] extensions before it each left
    one [INFO] record and nothing else is logged; the error is an
    [ExtensionError] carrying the entry point's value, without cause for a
    [TypeError] and with the exception as cause for any other
    [Exception]; the extensions after it are not run.  When nothing
    raises, all entry points have run and each left its [INFO] record. *)
Theorem run_extensions_traced nm ref p c r p' :
  is_Some (environ p !! "FAIRSEQ2_EXTENSION_TRACE") →
  heap p !! ref = Some c →
  run_extensions nm ref p = (r, p') →
  ∃ k c',
    log p' = log p ++ (info_for <$> take k (installed p nm)) ∧
    heap p' = <[ref := c']> (heap p) ∧
    match r with
    | inr _ => k = length (installed p nm) ∧ c' = apply_all (installed p nm) c
    | inl e =>
        ∃ ep ex,
          installed p nm !! k = Some ep ∧
          (load_and_call ep (apply_all (take k (installed p nm)) c)).1 = Some ex ∧
          e = traced_error ep ex ∧
          c' = apply_all (take (S k) (installed p nm)) c
    end.
Proof.
  intros Henv Hc. rewrite run_extensions_loop.
  rewrite bool_decide_eq_true_2 by done. by apply traced_loop.
Qed.

End WithContext.


(** The sample extensions with tracing: the first one is reported as run,
    the broken second one aborts the call. *)
Lemma run_extensions_traced_witness :
  ∃ msg p',
    run_extensions "fairseq2.extension" 0 traced_process
      = (inl (ExtensionError "broken_package:setup" msg None), p') ∧
    length (log p') = 1.
Proof.
  destruct (run_extensions "fairseq2.extension" 0 traced_process) as [r p'] eqn:Hrun.
  destruct (run_extensions_traced "fairseq2.extension" 0 traced_process [] r p'
              (ex_intro _ "1" eq_refl) eq_refl Hrun) as (k & c' & Hlog & _).
  vm_compute in Hrun. injection Hrun as <- <-.
  eexists _, _. split; reflexivity.
Defined.

End ExtensionsProps.

(** ** Building a context, and a setup that fails *)

Module SetupExtraProps.
Import Setup ExtensionsSpec SetupSpec MonadFacts.

Section WithContext.
Context {RuntimeContext : Type}.
Variable new_context : RuntimeContext.
Variable register : Registrar → RuntimeContext → option PyExn * RuntimeContext.

#[local] Instance others_kept_preorder ref : PreOrder (@others_kept RuntimeContext ref).
Proof.
  split.
  - by intros p i.
  - intros p q r Hpq Hqr i Hi. by rewrite Hqr, Hpq.
Qed.

#[local] Instance same_flags_preorder : PreOrder (@same_flags RuntimeContext).
Proof.
  split.
  - by intros p.
  - intros p q r [? ?] [? ?]. split; congruence.
Qed.

Lemma on_object_others ref f :
  preserves (others_kept ref) (@on_object RuntimeContext ref f).
Proof.
  intros p i Hi. unfold on_object. destruct (heap p !! ref) as [c|]; [|done].
  destruct (f c) as [[e|] c']; simpl; by rewrite list_lookup_insert_ne.
Qed.

Lemma on_object_flags ref f : preserves same_flags (@on_object RuntimeContext ref f).
Proof.
  intros p. unfold on_object. destruct (heap p !! ref) as [c|]; [|done].
  by destruct (f c) as [[e|] c'].
Qed.

Lemma run_extensions_others nm ref :
  preserves (others_kept ref) (@run_extensions RuntimeContext nm ref).
Proof.
  unfold run_extensions.
  apply preserves_bind; [apply _ | apply preserves_gets, _ | intros should_trace].
  apply preserves_bind; [apply _ | apply preserves_gets, _ | intros eps].
  apply preserves_for_each; [apply _ | intros ep].
  apply preserves_bind; [apply _ | | intros _].
  - apply preserves_try_except; [apply _ | apply on_object_others | intros e].
    destruct (is_TypeError e), should_trace;
      first [apply preserves_raise, _ | by intros p i].
  - destruct should_trace; [by intros p i | apply preserves_ret, _].
Qed.

Lemma run_extensions_flags nm ref :
  preserves same_flags (@run_extensions RuntimeContext nm ref).
Proof.
  intros p.
  destruct (SetupProps.run_extensions_globals nm ref p) as (? & ? & _). by split.
Qed.

Lemma registration_others ref :
  preserves (others_kept ref)
    (for_each registrars (λ r, note_registered r ;;; on_object ref (register r))).
Proof.
  apply preserves_for_each; [apply _ | intros r].
  apply preserves_bind; [apply _ | by intros p i | intros _; apply on_object_others].
Qed.

Lemma registration_flags ref :
  preserves same_flags
    (for_each registrars (λ r, note_registered r ;;; on_object ref (register r))).
Proof.
  apply preserves_for_each; [apply _ | intros r].
  apply preserves_bind; [apply _ | by intros p | intros _; apply on_object_flags].
Qed.

Lemma setup_runtime_context_flags :
  preserves same_flags (setup_runtime_context new_context register).
Proof.
  unfold setup_runtime_context.
  apply preserves_bind; [apply _ | by intros p | intros ref].
  apply preserves_bind; [apply _ | apply registration_flags | intros _].
  apply preserves_bind; [apply _ | apply run_extensions_flags | intros _].
  apply preserves_ret, _.
Qed.

(** A call of [setup_runtime_context] that returned: the object it built is
    new, and no older object has changed. *)
Lemma setup_runtime_context_built p c p' :
  setup_runtime_context new_context register p = (inr c, p') →
  c = length (heap p) ∧
  length (heap p') = S (length (heap p)) ∧
  same_flags p p' ∧
  ∀ i, i ≠ c → heap p' !! i = heap p !! i.
Proof.
  intros Hrun.
  pose proof (setup_runtime_context_flags p) as Hflags. rewrite Hrun in Hflags.
  unfold setup_runtime_context in Hrun.
  apply bind_inr in Hrun as (a & p0 & Halloc & Hrun).
  unfold alloc in Halloc. simplify_eq.
  apply bind_inr in Hrun as ([] & p2 & Hloop & Hrun).
  apply bind_inr in Hrun as ([] & p3 & Hext & Hret).
  unfold ret in Hret. simplify_eq.
  pose proof (registration_others (length (heap p))
                (set_heap (heap p ++ [new_context]) p)) as H2.
  rewrite Hloop in H2.
  pose proof (run_extensions_others "fairseq2.extension" (length (heap p)) p2) as H3.
  rewrite Hext in H3.
  pose proof (SetupProps.registration_loop register _ _ _ _ _ Hloop) as [(_ & _ & Hl2 & _) _].
  pose proof (SetupProps.run_extensions_globals "fairseq2.extension" (length (heap p)) p2)
    as (_ & _ & _ & Hl3 & _).
  rewrite Hext in Hl3. simpl in *. rewrite length_app in Hl2. simpl in Hl2.
  split; [done|]. split; [lia|]. split; [done|].
  intros i Hi. rewrite H3, H2 by done. simpl.
  destruct (decide (i < length (heap p))) as [Hlt|Hge].
  - by rewrite lookup_app_l.
  - rewrite !lookup_ge_None_2; [done|lia|]. rewrite length_app. simpl. lia.
Qed.


(** X4. A first call of [setup_fairseq2] that raises is never retried: the
    flag was set before the context was built and stays set, no context
    has been stored, and a later call runs no registration and leaves the
    whole process state as it is. *)
Theorem setup_fairseq2_failure_sticks p e p1 :
  _setup_called p = false →
  setup_fairseq2 new_context register p = (inl e, p1) →
  _setup_called p1 = true ∧
  _default_context p1 = _default_context p ∧
  (setup_fairseq2 new_context register p1).2 = p1.
Proof.
  intros Hcalled Hrun.
  assert (Hflags : _setup_called p1 = true ∧ _default_context p1 = _default_context p).
  { unfold setup_fairseq2 in Hrun.
    apply bind_inl in Hrun as [Hrun|(called & q0 & Hget & Hrun)]; [done|].
    unfold gets in Hget. injection Hget as <- <-. rewrite Hcalled in Hrun.
    apply bind_inl in Hrun as [Hrun|(? & ? & ? & ?)]; [|done].
    apply bind_inl in Hrun as [Hrun|([] & q1 & Hflag & Hrun)]; [done|].
    unfold modify in Hflag. injection Hflag as <-.
    apply bind_inl in Hrun as [Hrun|(c & q2 & Hctx & Hrun)].
    - pose proof (setup_runtime_context_flags (set_setup_called true p)) as Hf.
      rewrite Hrun in Hf. by destruct Hf.
    - apply bind_inl in Hrun as [Hrun|(? & ? & ? & ?)]; done. }
  destruct Hflags as [Hc Hd]. split; [done|]. split; [done|].
  unfold setup_fairseq2, get_runtime_context, bind, gets, ret, raise.
  rewrite Hc. by destruct (_default_context p1).
Qed.

End WithContext.


(** With tracing on, the broken sample extension makes the first call
    raise; the flag is set all the same. *)
Lemma setup_fairseq2_failure_sticks_witness :
  let first := setup_fairseq2 [] SetupSample.register traced_fresh_process in
  (∃ msg, first.1 = inl (ExtensionError "broken_package:setup" msg None)) ∧
  _setup_called first.2 = true ∧
  (setup_fairseq2 [] SetupSample.register first.2).2 = first.2.
Proof.
  intros first.
  assert (H1 : first =
    (inl (ExtensionError "broken_package:setup"
            "The 'broken_package:setup' entry point is not a valid extension function."
            None), first.2)) by (vm_compute; reflexivity).
  destruct (setup_fairseq2_failure_sticks [] SetupSample.register
              traced_fresh_process _ first.2 eq_refl H1) as (Hflag & _ & Hagain).
  split; [eexists; by rewrite H1|]. split; [exact Hflag|exact Hagain].
Defined.

End SetupExtraProps.

(** ** More on the scoring unit *)

Module UnitExtraProps.
Import MTEval MTEvalSpec MonadFacts UnitProps.

#[local] Instance only_streams_preorder {U} : PreOrder (@only_streams U).
Proof.
  split.
  - by intros s.
  - intros s1 s2 s3 (? & ? & ?) (? & ? & ?). repeat split; congruence.
Qed.

Lemma in_world_only_streams {U A} (c : M World A) :
  (∀ w, directories (c w).2 = directories w ∧
        generator_calls (c w).2 = generator_calls w) →
  preserves (@only_streams U) (in_world c).
Proof.
  intros Hc [u w]. unfold in_world. simpl. specialize (Hc w).
  destruct (c w) as [r w1]. simpl in *. destruct Hc. by repeat split.
Qed.

Lemma write_only_streams {U} stream s : preserves (@only_streams U) (in_world (write stream s)).
Proof. by apply in_world_only_streams. Qed.

Lemma write_obj_only_streams {U} stream v :
  preserves (@only_streams U) (in_world (write_obj stream v)).
Proof. apply in_world_only_streams. intros w. by destruct v. Qed.

Lemma flush_only_streams {U} stream : preserves (@only_streams U) (in_world (flush stream)).
Proof. by apply in_world_only_streams. Qed.

Lemma for_each_app {S A} (xs ys : list A) (body : A → M S unit) s :
  for_each (xs ++ ys) body s = (for_each xs body ;;; for_each ys body) s.
Proof.
  revert s. induction xs as [|x xs IH]; intros s; [reflexivity|].
  simpl. unfold bind. destruct (body x s) as [[e|[]] s1]; [reflexivity|].
  rewrite IH. reflexivity.
Qed.

(** A loop of writes that meets an object that is not a string: the lines
    before it are in the buffer, and the loop has raised. *)
Lemma write_objects_stuck {U} (stream : nat) (pre : list string) (v : PyVal)
    (rest : list PyVal) (u : U) (w : World) :
  (∀ s, v ≠ PyStr s) →
  for_each ((PyStr <$> pre) ++ v :: rest)
    (λ x, in_world (write_obj stream x) ;;; in_world (write stream nl)) (u, w)
  = (inl (TypeError ("write() argument must be str, not " +:+ type_repr v)),
     (u, set_streams (alter (buffered (lines_text pre)) stream) w)).
Proof.
  intros Hv. rewrite for_each_app. unfold bind at 1. rewrite write_objects.
  simpl. unfold bind at 1. unfold bind at 1. unfold in_world at 1. simpl.
  destruct v; try reflexivity. by destruct (Hv s).
Qed.

Section Units.
Context `{Collaborators}.

Lemma well_shaped_validate {S} (batch : Seq2SeqBatch) (s : S) :
  well_shaped batch = true →
  ∃ items srcs refs,
    example batch = PyDict items ∧
    getitem items "source_text" = Some srcs ∧
    getitem items "target_text" = Some refs ∧
    validate batch s = (inr (srcs, refs), s).
Proof.
  unfold well_shaped. rewrite validate_cases.
  destruct (example batch) as [| | | | |items|]; try done.
  destruct (getitem items "source_text") as [srcs|] eqn:Hs; [|done].
  destruct (getitem items "target_text") as [refs|] eqn:Hr; [|done].
  intros [-> ->]%andb_true_iff. by exists items, srcs, refs.
Qed.

(** The three dump blocks change streams only. *)
Lemma dumps_only_streams (srcs refs : PyVal) (hyps : list string) :
  preserves only_streams
    (let* stream := gets (λ s : MTBleuChrfEvalUnit * World, _src_output_stream s.1) in
     match stream with
     | Some stream =>
         for_each (iterate srcs) (λ src,
           in_world (write_obj stream src) ;;;
           in_world (write stream nl)) ;;;
         in_world (flush stream)
     | None => ret tt
     end ;;;
     let* stream := gets (λ s : MTBleuChrfEvalUnit * World, _ref_output_stream s.1) in
     match stream with
     | Some stream =>
         for_each (iterate refs) (λ ref,
           in_world (write_obj stream ref) ;;;
           in_world (write stream nl)) ;;;
         in_world (flush stream)
     | None => ret tt
     end ;;;
     let* stream := gets (λ s : MTBleuChrfEvalUnit * World, _hyp_output_stream s.1) in
     match stream with
     | Some stream =>
         for_each hyps (λ hyp,
           in_world (write stream hyp) ;;;
           in_world (write stream nl)) ;;;
         in_world (flush stream)
     | None => ret tt
     end).
Proof.
  repeat first
    [ apply preserves_ret; apply _
    | apply preserves_gets; apply _
    | apply write_only_streams
    | apply write_obj_only_streams
    | apply flush_only_streams
    | apply preserves_for_each; [apply _ | intros ?]
    | apply preserves_bind; [apply _ | | intros ?]
    | match goal with
      | |- preserves _ (match ?x with Some _ => _ | None => _ end) => destruct x
      end ].
Qed.

(** X5. When the sequence generator raises, [__call__] raises the same
    error: the call to the generator is all that has happened; no metric
    has been updated and no stream has been written to. *)
Theorem generator_failure_leaves_bag
    (u : MTBleuChrfEvalUnit) (w : World) (batch : Seq2SeqBatch) (e : PyExn) :
  well_shaped batch = true →
  batch_convert (_converter u) (source_seqs batch) (source_padding_mask batch) = inl e →
  MTBleuChrfEvalUnit__call__ batch (u, w)
  = (inl e,
     (u, {| directories := directories w; streams := streams w;
            generator_calls :=
              generator_calls w ++ [(source_seqs batch, source_padding_mask batch)] |})).
Proof.
  intros Hshape Hconv.
  destruct (well_shaped_validate batch (u, w) Hshape) as (items & srcs & refs & _ & _ & _ & Hv).
  rewrite call_after_validate, Hv. unfold generate_score_dump.
  erewrite bind_returns; [|reflexivity]. simpl.
  erewrite bind_raises; [reflexivity|].
  unfold in_world, call_batch_convert, bind, modify, lift. simpl. by rewrite Hconv.
Qed.

(** X6. A call of the scoring unit that returns has fed the metrics exactly
    once: ['bleu'] and ['chrf'] each received the pair of this batch's
    references and the generator's hypotheses, one per-batch record was
    added, no other metric changed, the generator was called once, and the
    unit's streams and converter are the ones it had. *)
Theorem score_unit_updates_metrics
    (u u' : MTBleuChrfEvalUnit) (w w' : World) (batch : Seq2SeqBatch) :
  MTBleuChrfEvalUnit__call__ batch (u, w) = (inr tt, (u', w')) →
  ∃ items refs hyps output mb mc,
    example batch = PyDict items ∧
    getitem items "target_text" = Some refs ∧
    batch_convert (_converter u) (source_seqs batch) (source_padding_mask batch)
      = inr (hyps, output) ∧
    metrics (score_metric_bag u) !! "bleu" = Some mb ∧
    metrics (score_metric_bag u) !! "chrf" = Some mc ∧
    metrics (score_metric_bag u')
      = <["chrf" := fed (TextUpdate refs hyps) mc]>
          (<["bleu" := fed (TextUpdate refs hyps) mb]> (metrics (score_metric_bag u))) ∧
    batch_stats (score_metric_bag u')
      = batch_stats (score_metric_bag u)
        ++ [GenerationStat output (num_source_elements batch)] ∧
    generator_calls w'
      = generator_calls w ++ [(source_seqs batch, source_padding_mask batch)] ∧
    u' = set_score_bag (score_metric_bag u') u.
Proof.
  intros Hrun. rewrite call_after_validate in Hrun.
  destruct (well_shaped batch) eqn:Hshape.
  2:{ destruct (call_malformed batch u w Hshape) as (e & msg & Hbad & _).
      rewrite call_after_validate in Hbad.
      destruct (validate batch (u, w)) as [[e'|[srcs refs]] s']; [done|].
      rewrite Hbad in Hrun. done. }
  destruct (well_shaped_validate batch (u, w) Hshape)
    as (items & srcs & refs & Hex & _ & Href & Hv).
  rewrite Hv in Hrun. unfold generate_score_dump in Hrun.
  apply bind_inr in Hrun as (conv & s0 & Hg & Hrun).
  unfold gets in Hg. injection Hg as <- <-. simpl in Hrun.
  apply bind_inr in Hrun as ([hyps0 output0] & s1 & Hconv & Hrun).
  unfold in_world, call_batch_convert, bind, modify, lift in Hconv. simpl in Hconv.
  destruct (batch_convert _ _ _) as [e|[hyps output]] eqn:Hbc; [done|].
  injection Hconv as <- <- <-.
  apply bind_inr in Hrun as ([] & s2 & Hb & Hrun).
  unfold on_score_bag, update_metric in Hb. simpl in Hb.
  destruct (metrics (score_metric_bag u) !! "bleu") as [mb|] eqn:Hmb; [|done].
  injection Hb as <-.
  apply bind_inr in Hrun as ([] & s3 & Hc & Hrun).
  unfold on_score_bag, update_metric in Hc. simpl in Hc.
  rewrite lookup_insert_ne in Hc by done.
  destruct (metrics (score_metric_bag u) !! "chrf") as [mc|] eqn:Hmc; [|done].
  injection Hc as <-.
  apply bind_inr in Hrun as ([] & s4 & Hs & Hrun).
  unfold on_score_bag in Hs. injection Hs as <-. 
  match type of Hrun with
  | _ ?s = _ => pose proof (dumps_only_streams srcs refs hyps s) as Hdump
  end.
  rewrite Hrun in Hdump. destruct Hdump as (Hu & _ & Hcalls). simpl in *.
  exists items, refs, hyps, output, mb, mc.
  subst u'. simpl. do 5 (split; [done|]). by destruct u.
Qed.

(** X7. When an item of ['source_text'] is not a string, the call fails
    only when that item is written.  By then the generator has run and
    both metrics hold this batch; the lines before the item are in the
    source stream's buffer, unflushed, and no other stream has received
    anything. *)
Theorem non_string_item_fails_late
    (u : MTBleuChrfEvalUnit) (w : World) (batch : Seq2SeqBatch)
    (items : list (string * PyVal)) (srcs refs : PyVal) (pre : list string)
    (v : PyVal) (rest : list PyVal) (hyps : list string) (output : Tensor)
    (mb mc : Metric) (hs : nat) :
  example batch = PyDict items →
  getitem items "source_text" = Some srcs → is_Iterable srcs = true →
  iterate srcs = (PyStr <$> pre) ++ v :: rest →
  (∀ s, v ≠ PyStr s) →
  getitem items "target_text" = Some refs → is_Iterable refs = true →
  batch_convert (_converter u) (source_seqs batch) (source_padding_mask batch)
    = inr (hyps, output) →
  metrics (score_metric_bag u) !! "bleu" = Some mb →
  metrics (score_metric_bag u) !! "chrf" = Some mc →
  _src_output_stream u = Some hs →
  ∃ msg u' w',
    MTBleuChrfEvalUnit__call__ batch (u, w) = (inl (TypeError msg), (u', w')) ∧
    metrics (score_metric_bag u') !! "bleu" = Some (fed (TextUpdate refs hyps) mb) ∧
    metrics (score_metric_bag u') !! "chrf" = Some (fed (TextUpdate refs hyps) mc) ∧
    generator_calls w'
      = generator_calls w ++ [(source_seqs batch, source_padding_mask batch)] ∧
    streams w' = alter (buffered (lines_text pre)) hs (streams w).
Proof.
  intros Hex Hsrc Hsi Hit Hv Href Hri Hconv Hb Hc Hs.
  rewrite call_after_validate, validate_cases, Hex, Hsrc, Hsi, Href, Hri.
  unfold generate_score_dump.
  erewrite bind_returns; [|reflexivity]. simpl.
  erewrite bind_returns;
    [|unfold in_world, call_batch_convert, bind, modify, lift; simpl;
      rewrite Hconv; reflexivity].
  cbv beta iota.
  erewrite bind_returns;
    [|unfold on_score_bag, update_metric; simpl; rewrite Hb; reflexivity].
  erewrite bind_returns;
    [|unfold on_score_bag, update_metric; simpl;
      rewrite lookup_insert_ne, Hc by done; reflexivity].
  erewrite bind_returns; [|reflexivity].
  erewrite bind_returns; [|reflexivity]. simpl. rewrite Hs, Hit.
  eexists _, _, _.
  split.
  { erewrite bind_raises; [reflexivity|].
    erewrite bind_raises; [reflexivity|]. by apply write_objects_stuck. }
  simpl. split; [|split; [apply lookup_insert_eq|done]].
  rewrite lookup_insert_ne by done. apply lookup_insert_eq.
Qed.

End Units.

(** The sample unit with a generator that runs out of memory. *)
Lemma generator_failure_leaves_bag_witness :
  ∃ w',
    @MTBleuChrfEvalUnit__call__ failing_generator
      (Sample.batch Sample.well_formed_example) (Sample.score_unit, Sample.world)
    = (inl (RuntimeError "CUDA out of memory"), (Sample.score_unit, w')) ∧
    streams w' = streams Sample.world.
Proof.
  eexists. split.
  - exact (@generator_failure_leaves_bag failing_generator Sample.score_unit Sample.world
             (Sample.batch Sample.well_formed_example) _ eq_refl eq_refl).
  - reflexivity.
Defined.

(** The sample batch on the sample writer: one update of ['bleu']. *)
Lemma score_unit_updates_metrics_witness :
  ∃ u' w' mb hyps,
    @MTBleuChrfEvalUnit__call__ Sample.writer (Sample.batch Sample.well_formed_example)
      (Sample.score_unit, Sample.world) = (inr tt, (u', w')) ∧
    metrics (score_metric_bag Sample.score_unit) !! "bleu" = Some mb ∧
    metrics (score_metric_bag u') !! "bleu"
      = Some (fed (TextUpdate (PyList [PyStr "salut"; PyStr "le monde"]) hyps) mb).
Proof.
  destruct (@MTBleuChrfEvalUnit__call__ Sample.writer
              (Sample.batch Sample.well_formed_example)
              (Sample.score_unit, Sample.world)) as [[e|[]] [u' w']] eqn:Hrun;
    [vm_compute in Hrun; discriminate Hrun|].
  destruct (@score_unit_updates_metrics Sample.writer Sample.score_unit u'
              Sample.world w' _ Hrun)
    as (items & refs & hyps & output & mb & mc & Hex & Href & _ & Hb & _ & Hm & _).
  exists u', w', mb, hyps. split; [reflexivity|]. split; [exact Hb|].
  rewrite Hm. rewrite lookup_insert_ne by done. rewrite lookup_insert_eq.
  vm_compute in Hex. injection Hex as <-. vm_compute in Href. injection Href as <-.
  reflexivity.
Defined.

(** A number between two sentences: the first sentence stays in the buffer
    of the source stream. *)
Lemma non_string_item_fails_late_witness :
  ∃ msg u' w',
    @MTBleuChrfEvalUnit__call__ Sample.writer (Sample.batch number_in_source)
      (Sample.score_unit, Sample.world) = (inl (TypeError msg), (u', w')) ∧
    streams w' = alter (buffered (lines_text ["hello"])) 0 (streams Sample.world).
Proof.
  destruct (@non_string_item_fails_late Sample.writer Sample.score_unit Sample.world
              (Sample.batch number_in_source)
              [("source_text", PyList [PyStr "hello"; PyInt 7; PyStr "the world"]);
               ("target_text", PyList [PyStr "salut"; PyStr "le monde"])]
              (PyList [PyStr "hello"; PyInt 7; PyStr "the world"])
              (PyList [PyStr "salut"; PyStr "le monde"])
              ["hello"] (PyInt 7) [PyStr "the world"] ["bonjour"; "le monde"] [2%Z]
              {| accumulator := new_metric BleuMetric "cpu"; persistent := false |}
              {| accumulator := new_metric ChrfMetric "cpu"; persistent := false |} 0)
    as (msg & u' & w' & Hrun & _ & _ & _ & Hstreams).
  1-4: reflexivity.
  1: (intros s Hs; discriminate Hs).
  1-3: reflexivity.
  1-2: (vm_compute; reflexivity).
  1: reflexivity.
  exists msg, u', w'. split; [exact Hrun|exact Hstreams].
Defined.

End UnitExtraProps.

(** ** More on building the evaluator *)

Module LoaderExtraProps.
Import MTEval MTEvalSpec MonadFacts UnitProps LoaderProps.

Section Loader.
Context `{Collaborators}.

Variables (config : Config.MTEvalConfig) (gangs : Gangs) (tokenizer : TextTokenizer)
          (generator : Seq2SeqGenerator) (criterion : MTCriterion).

Lemma result_built_readers ds first vars :
  loop_data_readers (loop_vars config gangs tokenizer generator criterion ds first vars)
  = loop_data_readers vars ++ built_readers config gangs tokenizer ds (loop_seed vars).
Proof.
  revert first vars. induction ds as [|d ds IH]; intros first vars; simpl.
  - by rewrite app_nil_r.
  - rewrite IH. simpl. by rewrite <- !app_assoc.
Qed.

Lemma built_readers_lookup ds k d s :
  ds !! k = Some d →
  built_readers config gangs tokenizer ds s !! (2 * k)
    = direction_readers config gangs tokenizer d (s + 2 * Z.of_nat k)%Z !! 0 ∧
  built_readers config gangs tokenizer ds s !! (2 * k + 1)
    = direction_readers config gangs tokenizer d (s + 2 * Z.of_nat k)%Z !! 1.
Proof.
  revert k s. induction ds as [|d' ds IH]; intros k s Hk; [done|].
  destruct k as [|k]; simpl in Hk.
  - simplify_eq. simpl. by rewrite Z.add_0_r.
  - replace (2 * S k) with (S (S (2 * k))) by lia.
    replace (S (S (2 * k)) + 1) with (S (S (2 * k + 1))) by lia.
    destruct (IH k (s + 1 + 1)%Z Hk) as [H0 H1].
    replace (s + 2 * Z.of_nat (S k))%Z with (s + 1 + 1 + 2 * Z.of_nat k)%Z by lia.
    rewrite <- H0, <- H1. by generalize (2 * k) (2 * k + 1).
Qed.

Lemma built_units_lookup ds k d first :
  ds !! k = Some d →
  ∃ src ref hyp,
    built_units gangs tokenizer generator criterion ds first !! (2 * k)
      = Some (LossUnit (MTLossEvalUnit__init__ criterion d gangs)) ∧
    built_units gangs tokenizer generator criterion ds first !! (2 * k + 1)
      = Some (ScoreUnit (built_score_unit d generator tokenizer gangs src ref hyp)).
Proof.
  revert k first. induction ds as [|d' ds IH]; intros k first Hk; [done|].
  destruct k as [|k]; simpl in Hk.
  - simplify_eq. by eexists _, _, _.
  - replace (2 * S k) with (S (S (2 * k))) by lia.
    replace (S (S (2 * k)) + 1) with (S (S (2 * k + 1))) by lia.
    destruct (IH k ((λ n, n + 3) <$> first) Hk) as (src & ref & hyp & H0 & H1).
    exists src, ref, hyp. rewrite <- H0, <- H1. by generalize (2 * k) (2 * k + 1).
Qed.

Lemma built_lengths ds first s :
  length (built_units gangs tokenizer generator criterion ds first)
  = length (built_readers config gangs tokenizer ds s).
Proof.
  revert first s. induction ds as [|d ds IH]; intros first s; [done|].
  simpl. by rewrite (IH _ (s + 1 + 1)%Z).
Qed.

End Loader.

Section Load.
Context `{Collaborators}.

(** X8. In an evaluator that [load_mt_evaluator] returns, the [i]-th unit
    goes with the [i]-th reader.  For the [k]-th direction, position [2k]
    holds its loss unit with a reader that batches by length
    ([max_num_tokens]), and position [2k+1] its scoring unit with a reader
    that batches by a fixed size (the generator's [batch_size]); both
    readers read that direction, shard over the data-parallel gang and
    synchronise [UNTIL_LAST]. *)
Theorem evaluator_pairs_units_with_readers context config output_dir
    (w w' : World) (ev : Evaluator) (k : nat) (d : Direction) :
  load_mt_evaluator context config output_dir w = (inr ev, w') →
  evaluated_directions context config !! k = Some d →
  length (units ev) = length (data_readers ev) ∧
  ∃ lu su r1 r2,
    units ev !! (2 * k) = Some (LossUnit lu) ∧
    loss_display_name lu = "loss/" +:+ format d ∧
    units ev !! (2 * k + 1) = Some (ScoreUnit su) ∧
    score_display_name su = "score/" +:+ format d ∧
    converter_target_lang (_converter su) = target_lang d ∧
    data_readers ev !! (2 * k) = Some r1 ∧
    data_readers ev !! (2 * k + 1) = Some r2 ∧
    direction (read_options r1) = d ∧
    direction (read_options r2) = d ∧
    batching (read_options r1)
      = LengthBatching (Config.max_num_tokens (Config.dataset config)) ∧
    batching (read_options r2)
      = StaticBatching (Config.batch_size (Config.seq2seq_generator config)) ∧
    sync_mode (read_options r1) = UNTIL_LAST ∧
    sync_mode (read_options r2) = UNTIL_LAST ∧
    reader_gang r1 = dp (setup_gangs context config) ∧
    reader_gang r2 = dp (setup_gangs context config).
Proof.
  intros Hrun Hk. rewrite load_mt_evaluator_loop in Hrun. cbv zeta in Hrun.
  destruct (directions_loop _ _ _ _ _ _ _ _ _ _) as [[e|vars] w1] eqn:Hloop; [done|].
  simplify_eq. simpl.
  match type of Hloop with
  | directions_loop _ ?cfg _ ?g ?t ?gen ?crit ?l ?v _ = _ =>
      assert (∃ first, vars = loop_vars cfg g t gen crit l first v) as [first ->];
      [ apply loop_returned in Hloop; destruct (decide _);
        [destruct Hloop as (_ & -> & _) | destruct Hloop as (-> & _)]; by eexists
      | rewrite (result_units cfg g t gen crit l first v),
                (result_built_readers cfg g t gen crit l first v);
        destruct (built_units_lookup g t gen crit l k d first Hk)
          as (src & ref & hyp & Hu0 & Hu1);
        destruct (built_readers_lookup cfg g t l k d (loop_seed v) Hk) as [Hr0 Hr1];
        pose proof (built_lengths cfg g t gen crit l first (loop_seed v)) as Hlen ]
  end.
  simpl in *. split; [done|].
  eexists _, _, _, _. rewrite Hu0, Hu1, Hr0, Hr1. simpl. by repeat split.
Qed.

End Load.

(** The second direction of the sample writer. *)
Lemma evaluator_pairs_units_with_readers_witness :
  ∃ ev w' su r2,
    @load_mt_evaluator Sample.writer Sample.permissive_context Sample.config
      Sample.output_dir Sample.empty_world = (inr ev, w') ∧
    units ev !! 3 = Some (ScoreUnit su) ∧
    score_display_name su = "score/eng-deu" ∧
    data_readers ev !! 3 = Some r2 ∧
    direction (read_options r2) = Sample.eng_deu ∧
    batching (read_options r2) = StaticBatching 8.
Proof.
  destruct (@load_mt_evaluator Sample.writer Sample.permissive_context Sample.config
              Sample.output_dir Sample.empty_world) as [[e|ev] w'] eqn:Hrun;
    [vm_compute in Hrun; discriminate Hrun|].
  destruct (@evaluator_pairs_units_with_readers Sample.writer Sample.permissive_context
              Sample.config Sample.output_dir Sample.empty_world w' ev 1 Sample.eng_deu
              Hrun eq_refl)
    as (_ & lu & su & r1 & r2 & _ & _ & Hsu & Hname & _ & _ & Hr2 & _ & Hd & _ & Hb & _).
  exists ev, w', su, r2. split; [reflexivity|].
  split; [exact Hsu|]. split; [exact Hname|]. split; [exact Hr2|].
  split; [exact Hd|exact Hb].
Defined.

End LoaderExtraProps.

(** ** The stopwatch *)

Module StopwatchProps.
Import Profiler.

Section Stopwatch.
Context {float : Type}.
Variable perf_counter : nat → float.
Variable fsub : float → float → float.
Variable zero : float.

Implicit Types (sw : Stopwatch float) (k : Clock).

#[local] Abbreviation invoke := (Profiler.invoke perf_counter fsub zero).
#[local] Abbreviation invoke_all := (Profiler.invoke_all perf_counter fsub zero).
#[local] Abbreviation timed := (Profiler.timed perf_counter).

(** What one call does, in one equation per method. *)
Lemma start_stopped sw k :
  _start_time sw = None →
  start perf_counter (sw, k)
  = (inr tt,
     (set_start_time (Some (perf_counter (reads k))) sw,
      {| reads := S (reads k);
         synchronized :=
           synchronized k ++ (if waits sw then from_option (λ d, [d]) [] (_device sw) else []) |})).
Proof.
  intros Hs. unfold start, waits, _sync_device, lbind, read_clock, cuda_synchronize.
  simpl. rewrite Hs. destruct (_device sw) as [d|]; simpl.
  - destruct (decide (device_type d = "cuda")) as [Hd|Hd]; simpl.
    + by rewrite bool_decide_eq_true_2.
    + rewrite bool_decide_eq_false_2 by done. destruct k. simpl. by rewrite app_nil_r.
  - destruct k. simpl. by rewrite app_nil_r.
Qed.

Lemma reset_running sw k t :
  _start_time sw = Some t →
  reset perf_counter (sw, k)
  = (inr tt,
     (set_start_time (Some (perf_counter (reads k))) sw,
      {| reads := S (reads k);
         synchronized :=
           synchronized k ++ (if waits sw then from_option (λ d, [d]) [] (_device sw) else []) |})).
Proof.
  intros Hs. unfold reset, waits, _sync_device, lbind, read_clock, cuda_synchronize.
  simpl. rewrite Hs. destruct (_device sw) as [d|]; simpl.
  - destruct (decide (device_type d = "cuda")) as [Hd|Hd]; simpl.
    + by rewrite bool_decide_eq_true_2.
    + rewrite bool_decide_eq_false_2 by done. destruct k. simpl. by rewrite app_nil_r.
  - destruct k. simpl. by rewrite app_nil_r.
Qed.

Lemma elapsed_running sw k t :
  _start_time sw = Some t →
  get_elapsed_time perf_counter fsub zero (sw, k)
  = (inr (fsub (perf_counter (reads k)) t),
     (sw,
      {| reads := S (reads k);
         synchronized :=
           synchronized k ++ (if waits sw then from_option (λ d, [d]) [] (_device sw) else []) |})).
Proof.
  intros Hs.
  unfold get_elapsed_time, waits, _sync_device, lbind, lret, read_clock, cuda_synchronize.
  simpl. rewrite Hs. destruct (_device sw) as [d|]; simpl.
  - destruct (decide (device_type d = "cuda")) as [Hd|Hd]; simpl.
    + by rewrite bool_decide_eq_true_2.
    + rewrite bool_decide_eq_false_2 by done. destruct k. simpl. by rewrite app_nil_r.
  - destruct k. simpl. by rewrite app_nil_r.
Qed.

Lemma elapsed_stopped sw k :
  _start_time sw = None →
  get_elapsed_time perf_counter fsub zero (sw, k) = (inr zero, (sw, k)).
Proof. intros Hs. unfold get_elapsed_time. simpl. by rewrite Hs. Qed.

Lemma start_running sw k t :
  _start_time sw = Some t →
  start perf_counter (sw, k)
  = (inl (InvalidOperationError "The stopwatch is already running."), (sw, k)).
Proof. intros Hs. unfold start. simpl. by rewrite Hs. Qed.

Lemma reset_stopped sw k :
  _start_time sw = None →
  reset perf_counter (sw, k)
  = (inl (InvalidOperationError "The stopwatch is not running."), (sw, k)).
Proof. intros Hs. unfold reset. simpl. by rewrite Hs. Qed.

Lemma enter_running sw k t :
  _start_time sw = Some t → __enter__ perf_counter (sw, k) = (inr tt, (sw, k)).
Proof. intros Hs. unfold __enter__. simpl. by rewrite Hs. Qed.

Lemma enter_stopped sw k :
  _start_time sw = None → __enter__ perf_counter (sw, k) = start perf_counter (sw, k).
Proof. intros Hs. unfold __enter__. simpl. by rewrite Hs. Qed.

(** One call, by the method called and by whether the stopwatch runs. *)
Ltac call_cases c sw k t Hs :=
  destruct c; unfold Profiler.invoke, __exit__, lbind;
  destruct (_start_time sw) as [t|] eqn:Hs;
  rewrite ?(enter_running sw k t Hs), ?(enter_stopped sw k Hs),
          ?(start_running sw k t Hs), ?(start_stopped sw k Hs),
          ?(reset_running sw k t Hs), ?(reset_stopped sw k Hs),
          ?(elapsed_running sw k t Hs), ?(elapsed_stopped sw k Hs);
  unfold stop, lret; simpl; rewrite ?Hs.

(** X9. Whether a stopwatch runs after a call does not depend on whether
    the call raised.  After [start()] or [__enter__()] it runs: [start]
    raises [InvalidOperationError] exactly when it already ran, and then
    changes nothing; [__enter__] never raises and leaves a running
    stopwatch untouched.  After [stop()] or [__exit__()], which never
    raise, it does not run.  [reset()] raises exactly when the stopwatch
    does not run, and [get_elapsed_time()] never raises; neither changes
    whether it runs.  A call that raises leaves stopwatch and clock as
    they were. *)
Theorem stopwatch_running_after_call (c : Call) sw k :
  let '(r, (sw', k')) := invoke c (sw, k) in
  (is_running sw' =
     match c with
     | CallStart | CallEnter => true
     | CallStop | CallExit => false
     | CallReset | CallElapsed => is_running sw
     end) ∧
  (is_Some (_start_time sw') → is_running sw = true ∨ _start_time sw' = Some (perf_counter (reads k))) ∧
  match r with
  | inr _ =>
      match c with
      | CallStart => is_running sw = false
      | CallReset => is_running sw = true
      | _ => True
      end
  | inl e =>
      (sw', k') = (sw, k) ∧
      ((c = CallStart ∧ is_running sw = true ∧
        e = InvalidOperationError "The stopwatch is already running.") ∨
       (c = CallReset ∧ is_running sw = false ∧
        e = InvalidOperationError "The stopwatch is not running."))
  end.
Proof.
  unfold is_running. call_cases c sw k t Hs.
  all: split; [done|]; split; [try (by left); try (by right); try (by intros [? ?])|].
  all: try done.
  all: split; [done|]; try (by left); try (by right).
Qed.

(** X10. A stopwatch waits for its device exactly when it reads the clock,
    and only for a CUDA device.  Over any sequence of calls, the device
    of the stopwatch never changes; with a CUDA device, the devices
    waited for grow by one entry, that device, for each clock reading
    taken; with a CPU device or none, nothing is ever waited for. *)
Theorem stopwatch_waits_for_each_reading (cs : list Call) sw k :
  let s' := invoke_all cs (sw, k) in
  _device s'.1 = _device sw ∧
  (reads k ≤ reads s'.2)%nat ∧
  synchronized s'.2
  = synchronized k
    ++ match _device sw with
       | Some d =>
           if decide (device_type d = "cuda")
           then replicate (reads s'.2 - reads k) d else []
       | None => []
       end.
Proof.
  revert sw k. induction cs as [|c cs IH]; intros sw k; simpl.
  - split; [done|]. split; [done|]. rewrite Nat.sub_diag.
    destruct (_device sw) as [d|]; [destruct (decide _)|]; simpl; by rewrite app_nil_r.
  - assert (Hstep :
      _device (invoke c (sw, k)).2.1 = _device sw ∧
      ((invoke c (sw, k)).2.2 = k ∨
       (invoke c (sw, k)).2.2
       = {| reads := S (reads k);
            synchronized := synchronized k
              ++ (if waits sw then from_option (λ d, [d]) [] (_device sw) else []) |})).
    { call_cases c sw k t Hs; split; try done; try (by left); by right. }
    destruct (invoke c (sw, k)) as [r [sw1 k1]]. simpl in Hstep.
    destruct Hstep as [Hdev Hk1].
    destruct (IH sw1 k1) as (Hd & Hle & Hsync). simpl.
    remember (invoke_all cs (sw1, k1)) as s2 eqn:Hs2. clear Hs2.
    rewrite Hd, Hdev, Hsync, Hdev. split; [done|].
    destruct Hk1 as [->|Hk]; [done|].
    assert (Hr : reads k1 = S (reads k)) by (by rewrite Hk).
    assert (Hw : synchronized k1 = synchronized k
              ++ (if waits sw then from_option (λ d, [d]) [] (_device sw) else []))
      by (by rewrite Hk).
    clear Hk. split; [lia|]. rewrite Hw. unfold waits.
    destruct (_device sw) as [d|]; simpl; [|by rewrite !app_nil_r].
    destruct (decide (device_type d = "cuda")) as [Hc|Hc].
    + rewrite bool_decide_eq_true_2 by done. rewrite <- app_assoc. f_equal.
      by replace (reads s2.2 - reads k) with (S (reads s2.2 - reads k1)) by lia.
    + rewrite bool_decide_eq_false_2 by done. by rewrite !app_nil_r.
Qed.

Lemma invoke_timed (c : Call) s : timed s → timed (invoke c s).2.
Proof.
  destruct s as [sw k]. unfold Profiler.timed. simpl. intros Ht.
  call_cases c sw k t Hs; intros t' Ht'; simplify_eq;
    try (destruct (Ht _ eq_refl) as (i & ? & ->); exists i; split; [lia|done]);
    try (exists (reads k); split; [lia|done]).
Qed.

Lemma invoke_all_timed (cs : list Call) s : timed s → timed (invoke_all cs s).
Proof.
  revert s. induction cs as [|c cs IH]; intros s Hs; [done|].
  simpl. by apply IH, invoke_timed.
Qed.

(** X11. What [get_elapsed_time()] returns after any sequence of calls on a
    stopwatch that was built stopped: [0.0], without reading the clock or
    changing anything, when the stopwatch does not run; otherwise the
    difference between a new reading of the clock and the stored start
    time, which is a reading that was taken earlier.  It leaves the start
    time alone, so asking twice measures from the same start. *)
Theorem elapsed_time_since_start (cs : list Call) (d : option Device) k :
  let s := invoke_all cs ({| _start_time := None; _device := d |}, k) in
  let '(r, s') := get_elapsed_time perf_counter fsub zero s in
  _start_time s'.1 = _start_time s.1 ∧
  match _start_time s.1 with
  | None => r = inr zero ∧ s' = s
  | Some t =>
      ∃ i, (i < reads s.2)%nat ∧ t = perf_counter i ∧
           r = inr (fsub (perf_counter (reads s.2)) (perf_counter i)) ∧
           reads s'.2 = S (reads s.2)
  end.
Proof.
  intros s.
  assert (Hs : timed s) by (apply invoke_all_timed; by intros t).
  destruct s as [sw k1]. unfold Profiler.timed in Hs. simpl in *.
  destruct (_start_time sw) as [t|] eqn:Ht.
  - rewrite (elapsed_running sw k1 t Ht). simpl. split; [done|].
    destruct (Hs t eq_refl) as (i & Hi & ->). exists i. by repeat split.
  - rewrite (elapsed_stopped sw k1 Ht). simpl. by rewrite Ht.
Qed.

(** X12. The constructor accepts no device, a CPU device or a CUDA device,
    and raises a [ValueError] naming the type for any other, having done
    nothing.  When it returns, the stopwatch carries that device; with
    [start=True] it runs from a reading taken by the constructor, with
    [start=False] it does not run and the clock was not read. *)
Theorem stopwatch_constructor (start_now : bool) (d : option Device) k :
  let '(r, k') := Stopwatch__init__ perf_counter start_now d k in
  match r with
  | inl e =>
      k' = k ∧
      ∃ dev, d = Some dev ∧ device_type dev ≠ "cpu" ∧ device_type dev ≠ "cuda" ∧
             e = Python (ValueError
                   ("The type of `device` must be `cpu` or `cuda`, but is `"
                    +:+ device_type dev +:+ "` instead."))
  | inr sw =>
      (∀ dev, d = Some dev → device_type dev = "cpu" ∨ device_type dev = "cuda") ∧
      _device sw = d ∧
      is_running sw = start_now ∧
      (if start_now
       then _start_time sw = Some (perf_counter (reads k)) ∧ reads k' = S (reads k)
       else k' = k)
  end.
Proof.
  unfold Stopwatch__init__. cbv zeta.
  assert (Hok : ∀ dev, ¬ (device_type dev ≠ "cpu" ∧ device_type dev ≠ "cuda") →
            device_type dev = "cpu" ∨ device_type dev = "cuda").
  { intros dev Hn. destruct (decide (device_type dev = "cpu")); [by left|].
    destruct (decide (device_type dev = "cuda")); [by right|]. by destruct Hn. }
  pose proof (start_stopped {| _start_time := None; _device := d |} k eq_refl) as Hstart.
  destruct d as [dev|]; [destruct (decide _) as [[Hcpu Hcuda]|Hn]|].
  - split; [done|]. by exists dev.
  - destruct start_now.
    + rewrite Hstart. simpl.
      split; [intros ? [= <-]; by apply Hok|]. by repeat split.
    + split; [intros ? [= <-]; by apply Hok|]. by repeat split.
  - destruct start_now.
    + rewrite Hstart. simpl. by repeat split.
    + by repeat split.
Qed.

End Stopwatch.

(** Starting a stopwatch that runs, on the sample clock. *)
Lemma stopwatch_running_after_call_witness :
  let running := set_start_time (Some 100%Z) (StopwatchSample.stopped_on None) in
  let k := {| reads := 1; synchronized := [] |} in
  let '(r, (sw', k')) :=
    Profiler.invoke StopwatchSample.ticks Z.sub 0%Z CallStart (running, k) in
  is_running sw' = true ∧
  (sw', k') = (running, k) ∧
  r = inl (InvalidOperationError "The stopwatch is already running.").
Proof.
  intros running k.
  generalize (stopwatch_running_after_call StopwatchSample.ticks Z.sub 0%Z
                CallStart running k).
  destruct (Profiler.invoke StopwatchSample.ticks Z.sub 0%Z CallStart (running, k))
    as [[e|[]] [sw' k']]; intros (Hrun & _ & Hres).
  - destruct Hres as (Heq & [(_ & _ & ->)|(Hc & _)]); [|discriminate Hc].
    split; [exact Hrun|]. split; [exact Heq|reflexivity].
  - discriminate Hres.
Defined.

(** A stopwatch on a CUDA device that is started, asked twice and reset. *)
Lemma stopwatch_waits_for_each_reading_witness :
  let s' := Profiler.invoke_all StopwatchSample.ticks Z.sub 0%Z
              [CallStart; CallElapsed; CallElapsed; CallReset; CallStop; CallReset]
              (StopwatchSample.stopped_on (Some StopwatchSample.cuda0),
               StopwatchSample.fresh_clock) in
  reads s'.2 = 4 ∧ synchronized s'.2 = replicate 4 StopwatchSample.cuda0.
Proof.
  intros s'.
  destruct (stopwatch_waits_for_each_reading StopwatchSample.ticks Z.sub 0%Z
              [CallStart; CallElapsed; CallElapsed; CallReset; CallStop; CallReset]
              (StopwatchSample.stopped_on (Some StopwatchSample.cuda0))
              StopwatchSample.fresh_clock) as (_ & _ & Hsync).
  split; [reflexivity|]. exact Hsync.
Defined.

(** The elapsed time after a start and a reset, on the sample clock: the
    reset took the second reading, and the time is measured from it. *)
Lemma elapsed_time_since_start_witness :
  let s := Profiler.invoke_all StopwatchSample.ticks Z.sub 0%Z
             [CallStart; CallReset; CallElapsed]
             (StopwatchSample.stopped_on None, StopwatchSample.fresh_clock) in
  _start_time s.1 = Some (StopwatchSample.ticks 1) ∧
  let '(r, s') := get_elapsed_time StopwatchSample.ticks Z.sub 0%Z s in
  _start_time s'.1 = _start_time s.1 ∧
  ∃ i, (i < reads s.2)%nat ∧ StopwatchSample.ticks 1 = StopwatchSample.ticks i ∧
       r = inr (StopwatchSample.ticks (reads s.2) - StopwatchSample.ticks i)%Z ∧
       reads s'.2 = S (reads s.2).
Proof.
  intros s. split; [reflexivity|].
  exact (elapsed_time_since_start StopwatchSample.ticks Z.sub 0%Z
           [CallStart; CallReset; CallElapsed] None StopwatchSample.fresh_clock).
Defined.

(** A device that is neither a CPU nor a CUDA device. *)
Lemma stopwatch_constructor_witness :
  Stopwatch__init__ StopwatchSample.ticks true (Some StopwatchSample.tpu)
    StopwatchSample.fresh_clock
  = (inl (Python (ValueError
       "The type of `device` must be `cpu` or `cuda`, but is `xla` instead.")),
     StopwatchSample.fresh_clock).
Proof.
  generalize (stopwatch_constructor StopwatchSample.ticks true
                (Some StopwatchSample.tpu) StopwatchSample.fresh_clock).
  destruct (Stopwatch__init__ StopwatchSample.ticks true (Some StopwatchSample.tpu)
              StopwatchSample.fresh_clock) as [[e|sw] k'].
  - intros (-> & dev & [= <-] & _ & _ & ->). reflexivity.
  - intros (Hok & _). destruct (Hok _ eq_refl) as [Hd|Hd]; discriminate Hd.
Defined.

End StopwatchProps.

(** ** The LLaMA tokenizer *)

Module LLaMAProps.
Import LLaMA.

(** A closed decidable statement, by evaluation. *)
Ltac by_evaluation :=
  match goal with
  | |- ?P =>
      let H := fresh in
      assert (H : bool_decide P = true) by (vm_compute; reflexivity);
      exact (bool_decide_eq_true_1 _ H)
  end.

(** Membership in a list that is written out, case by case. *)
Ltac each_member H :=
  repeat (apply elem_of_cons in H as [->|H]); [..|by apply elem_of_nil in H].

(** The appending loop builds the named tokens followed by the reserved
    ones. *)
Lemma foldl_append {A B} (f : B → A) (l : list A) (js : list B) :
  foldl (λ acc j, acc ++ [f j]) l js = l ++ (f <$> js).
Proof.
  revert l. induction js as [|j js IH]; intros l; simpl.
  - by rewrite app_nil_r.
  - by rewrite IH, <- app_assoc.
Qed.

Lemma all_special_tokens_eq :
  all_special_tokens = named_special_tokens ++ (reserved_special_token <$> seq 0 245).
Proof. unfold all_special_tokens. by rewrite foldl_append. Qed.

Lemma all_special_tokens_length : length all_special_tokens = 256.
Proof. rewrite all_special_tokens_eq. by rewrite length_app, length_fmap, length_seq. Qed.

Lemma all_special_tokens_NoDup : NoDup all_special_tokens.
Proof.
  assert (H : bool_decide (NoDup all_special_tokens) = true) by (vm_compute; reflexivity).
  by apply bool_decide_eq_true_1 in H.
Qed.

Lemma reserved_numbering (i : nat) :
  (i < 247)%nat →
  "<|reserved_special_token_" +:+ pretty i +:+ "|>" ∈ all_special_tokens.
Proof.
  intros Hi.
  assert (H : bool_decide (Forall (λ i, "<|reserved_special_token_" +:+ pretty i +:+ "|>"
                                        ∈ all_special_tokens) (seq 0 247)) = true)
    by (vm_compute; reflexivity).
  apply bool_decide_eq_true_1 in H. rewrite Forall_forall in H.
  apply H, elem_of_seq. lia.
Qed.

Section Tokenizer.
Context {Path Encoding TiktokenEncoder : Type}.
Variable TiktokenTokenizer__init__ : Path → TiktokenArgs → LibExn + Encoding.
Variable TiktokenEncoder__init__ : EncoderArgs Encoding → LibExn + TiktokenEncoder.

#[local] Abbreviation new_tokenizer := (LLaMA3Tokenizer__init__ TiktokenTokenizer__init__).
#[local] Abbreviation new_encoder := (create_encoder TiktokenEncoder__init__).

Lemma new_tokenizer_eos path instruct self :
  new_tokenizer path instruct = inr self →
  _eos_token self = if instruct then "<|eot_id|>" else "<|end_of_text|>".
Proof.
  unfold LLaMA3Tokenizer__init__, ebind.
  destruct (TiktokenTokenizer__init__ _ _); [done|]. by intros [= <-].
Qed.

(** X13. Whatever [path] and [instruct] are, [LLaMA3Tokenizer] hands
    [TiktokenTokenizer] 256 special tokens, all different, among them the
    BOS, EOS, PAD, BOH and EOH tokens that it names in the same call, and
    the reserved tokens numbered 0 to 246 without a gap; ["<|eot_id|>"]
    is the one at index 9.  The EOS token is ["<|eot_id|>"] with
    [instruct] and ["<|end_of_text|>"] without, there is no UNK token, and
    the tokenizer keeps the encoding that the base constructor built.
    An error of the base constructor comes out unchanged. *)
Theorem llama3_special_tokens path instruct :
  ∃ args,
    match LLaMA3Tokenizer__init__ TiktokenTokenizer__init__ path instruct with
    | inr self =>
        TiktokenTokenizer__init__ path args = inr (_encoding self) ∧
        _eos_token self = eos_token args
    | inl e => TiktokenTokenizer__init__ path args = inl e
    end ∧
    length (special_tokens args) = 256 ∧
    NoDup (special_tokens args) ∧
    (∀ t, t ∈ [bos_token args; eos_token args; pad_token args;
                boh_token args; eoh_token args] → t ∈ special_tokens args) ∧
    (∀ i, (i < 247)%nat →
          "<|reserved_special_token_" +:+ pretty i +:+ "|>" ∈ special_tokens args) ∧
    special_tokens args !! 9 = Some "<|eot_id|>" ∧
    eos_token args = (if instruct then "<|eot_id|>" else "<|end_of_text|>") ∧
    bos_token args = "<|begin_of_text|>" ∧
    unk_token args = None.
Proof.
  unfold LLaMA3Tokenizer__init__, ebind. eexists. split.
  { destruct (TiktokenTokenizer__init__ _ _) as [e|enc] eqn:Hbase; [exact Hbase|].
    split; [exact Hbase|reflexivity]. }
  cbn [special_tokens bos_token eos_token pad_token boh_token eoh_token unk_token].
  split; [apply all_special_tokens_length|].
  split; [apply all_special_tokens_NoDup|].
  split.
  { intros t Ht. destruct instruct; each_member Ht; by_evaluation. }
  split; [apply reserved_numbering|].
  by repeat split.
Qed.

(** X14. [create_encoder] checks its arguments in the order [task], [lang],
    [mode] and raises a [ValueError] naming the first one that is not
    acceptable, before any encoder is built: [task] and [lang] must be
    [None], and [mode] one of [None], [default], [prompt],
    [prompt_response], [as_is].  Otherwise the result is that of
    [TiktokenEncoder] on the tokenizer's encoding with the given device
    and [pin_memory]; the prefix is empty or the BOS token, the suffix
    empty or the tokenizer's EOS token, and every token of both is one of
    the special tokens that the tokenizer registered. *)
Theorem create_encoder_checks path instruct self task lang mode dev pin :
  new_tokenizer path instruct = inr self →
  match task, lang with
  | Some t, _ =>
      new_encoder self task lang mode dev pin
      = inl (Python (ValueError ("`task` must be `None`, but is '" +:+ t +:+ "' instead.")))
  | None, Some l =>
      new_encoder self task lang mode dev pin
      = inl (Python (ValueError ("`lang` must be `None`, but is '" +:+ l +:+ "' instead.")))
  | None, None =>
      if bool_decide (mode ∈ accepted_modes) then
        ∃ args,
          new_encoder self task lang mode dev pin = TiktokenEncoder__init__ args ∧
          encoding args = _encoding self ∧ device args = dev ∧ pin_memory args = pin ∧
          (prefix_tokens args = [] ∨ prefix_tokens args = ["<|begin_of_text|>"]) ∧
          (suffix_tokens args = [] ∨ suffix_tokens args = [_eos_token self]) ∧
          (∀ t, t ∈ prefix_tokens args ++ suffix_tokens args → t ∈ all_special_tokens)
      else
        ∃ m, mode = Some m ∧
          new_encoder self task lang mode dev pin
          = inl (Python (ValueError
                   ("`mode` must be one of the following values, but is '" +:+ m
                    +:+ "' instead: default, prompt, prompt_response, as_is")))
  end.
Proof.
  intros Hself. apply new_tokenizer_eos in Hself.
  destruct task as [t|]; [done|]. destruct lang as [l|]; [done|].
  assert (Heos : _eos_token self ∈ all_special_tokens).
  { rewrite Hself. destruct instruct; by_evaluation. }
  assert (Hbos : "<|begin_of_text|>" ∈ all_special_tokens).
  { by_evaluation. }
  unfold create_encoder, mode_tokens.
  destruct mode as [m|].
  2:{ rewrite bool_decide_eq_true_2 by by_evaluation.
      eexists. split; [reflexivity|]. simpl. repeat split; auto.
      intros t Ht. each_member Ht; assumption. }
  destruct (String.eqb m "default") eqn:E1.
  { apply String.eqb_eq in E1 as ->.
    rewrite bool_decide_eq_true_2 by by_evaluation.
    eexists. split; [reflexivity|]. simpl. repeat split; auto.
    intros t Ht. each_member Ht; assumption. }
  destruct (String.eqb m "prompt") eqn:E2.
  { apply String.eqb_eq in E2 as ->.
    rewrite bool_decide_eq_true_2 by by_evaluation.
    eexists. split; [reflexivity|]. simpl. repeat split; auto.
    intros t Ht. each_member Ht; assumption. }
  destruct (String.eqb m "prompt_response") eqn:E3.
  { apply String.eqb_eq in E3 as ->.
    rewrite bool_decide_eq_true_2 by by_evaluation.
    eexists. split; [reflexivity|]. simpl. repeat split; auto.
    intros t Ht. each_member Ht; assumption. }
  destruct (String.eqb m "as_is") eqn:E4.
  { apply String.eqb_eq in E4 as ->.
    rewrite bool_decide_eq_true_2 by by_evaluation.
    eexists. split; [reflexivity|]. simpl. repeat split; auto.
    intros t Ht. each_member Ht; assumption. }
  apply String.eqb_neq in E1, E2, E3, E4.
  rewrite bool_decide_eq_false_2.
  - by exists m.
  - unfold accepted_modes. intros Hin.
    repeat (apply elem_of_cons in Hin as [Hin|Hin]; [by simplify_eq|]).
    by apply elem_of_nil in Hin.
Qed.

End Tokenizer.

Section Handler.
Context {Path Encoding BasicSentencePieceTokenizer AssetCard AssetCardField : Type}.
Variable TiktokenTokenizer__init__ : Path → TiktokenArgs → LibExn + Encoding.
Variable BasicSentencePieceTokenizer__init__ : Path → LibExn + BasicSentencePieceTokenizer.
Variable name : AssetCard → string.
Variable card_field : AssetCard → string → LibExn + AssetCardField.
Variable field_field : AssetCardField → string → LibExn + AssetCardField.
Variable as_bool : AssetCardField → LibExn + bool.
Variable as_int : AssetCardField → LibExn + Z.

#[local] Abbreviation load :=
  (_load_tokenizer TiktokenTokenizer__init__ BasicSentencePieceTokenizer__init__
     name card_field field_field as_bool as_int).
#[local] Abbreviation use_v2 := (use_v2_field card_field as_bool).
#[local] Abbreviation eos_field := (eos_idx_field card_field field_field).
#[local] Abbreviation new_tokenizer := (LLaMA3Tokenizer__init__ TiktokenTokenizer__init__).
#[local] Abbreviation load3 := (load_llama3 TiktokenTokenizer__init__ (BasicSentencePieceTokenizer:=BasicSentencePieceTokenizer) name).
#[local] Abbreviation cannot_be_loaded := (LLaMA.cannot_be_loaded name).
#[local] Abbreviation not_a_valid_configuration := (LLaMA.not_a_valid_configuration name).
#[local] Abbreviation legacy := (LLaMA.legacy card_field as_bool).
#[local] Abbreviation eos_idx_of := (LLaMA.eos_idx_of as_int).
#[local] Abbreviation loadsp := (load_sentencepiece (Encoding:=Encoding) BasicSentencePieceTokenizer__init__ name).

Lemma load_llama3_cases path card i :
  match new_tokenizer path (i =? 128009)%Z with
  | inr t => load3 path card i = inr (LLaMA3 t)
  | inl ex =>
      load3 path card i
      = inl (if is_ValueError ex
             then AssetCardError (name card) (not_a_valid_configuration card) (Some ex)
             else if is_RuntimeError ex
             then TextTokenizerLoadError (name card) (cannot_be_loaded card) (Some ex)
             else ex)
  end.
Proof.
  unfold load_llama3, eot_idx.
  destruct (new_tokenizer path _) as [ex|t]; [|done].
  destruct (is_ValueError ex); [done|]. by destruct (is_RuntimeError ex).
Qed.

Lemma load_sentencepiece_cases path card :
  match BasicSentencePieceTokenizer__init__ path with
  | inr t => loadsp path card = inr (SentencePiece t)
  | inl ex =>
      loadsp path card
      = inl (if is_RuntimeError ex
             then TextTokenizerLoadError (name card) (cannot_be_loaded card) (Some ex)
             else ex)
  end.
Proof.
  unfold load_sentencepiece.
  destruct (BasicSentencePieceTokenizer__init__ path) as [ex|t]; [|done].
  by destruct (is_RuntimeError ex).
Qed.

(** [_load_tokenizer], by what reading the card gives. *)
Lemma load_cases path card :
  (legacy card ∧ load path card = loadsp path card) ∨
  (use_v2 card = inr true ∧
   ∃ field i, eos_field card = inr field ∧ eos_idx_of field i ∧
              load path card = load3 path card i) ∨
  (∃ e, load path card = inl e ∧
        ((use_v2 card = inl e ∧ is_AssetCardFieldNotFoundError e = false) ∨
         (use_v2 card = inr true ∧ eos_field card = inl e) ∨
         (use_v2 card = inr true ∧
          ∃ field, eos_field card = inr field ∧ as_int field = inl e ∧
                   is_AssetCardFieldNotFoundError e = false))).
Proof.
  unfold _load_tokenizer, ebind, ecatch, LLaMA.legacy, LLaMA.eos_idx_of.
  destruct (use_v2 card) as [e|[|]] eqn:Hv2.
  - destruct (is_AssetCardFieldNotFoundError e) eqn:He.
    + left. split; [right; by exists e|done].
    + right. right. exists e. split; [done|]. by left.
  - right. destruct (eos_field card) as [e|field] eqn:Hf.
    + right. exists e. split; [done|]. right. by left.
    + destruct (as_int field) as [e|i] eqn:Hint.
      * destruct (is_AssetCardFieldNotFoundError e) eqn:He.
        -- left. split; [done|]. exists field, 0%Z. split; [done|].
           split; [right; split; [done|by exists e]|done].
        -- right. exists e. split; [done|]. right. right. split; [done|].
           by exists field.
      * left. split; [done|]. exists field, i. split; [done|]. split; [by left|done].
  - left. split; [by left|done].
Qed.

(** X15. Which tokenizer [_load_tokenizer] returns.  A SentencePiece
    tokenizer is what [BasicSentencePieceTokenizer(path)] built, and is
    returned only when the card's [use_v2_tokenizer] field is false or
    missing.  A LLaMA 3 tokenizer is returned only when that field is
    true; it was built from [path] with [instruct] set exactly when the
    card's [model_config.vocab_info.eos_idx] is 128009, so that its EOS
    token is ["<|eot_id|>"] in that case and ["<|end_of_text|>"] in every
    other, a card without [eos_idx] included. *)
Theorem load_tokenizer_selects path card (tk : TextTokenizer Encoding BasicSentencePieceTokenizer) :
  load path card = inr tk →
  match tk with
  | SentencePiece t =>
      BasicSentencePieceTokenizer__init__ path = inr t ∧ legacy card
  | LLaMA3 t =>
      use_v2 card = inr true ∧
      ∃ field i,
        eos_field card = inr field ∧ eos_idx_of field i ∧
        new_tokenizer path (bool_decide (i = 128009%Z)) = inr t ∧
        _eos_token t = (if bool_decide (i = 128009%Z) then "<|eot_id|>" else "<|end_of_text|>")
  end.
Proof.
  intros Hrun.
  destruct (load_cases path card)
    as [(Hleg & Heq)|[(Hv2 & field & i & Hf & Hi & Heq)|(e & Heq & _)]];
    rewrite Heq in Hrun; [| |done].
  - pose proof (load_sentencepiece_cases path card) as Hsp.
    destruct (BasicSentencePieceTokenizer__init__ path) as [ex|t];
      rewrite Hsp in Hrun; [done|].
    by injection Hrun as <-.
  - pose proof (load_llama3_cases path card i) as H3.
    assert (Hb : (i =? 128009)%Z = bool_decide (i = 128009%Z)).
    { destruct (Z.eqb_spec i 128009).
      - by rewrite bool_decide_eq_true_2.
      - by rewrite bool_decide_eq_false_2. }
    rewrite Hb in H3.
    destruct (new_tokenizer path _) as [ex|t] eqn:Hnew; rewrite H3 in Hrun; [done|].
    injection Hrun as <-. split; [done|]. exists field, i.
    split; [done|]. split; [done|]. split; [done|].
    by apply new_tokenizer_eos in Hnew.
Qed.

(** X16. Which errors come out of [_load_tokenizer].  A [RuntimeError] of
    either constructor comes out as a [TextTokenizerLoadError], and a
    [ValueError] of the LLaMA 3 constructor as an [AssetCardError]; both
    carry the card's name, name it in the message and have the
    constructor's exception as their cause.  A [ValueError] of the
    SentencePiece constructor is not wrapped, nor is any other exception
    of a constructor.  Every other error was raised by reading the
    card and comes out unchanged: any error of [use_v2_tokenizer] or of
    [eos_idx.as_(int)] except [AssetCardFieldNotFoundError], and any at
    all, that one included, raised by the [field] calls that lead to
    [eos_idx]. *)
Theorem load_tokenizer_errors path card e :
  load path card = inl e →
  (∃ ex, BasicSentencePieceTokenizer__init__ path = inl ex ∧ legacy card ∧
         e = if is_RuntimeError ex
             then TextTokenizerLoadError (name card) (cannot_be_loaded card) (Some ex)
             else ex) ∨
  (∃ ex field i,
     use_v2 card = inr true ∧ eos_field card = inr field ∧ eos_idx_of field i ∧
     new_tokenizer path (i =? 128009)%Z = inl ex ∧
     e = if is_ValueError ex
         then AssetCardError (name card) (not_a_valid_configuration card) (Some ex)
         else if is_RuntimeError ex
         then TextTokenizerLoadError (name card) (cannot_be_loaded card) (Some ex)
         else ex) ∨
  (use_v2 card = inl e ∧ is_AssetCardFieldNotFoundError e = false) ∨
  (use_v2 card = inr true ∧ eos_field card = inl e) ∨
  (use_v2 card = inr true ∧
   ∃ field, eos_field card = inr field ∧ as_int field = inl e ∧
            is_AssetCardFieldNotFoundError e = false).
Proof.
  intros Hrun.
  destruct (load_cases path card)
    as [(Hleg & Heq)|[(Hv2 & field & i & Hf & Hi & Heq)|(e' & Heq & Hcard)]];
    rewrite Heq in Hrun.
  - left. pose proof (load_sentencepiece_cases path card) as Hsp.
    destruct (BasicSentencePieceTokenizer__init__ path) as [ex|t];
      rewrite Hsp in Hrun; [|done].
    injection Hrun as <-. by exists ex.
  - right. left. pose proof (load_llama3_cases path card i) as H3.
    destruct (new_tokenizer path _) as [ex|t] eqn:Hnew; rewrite H3 in Hrun; [|done].
    injection Hrun as <-. by exists ex, field, i.
  - injection Hrun as ->. right. right. exact Hcard.
Qed.

End Handler.

(** The instruct tokenizer built from a file of the sample file system, asked
    for an encoder of responses. *)
Lemma create_encoder_checks_witness :
  let self := {| _eos_token := "<|eot_id|>"; _encoding := all_special_tokens |} in
  LLaMA3Tokenizer__init__ LLaMASample.load_bpe "llama3.tiktoken" true = inr self ∧
  ∃ args,
    create_encoder LLaMASample.new_encoder self None None (Some "prompt_response") None false
    = LLaMASample.new_encoder args ∧
    encoding args = _encoding self ∧ device args = None ∧ pin_memory args = false ∧
    (prefix_tokens args = [] ∨ prefix_tokens args = ["<|begin_of_text|>"]) ∧
    (suffix_tokens args = [] ∨ suffix_tokens args = [_eos_token self]) ∧
    (∀ t, t ∈ prefix_tokens args ++ suffix_tokens args → t ∈ all_special_tokens).
Proof.
  intros self.
  assert (Hself : LLaMA3Tokenizer__init__ LLaMASample.load_bpe "llama3.tiktoken" true
                  = inr self) by reflexivity.
  split; [exact Hself|].
  exact (create_encoder_checks LLaMASample.load_bpe LLaMASample.new_encoder
           "llama3.tiktoken" true self None None (Some "prompt_response") None false
           Hself).
Defined.

(** The sample card of an instruct model. *)
Lemma load_tokenizer_selects_witness :
  let t := {| _eos_token := "<|eot_id|>"; _encoding := all_special_tokens |} in
  LLaMASample.load "llama3.tiktoken" LLaMASample.llama3_instruct = inr (LLaMA3 t) ∧
  ∃ field i,
    eos_idx_field LLaMASample.card_field LLaMASample.field_field LLaMASample.llama3_instruct
    = inr field ∧
    LLaMA.eos_idx_of LLaMASample.as_int field i ∧
    LLaMA3Tokenizer__init__ LLaMASample.load_bpe "llama3.tiktoken" (bool_decide (i = 128009%Z))
    = inr t ∧
    _eos_token t = (if bool_decide (i = 128009%Z) then "<|eot_id|>" else "<|end_of_text|>").
Proof.
  intros t.
  assert (Hrun : LLaMASample.load "llama3.tiktoken" LLaMASample.llama3_instruct
                 = inr (LLaMA3 t)) by reflexivity.
  split; [exact Hrun|].
  exact (proj2 (load_tokenizer_selects LLaMASample.load_bpe LLaMASample.load_spm
                  LLaMASample.card_name LLaMASample.card_field LLaMASample.field_field
                  LLaMASample.as_bool LLaMASample.as_int
                  "llama3.tiktoken" LLaMASample.llama3_instruct (LLaMA3 t) Hrun)).
Defined.

(** A BPE file that cannot be read: the [RuntimeError] comes out wrapped,
    with the name of the card. *)
Lemma load_tokenizer_errors_witness :
  let e := TextTokenizerLoadError "llama3"
             "The 'llama3' text tokenizer cannot be loaded. See the nested exception for details."
             (Some (Python (RuntimeError "The file cannot be read."))) in
  let card := LLaMASample.llama3 in
  let use_v2 := use_v2_field LLaMASample.card_field LLaMASample.as_bool in
  let eos_field := eos_idx_field LLaMASample.card_field LLaMASample.field_field in
  LLaMASample.load "broken.tiktoken" card = inl e ∧
  ((∃ ex, LLaMASample.load_spm "broken.tiktoken" = inl ex ∧
          LLaMA.legacy LLaMASample.card_field LLaMASample.as_bool card ∧
          e = if is_RuntimeError ex
              then TextTokenizerLoadError (LLaMASample.card_name card)
                     (LLaMA.cannot_be_loaded LLaMASample.card_name card) (Some ex)
              else ex) ∨
   (∃ ex field i,
      use_v2 card = inr true ∧ eos_field card = inr field ∧
      LLaMA.eos_idx_of LLaMASample.as_int field i ∧
      LLaMA3Tokenizer__init__ LLaMASample.load_bpe "broken.tiktoken" (i =? 128009)%Z = inl ex ∧
      e = if is_ValueError ex
          then AssetCardError (LLaMASample.card_name card)
                 (LLaMA.not_a_valid_configuration LLaMASample.card_name card) (Some ex)
          else if is_RuntimeError ex
          then TextTokenizerLoadError (LLaMASample.card_name card)
                 (LLaMA.cannot_be_loaded LLaMASample.card_name card) (Some ex)
          else ex) ∨
   (use_v2 card = inl e ∧ is_AssetCardFieldNotFoundError e = false) ∨
   (use_v2 card = inr true ∧ eos_field card = inl e) ∨
   (use_v2 card = inr true ∧
    ∃ field, eos_field card = inr field ∧ LLaMASample.as_int field = inl e ∧
             is_AssetCardFieldNotFoundError e = false)).
Proof.
  intros e card use_v2 eos_field.
  assert (Hrun : LLaMASample.load "broken.tiktoken" card = inl e) by reflexivity.
  split; [exact Hrun|].
  exact (load_tokenizer_errors LLaMASample.load_bpe LLaMASample.load_spm
           LLaMASample.card_name LLaMASample.card_field LLaMASample.field_field
           LLaMASample.as_bool LLaMASample.as_int "broken.tiktoken" card e Hrun).
Defined.

End LLaMAProps.

(** ** The NLLB builder *)

Module NllbProps.
Import Profiler Nllb.

Section Builder.
Context {float DataType : Type}.
Variable refuses : Store float DataType → Obj float DataType → option LibExn.

Implicit Types (self : NllbBuilder float DataType) (h : Store float DataType).
Implicit Types (o : Obj float DataType) (b n i j k size : nat).

#[local] Abbreviation follows := (Nllb.follows refuses).
#[local] Abbreviation construct := (Nllb.construct refuses).
#[local] Abbreviation build_attention := (Nllb.build_attention refuses).
#[local] Abbreviation build_ffn := (Nllb.build_ffn refuses).
#[local] Abbreviation build_encoder_layer := (Nllb.build_encoder_layer refuses).
#[local] Abbreviation build_decoder_layer := (Nllb.build_decoder_layer refuses).
#[local] Abbreviation build_each := (Nllb.build_each (float:=float) (DataType:=DataType)).
#[local] Abbreviation build_encoder := (Nllb.build_encoder refuses).
#[local] Abbreviation build_decoder := (Nllb.build_decoder refuses).
#[local] Abbreviation build_frontend := (Nllb.build_frontend refuses).
#[local] Abbreviation build_model := (Nllb.build_model refuses).

(** *** Computations follow their plans *)

Lemma follows_construct o h : follows (construct o) h [o] (length h).
Proof.
  unfold Nllb.follows, Nllb.construct. destruct (refuses h o) as [e|] eqn:Hr.
  - exists 0, o. simpl. by rewrite app_nil_r.
  - done.
Qed.

Lemma follows_ret {A} (a : A) h : follows (lret a) h [] a.
Proof. unfold Nllb.follows, lret. by rewrite app_nil_r. Qed.

Lemma follows_bind {A B} (c : L (Store float DataType) A)
    (f : A → L (Store float DataType) B) h p1 r1 p2 r2 :
  follows c h p1 r1 →
  follows (f r1) (h ++ p1) p2 r2 →
  follows (lbind c f) h (p1 ++ p2) r2.
Proof.
  unfold Nllb.follows, lbind. destruct (c h) as [[e|a] h1].
  - intros (k & o & Hk & -> & Hr) _. exists k, o.
    split; [by apply lookup_app_l_Some|]. split; [|done].
    rewrite take_app_le; [done|]. apply lookup_lt_Some in Hk. lia.
  - intros [-> ->]. destruct (f r1 (h ++ p1)) as [[e|r] h2].
    + intros (k & o & Hk & -> & Hr). exists (length p1 + k), o.
      split; [by rewrite lookup_app_r, Nat.add_comm, Nat.add_sub by lia|].
      split; [|done]. by rewrite take_app_add, app_assoc.
    + intros [-> ->]. by rewrite app_assoc.
Qed.

Lemma follows_eq {A} (c : L (Store float DataType) A) h p r p' r' :
  follows c h p r → p = p' → r = r' → follows c h p' r'.
Proof. by intros ? <- <-. Qed.

Lemma build_attention_follows self heads h :
  follows (build_attention self heads) h
    (attention_plan self heads (length h)) (length h + 1).
Proof.
  unfold Nllb.build_attention.
  eapply follows_eq; [eapply follows_bind; [apply follows_construct|apply follows_construct]|..].
  - done.
  - rewrite length_app. simpl. lia.
Qed.

Lemma build_ffn_follows self h :
  follows (build_ffn self) h
    [StandardFeedForwardNetwork (model_dim (config self)) (ffn_inner_dim (config self))
       PRE (device self) (dtype self)] (length h).
Proof. apply follows_construct. Qed.

Lemma build_encoder_layer_follows self h :
  follows (build_encoder_layer self) h
    (encoder_layer_plan self (length h)) (length h + 4 - 1).
Proof.
  unfold Nllb.build_encoder_layer.
  eapply follows_eq.
  { eapply follows_bind; [apply build_attention_follows|].
    eapply follows_bind; [apply build_ffn_follows|apply follows_construct]. }
  - unfold encoder_layer_plan. rewrite !length_app. simpl.
    repeat (f_equal; try lia).
  - rewrite !length_app. simpl. lia.
Qed.

Lemma build_decoder_layer_follows self h :
  follows (build_decoder_layer self) h
    (decoder_layer_plan self (length h)) (length h + 6 - 1).
Proof.
  unfold Nllb.build_decoder_layer.
  eapply follows_eq.
  { eapply follows_bind; [apply build_attention_follows|].
    eapply follows_bind; [apply build_attention_follows|].
    eapply follows_bind; [apply build_ffn_follows|apply follows_construct]. }
  - unfold decoder_layer_plan. rewrite !length_app. simpl.
    repeat (f_equal; try lia).
  - rewrite !length_app. simpl. lia.
Qed.

Lemma build_each_follows (build : L (Store float DataType) Ref)
    (layer_plan : nat → list (Obj float DataType)) size n h :
  (∀ h, follows build h (layer_plan (length h)) (length h + size - 1)) →
  (∀ b, length (layer_plan b) = size) →
  follows (build_each n build) h
    (layers_plan layer_plan size n (length h)) (layers_refs size n (length h)).
Proof.
  intros Hbuild Hsize. revert h. induction n as [|n IH]; intros h; simpl.
  - apply follows_ret.
  - eapply follows_eq.
    { eapply follows_bind; [apply Hbuild|].
      eapply follows_bind; [apply IH|apply follows_ret]. }
    + rewrite app_nil_r, length_app, Hsize. done.
    + rewrite length_app, Hsize. done.
Qed.

Lemma attention_plan_length self heads b : length (attention_plan self heads b) = 2.
Proof. done. Qed.

Lemma encoder_layer_plan_length self b : length (encoder_layer_plan self b) = 4.
Proof. done. Qed.

Lemma decoder_layer_plan_length self b : length (decoder_layer_plan self b) = 6.
Proof. done. Qed.

Lemma layers_plan_length (layer_plan : nat → list (Obj float DataType)) size n b :
  (∀ b, length (layer_plan b) = size) →
  length (layers_plan layer_plan size n b) = size * n.
Proof.
  intros Hsize. revert b. induction n as [|n IH]; intros b; simpl; [lia|].
  rewrite length_app, Hsize, IH. lia.
Qed.

Lemma layers_refs_length size n b : length (layers_refs size n b) = n.
Proof. revert b. induction n as [|n IH]; intros b; simpl; [done|]. by rewrite IH. Qed.

Lemma layers_refs_lookup size n b i :
  i < n → layers_refs size n b !! i = Some (b + size * i + size - 1).
Proof.
  revert b i. induction n as [|n IH]; intros b i Hi; [lia|].
  destruct i as [|i]; simpl.
  - f_equal. lia.
  - rewrite IH by lia. f_equal. lia.
Qed.

Lemma layers_plan_lookup (layer_plan : nat → list (Obj float DataType)) size n b i j :
  (∀ b, length (layer_plan b) = size) →
  i < n → j < size →
  layers_plan layer_plan size n b !! (size * i + j) = layer_plan (b + size * i) !! j.
Proof.
  intros Hsize. revert b i. induction n as [|n IH]; intros b i Hi Hj; [lia|].
  destruct i as [|i]; simpl.
  - rewrite Nat.mul_0_r, Nat.add_0_r. simpl.
    rewrite lookup_app_l by (rewrite Hsize; lia). done.
  - rewrite lookup_app_r by (rewrite Hsize; lia). rewrite Hsize.
    replace (size * S i + j - size) with (size * i + j) by lia.
    rewrite IH by lia. by replace (b + size + size * i) with (b + size * S i) by lia.
Qed.

Lemma build_encoder_follows self h :
  follows (build_encoder self) h
    (layers_plan (encoder_layer_plan self) 4 (encoder_layers self) (length h)
     ++ [StandardTransformerEncoder (layers_refs 4 (encoder_layers self) (length h))
           PRE (device self) (dtype self)])
    (length h + 4 * encoder_layers self).
Proof.
  unfold Nllb.build_encoder. cbv zeta.
  eapply follows_eq.
  { eapply follows_bind; [|apply follows_construct].
    apply (build_each_follows _ (encoder_layer_plan self) 4);
      [apply build_encoder_layer_follows|apply encoder_layer_plan_length]. }
  - done.
  - rewrite length_app, layers_plan_length by apply encoder_layer_plan_length. done.
Qed.

Lemma build_decoder_follows self h :
  follows (build_decoder self) h
    (layers_plan (decoder_layer_plan self) 6 (decoder_layers self) (length h)
     ++ [StandardTransformerDecoder (layers_refs 6 (decoder_layers self) (length h))
           PRE (device self) (dtype self)])
    (length h + 6 * decoder_layers self).
Proof.
  unfold Nllb.build_decoder. cbv zeta.
  eapply follows_eq.
  { eapply follows_bind; [|apply follows_construct].
    apply (build_each_follows _ (decoder_layer_plan self) 6);
      [apply build_decoder_layer_follows|apply decoder_layer_plan_length]. }
  - done.
  - rewrite length_app, layers_plan_length by apply decoder_layer_plan_length. done.
Qed.

Lemma build_frontend_follows self embed h :
  follows (build_frontend self embed) h
    [SinusoidalPositionEncoder (model_dim (config self)) (max_seq_len (config self))
       (pad_idx (config self)) (device self) (dtype self);
     TransformerEmbeddingFrontend embed (length h) (dropout_p (config self))
       (device self) (dtype self)]
    (length h + 1).
Proof.
  unfold Nllb.build_frontend.
  eapply follows_eq; [eapply follows_bind; [apply follows_construct|apply follows_construct]|..].
  - done.
  - rewrite length_app. simpl. lia.
Qed.

Lemma model_plan_length self b :
  length (model_plan self b) = 7 + 4 * encoder_layers self + 6 * decoder_layers self.
Proof.
  unfold model_plan. cbv zeta. rewrite !length_app.
  rewrite !layers_plan_length
    by first [apply encoder_layer_plan_length|apply decoder_layer_plan_length].
  simpl. lia.
Qed.

Lemma build_model_follows self h :
  follows (build_model self) h (model_plan self (length h)) (model_ref self (length h)).
Proof.
  unfold Nllb.build_model.
  eapply follows_eq.
  { eapply follows_bind; [apply follows_construct|].
    eapply follows_bind; [apply build_frontend_follows|].
    eapply follows_bind; [apply build_encoder_follows|].
    eapply follows_bind; [apply build_decoder_follows|].
    eapply follows_bind; [apply follows_construct|apply follows_construct]. }
  - unfold model_plan. cbv zeta.
    rewrite !length_app.
    rewrite !layers_plan_length
      by first [apply encoder_layer_plan_length|apply decoder_layer_plan_length].
    simpl length.
    replace (length h + 1 + 2) with (length h + 3) by lia.
    replace (length h + 1 + 1) with (length h + 2) by lia.
    replace (length h + 3 + (4 * encoder_layers self + 1))
      with (length h + 3 + 4 * encoder_layers self + 1) by lia.
    replace (length h + 3 + 4 * encoder_layers self + 1
             + (6 * decoder_layers self + 1))
      with (length h + 3 + 4 * encoder_layers self + 1 + 6 * decoder_layers self + 1)
      by lia.
    simpl. rewrite <- !app_assoc. simpl. done.
  - unfold model_ref. rewrite !length_app.
    rewrite !layers_plan_length
      by first [apply encoder_layer_plan_length|apply decoder_layer_plan_length].
    simpl. lia.
Qed.

(** *** The plan of a model, by position *)

Lemma build_model_returns self h m h' :
  build_model self h = (inr m, h') →
  h' = h ++ model_plan self (length h) ∧ m = model_ref self (length h).
Proof.
  intros Hrun. pose proof (build_model_follows self h) as Hf.
  unfold Nllb.follows in Hf. by rewrite Hrun in Hf.
Qed.

Lemma lookup_new h (plan : list (Obj float DataType)) k :
  (h ++ plan) !! (length h + k) = plan !! k.
Proof. rewrite lookup_app_r by lia. f_equal. lia. Qed.

Section Plan.
Variable self : NllbBuilder float DataType.
Variable b : nat.

#[local] Abbreviation ne := (encoder_layers self).
#[local] Abbreviation nd := (decoder_layers self).
#[local] Abbreviation cfg := (config self).

Lemma plan_split :
  model_plan self b
  = [Embedding (vocabulary_size cfg) (model_dim cfg) (pad_idx cfg) true
       (device self) (dtype self);
     SinusoidalPositionEncoder (model_dim cfg) (max_seq_len cfg) (pad_idx cfg)
       (device self) (dtype self);
     TransformerEmbeddingFrontend b (b + 1) (dropout_p cfg) (device self) (dtype self)]
    ++ (layers_plan (encoder_layer_plan self) 4 ne (b + 3)
        ++ ([StandardTransformerEncoder (layers_refs 4 ne (b + 3)) PRE
               (device self) (dtype self)]
            ++ (layers_plan (decoder_layer_plan self) 6 nd (b + 4 + 4 * ne)
                ++ ([StandardTransformerDecoder (layers_refs 6 nd (b + 4 + 4 * ne)) PRE
                       (device self) (dtype self)]
                    ++ [TiedProjection b;
                        TransformerModel (b + 2) (b + 3 + 4 * ne) (b + 2)
                          (b + 4 + 4 * ne + 6 * nd) (b + 5 + 4 * ne + 6 * nd)
                          (pad_idx cfg)])))).
Proof.
  unfold model_plan. cbv zeta.
  replace (b + 3 + 4 * ne + 1) with (b + 4 + 4 * ne) by lia.
  replace (b + 4 + 4 * ne + 6 * nd + 1) with (b + 5 + 4 * ne + 6 * nd) by lia.
  done.
Qed.

Lemma encoder_plan_length :
  length (layers_plan (encoder_layer_plan self) 4 ne (b + 3)) = 4 * ne.
Proof. apply layers_plan_length, encoder_layer_plan_length. Qed.

Lemma decoder_plan_length :
  length (layers_plan (decoder_layer_plan self) 6 nd (b + 4 + 4 * ne)) = 6 * nd.
Proof. apply layers_plan_length, decoder_layer_plan_length. Qed.

Lemma plan_encoder_layer i j :
  i < ne → j < 4 →
  model_plan self b !! (3 + 4 * i + j) = encoder_layer_plan self (b + 3 + 4 * i) !! j.
Proof.
  intros Hi Hj. rewrite plan_split.
  rewrite lookup_app_r by (simpl; lia). simpl length.
  replace (3 + 4 * i + j - 3) with (4 * i + j) by lia.
  rewrite lookup_app_l by (rewrite encoder_plan_length; lia).
  by apply layers_plan_lookup; [apply encoder_layer_plan_length|..].
Qed.

Lemma plan_encoder :
  model_plan self b !! (3 + 4 * ne)
  = Some (StandardTransformerEncoder (layers_refs 4 ne (b + 3)) PRE
            (device self) (dtype self)).
Proof.
  rewrite plan_split.
  rewrite lookup_app_r by (simpl; lia). simpl length.
  rewrite lookup_app_r by (rewrite encoder_plan_length; lia).
  rewrite encoder_plan_length.
  by replace (3 + 4 * ne - 3 - 4 * ne) with 0 by lia.
Qed.

Lemma plan_decoder_layer i j :
  i < nd → j < 6 →
  model_plan self b !! (4 + 4 * ne + 6 * i + j)
  = decoder_layer_plan self (b + 4 + 4 * ne + 6 * i) !! j.
Proof.
  intros Hi Hj. rewrite plan_split.
  rewrite lookup_app_r by (simpl; lia). simpl length.
  rewrite lookup_app_r by (rewrite encoder_plan_length; lia).
  rewrite encoder_plan_length.
  rewrite lookup_app_r by (simpl; lia). simpl length.
  replace (4 + 4 * ne + 6 * i + j - 3 - 4 * ne - 1) with (6 * i + j) by lia.
  rewrite lookup_app_l by (rewrite decoder_plan_length; lia).
  by apply layers_plan_lookup; [apply decoder_layer_plan_length|..].
Qed.

Lemma plan_tail k :
  k < 3 →
  model_plan self b !! (4 + 4 * ne + 6 * nd + k)
  = [StandardTransformerDecoder (layers_refs 6 nd (b + 4 + 4 * ne)) PRE
       (device self) (dtype self);
     TiedProjection b;
     TransformerModel (b + 2) (b + 3 + 4 * ne) (b + 2)
       (b + 4 + 4 * ne + 6 * nd) (b + 5 + 4 * ne + 6 * nd) (pad_idx cfg)] !! k.
Proof.
  intros Hk. rewrite plan_split.
  rewrite lookup_app_r by (simpl; lia). simpl length.
  rewrite lookup_app_r by (rewrite encoder_plan_length; lia).
  rewrite encoder_plan_length.
  rewrite lookup_app_r by (simpl; lia). simpl length.
  rewrite lookup_app_r by (rewrite decoder_plan_length; lia).
  rewrite decoder_plan_length.
  by replace (4 + 4 * ne + 6 * nd + k - 3 - 4 * ne - 1 - 6 * nd) with k by lia.
Qed.

End Plan.

(** X17. A model that [build_model] returns has one front-end: the encoder
    front-end and the decoder front-end of the [TransformerModel] are the
    same object, built on the scaled embedding of the vocabulary, and the
    final projection is tied to the weight of that embedding.  Its encoder
    and decoder have as many layers as the configuration says (none for
    a number that is not positive), both with norm order [PRE].  The
    build has added 7 objects, 4 for each encoder layer and 6 for each
    decoder layer to the store, and the objects that were there before
    are as they were. *)
Theorem build_model_shares_frontend self h m h' :
  build_model self h = (inr m, h') →
  ∃ embed pos frontend enc dec proj le ld,
    h' !! m = Some (TransformerModel frontend enc frontend dec proj
                      (pad_idx (config self))) ∧
    h' !! frontend = Some (TransformerEmbeddingFrontend embed pos
                             (dropout_p (config self)) (device self) (dtype self)) ∧
    h' !! embed = Some (Embedding (vocabulary_size (config self))
                          (model_dim (config self)) (pad_idx (config self)) true
                          (device self) (dtype self)) ∧
    h' !! pos = Some (SinusoidalPositionEncoder (model_dim (config self))
                        (max_seq_len (config self)) (pad_idx (config self))
                        (device self) (dtype self)) ∧
    h' !! proj = Some (TiedProjection embed) ∧
    h' !! enc = Some (StandardTransformerEncoder le PRE (device self) (dtype self)) ∧
    length le = Z.to_nat (num_encoder_layers (config self)) ∧
    h' !! dec = Some (StandardTransformerDecoder ld PRE (device self) (dtype self)) ∧
    length ld = Z.to_nat (num_decoder_layers (config self)) ∧
    length h' = length h + 7 + 4 * length le + 6 * length ld ∧
    (∀ i, i < length h → h' !! i = h !! i).
Proof.
  intros [-> ->]%build_model_returns. set (b := length h).
  exists b, (b + 1), (b + 2), (b + 3 + 4 * encoder_layers self),
    (b + 4 + 4 * encoder_layers self + 6 * decoder_layers self),
    (b + 5 + 4 * encoder_layers self + 6 * decoder_layers self),
    (layers_refs 4 (encoder_layers self) (b + 3)),
    (layers_refs 6 (decoder_layers self) (b + 4 + 4 * encoder_layers self)).
  split.
  { unfold model_ref, b.
    replace (length h + 6 + 4 * encoder_layers self + 6 * decoder_layers self)
      with (length h + (4 + 4 * encoder_layers self + 6 * decoder_layers self + 2)) by lia.
    rewrite lookup_new, plan_tail by lia. done. }
  split; [unfold b; by rewrite (lookup_new h _ 2)|].
  split; [unfold b; replace (length h) with (length h + 0) at 1 by lia;
          by rewrite (lookup_new h _ 0)|].
  split; [unfold b; by rewrite (lookup_new h _ 1)|].
  split.
  { unfold b.
    replace (length h + 5 + 4 * encoder_layers self + 6 * decoder_layers self)
      with (length h + (4 + 4 * encoder_layers self + 6 * decoder_layers self + 1)) by lia.
    rewrite lookup_new, plan_tail by lia. done. }
  split.
  { unfold b.
    replace (length h + 3 + 4 * encoder_layers self)
      with (length h + (3 + 4 * encoder_layers self)) by lia.
    by rewrite lookup_new, plan_encoder. }
  split; [by rewrite layers_refs_length|].
  split.
  { unfold b.
    replace (length h + 4 + 4 * encoder_layers self + 6 * decoder_layers self)
      with (length h + (4 + 4 * encoder_layers self + 6 * decoder_layers self + 0)) by lia.
    rewrite lookup_new, plan_tail by lia. done. }
  split; [by rewrite layers_refs_length|].
  split; [rewrite length_app, model_plan_length, !layers_refs_length; unfold b; lia|].
  intros i Hi. by apply lookup_app_l.
Qed.

(** Every object of the plan, by its position. *)
Lemma plan_cases self b k o :
  model_plan self b !! k = Some o →
  (k < 3 ∧
   [Embedding (vocabulary_size (config self)) (model_dim (config self))
      (pad_idx (config self)) true (device self) (dtype self);
    SinusoidalPositionEncoder (model_dim (config self)) (max_seq_len (config self))
      (pad_idx (config self)) (device self) (dtype self);
    TransformerEmbeddingFrontend b (b + 1) (dropout_p (config self))
      (device self) (dtype self)] !! k = Some o) ∨
  (∃ i j, i < encoder_layers self ∧ j < 4 ∧ k = 3 + 4 * i + j ∧
          encoder_layer_plan self (b + 3 + 4 * i) !! j = Some o) ∨
  (k = 3 + 4 * encoder_layers self ∧
   o = StandardTransformerEncoder (layers_refs 4 (encoder_layers self) (b + 3)) PRE
         (device self) (dtype self)) ∨
  (∃ i j, i < decoder_layers self ∧ j < 6 ∧
          k = 4 + 4 * encoder_layers self + 6 * i + j ∧
          decoder_layer_plan self (b + 4 + 4 * encoder_layers self + 6 * i) !! j
          = Some o) ∨
  (∃ j, j < 3 ∧ k = 4 + 4 * encoder_layers self + 6 * decoder_layers self + j ∧
        [StandardTransformerDecoder
           (layers_refs 6 (decoder_layers self) (b + 4 + 4 * encoder_layers self)) PRE
           (device self) (dtype self);
         TiedProjection b;
         TransformerModel (b + 2) (b + 3 + 4 * encoder_layers self) (b + 2)
           (b + 4 + 4 * encoder_layers self + 6 * decoder_layers self)
           (b + 5 + 4 * encoder_layers self + 6 * decoder_layers self)
           (pad_idx (config self))] !! j = Some o).
Proof.
  intros Hk. pose proof (lookup_lt_Some _ _ _ Hk) as Hlt.
  rewrite model_plan_length in Hlt.
  destruct (decide (k < 3)) as [H3|H3].
  { left. split; [done|]. rewrite plan_split in Hk.
    by rewrite lookup_app_l in Hk by (simpl; lia). }
  right. destruct (decide (k < 3 + 4 * encoder_layers self)) as [He|He].
  { left. exists ((k - 3) / 4), ((k - 3) mod 4).
    pose proof (Nat.div_mod (k - 3) 4 ltac:(lia)) as Hdm.
    pose proof (Nat.mod_upper_bound (k - 3) 4 ltac:(lia)) as Hm.
    assert (Hi : (k - 3) / 4 < encoder_layers self)
      by (apply Nat.Div0.div_lt_upper_bound; lia).
    split; [done|]. split; [done|]. split; [lia|].
    rewrite <- plan_encoder_layer by done.
    by replace (3 + 4 * ((k - 3) / 4) + (k - 3) mod 4) with k by lia. }
  right. destruct (decide (k = 3 + 4 * encoder_layers self)) as [->|Hne].
  { left. split; [done|]. rewrite plan_encoder in Hk. by injection Hk as <-. }
  right.
  destruct (decide (k < 4 + 4 * encoder_layers self + 6 * decoder_layers self))
    as [Hd|Hd].
  { left. set (q := k - 4 - 4 * encoder_layers self).
    exists (q / 6), (q mod 6).
    pose proof (Nat.div_mod q 6 ltac:(lia)) as Hdm.
    pose proof (Nat.mod_upper_bound q 6 ltac:(lia)) as Hm.
    assert (Hi : q / 6 < decoder_layers self)
      by (apply Nat.Div0.div_lt_upper_bound; unfold q; lia).
    split; [done|]. split; [done|]. split; [unfold q in *; lia|].
    rewrite <- plan_decoder_layer by done.
    by replace (4 + 4 * encoder_layers self + 6 * (q / 6) + q mod 6) with k
      by (unfold q in *; lia). }
  right. exists (k - (4 + 4 * encoder_layers self + 6 * decoder_layers self)).
  split; [lia|]. split; [lia|].
  rewrite <- plan_tail by lia.
  by replace (4 + 4 * encoder_layers self + 6 * decoder_layers self
              + (k - (4 + 4 * encoder_layers self + 6 * decoder_layers self)))
    with k by lia.
Qed.

Lemma layers_refs_elem size n b r :
  r ∈ layers_refs size n b → ∃ i, i < n ∧ r = b + size * i + size - 1.
Proof.
  intros [i Hi]%list_elem_of_lookup.
  pose proof (lookup_lt_Some _ _ _ Hi) as Hlt. rewrite layers_refs_length in Hlt.
  rewrite layers_refs_lookup in Hi by done. exists i. split; [done|]. by injection Hi.
Qed.

(** Membership in a list that is written out, case by case. *)
Ltac each_part H :=
  repeat (apply elem_of_cons in H as [->|H]); [..|by apply elem_of_nil in H].

(** What holds of every object of the plan: it has the settings of the
    builder, it is the model only in the last position, and it holds only
    objects of the plan that come before it. *)
Lemma plan_sound self b k o :
  model_plan self b !! k = Some o →
  settled self o ∧
  (is_model o = true → k = 6 + 4 * encoder_layers self + 6 * decoder_layers self) ∧
  (∀ r, r ∈ parts o → (b ≤ r < b + k)%nat).
Proof.
  intros Hk. unfold settled.
  destruct (plan_cases self b k o Hk)
    as [(H3 & Ho)|[(i & j & Hi & Hj & -> & Ho)|[(-> & ->)
       |[(i & j & Hi & Hj & -> & Ho)|(j & Hj & -> & Ho)]]]].
  - destruct k as [|[|[|k]]]; [..|lia]; simpl in Ho; injection Ho as <-; simpl;
      (split; [by repeat split; intros ? [= <-]|]); (split; [done|]);
      intros r Hr; each_part Hr; lia.
  - destruct j as [|[|[|[|j]]]]; [..|lia]; simpl in Ho; injection Ho as <-; simpl;
      (split; [by repeat split; intros ? [= <-]|]); (split; [done|]);
      intros r Hr; each_part Hr; lia.
  - simpl. split; [by repeat split; intros ? [= <-]|]. split; [done|].
    intros r (i & Hi & ->)%layers_refs_elem. lia.
  - destruct j as [|[|[|[|[|[|j]]]]]]; [..|lia]; simpl in Ho; injection Ho as <-; simpl;
      (split; [by repeat split; intros ? [= <-]|]); (split; [done|]);
      intros r Hr; each_part Hr; lia.
  - destruct j as [|[|[|j]]]; [..|lia]; simpl in Ho; injection Ho as <-; simpl;
      (split; [by repeat split; intros ? [= <-]|]).
    + split; [done|]. intros r (i & Hi & ->)%layers_refs_elem. lia.
    + split; [done|]. intros r Hr; each_part Hr; lia.
    + split; [intros _; lia|]. intros r Hr; each_part Hr; lia.
Qed.

Lemma lookup_added h (plan : list (Obj float DataType)) i :
  (length h ≤ i)%nat → (h ++ plan) !! i = plan !! (i - length h).
Proof. intros Hi. by apply lookup_app_r. Qed.

(** X18. Whether [build_model] returns or raises, every object that it has
    added to the store was built with the settings of the builder: norm
    order [PRE] wherever a module takes one, the builder's device and
    data type wherever a module takes them, and the configuration's
    dropout probability in the front-end, the attention and the layers.
    Every object that a new object holds is itself new and was built
    before it, so that no module of the model is an object that existed
    before the call or holds itself. *)
Theorem build_model_settings self h res h' i o :
  build_model self h = (res, h') →
  (length h ≤ i)%nat →
  h' !! i = Some o →
  settled self o ∧ ∀ r, r ∈ parts o → (length h ≤ r < i)%nat.
Proof.
  intros Hrun Hi Ho. pose proof (build_model_follows self h) as Hf.
  unfold Nllb.follows in Hf. rewrite Hrun in Hf.
  assert (Hplan : model_plan self (length h) !! (i - length h) = Some o).
  { destruct res as [e|m].
    - destruct Hf as (k & o' & _ & -> & _).
      rewrite lookup_added in Ho by done.
      by apply lookup_take_Some in Ho as [Ho _].
    - destruct Hf as [-> _]. by rewrite lookup_added in Ho by done. }
  destruct (plan_sound _ _ _ _ Hplan) as (Hs & _ & Hp).
  split; [done|]. intros r Hr. specialize (Hp r Hr). lia.
Qed.

(** X19. When [build_model] raises, the error is the one that a
    constructor raised, unchanged.  The objects built before that
    constructor was called are in the store, after the objects that were
    there, which are as they were; fewer objects were added than a model
    has, and no [TransformerModel] is among them. *)
Theorem build_model_failure self h e h' :
  build_model self h = (inl e, h') →
  ∃ k o,
    model_plan self (length h) !! k = Some o ∧
    refuses h' o = Some e ∧
    h' = h ++ take k (model_plan self (length h)) ∧
    length h' = length h + k ∧
    k < 7 + 4 * encoder_layers self + 6 * decoder_layers self ∧
    (∀ i o', (length h ≤ i)%nat → h' !! i = Some o' → is_model o' = false).
Proof.
  intros Hrun. pose proof (build_model_follows self h) as Hf.
  unfold Nllb.follows in Hf. rewrite Hrun in Hf.
  destruct Hf as (k & o & Hk & -> & Hr). exists k, o.
  pose proof (lookup_lt_Some _ _ _ Hk) as Hlt. rewrite model_plan_length in Hlt.
  split; [done|]. split; [done|]. split; [done|].
  split; [rewrite length_app, length_take, model_plan_length; lia|].
  split; [done|].
  intros i o' Hi Ho'. rewrite lookup_added in Ho' by done.
  apply lookup_take_Some in Ho' as [Ho' Hik].
  destruct (plan_sound _ _ _ _ Ho') as (_ & Hm & _).
  destruct (is_model o'); [|done]. specialize (Hm eq_refl). lia.
Qed.

(** *** The modules of the layers *)

Lemma held_by_lookup h r o : h !! r = Some o → held_by h r = parts o.
Proof. intros Hr. exact (f_equal (from_option parts []) Hr). Qed.

Lemma encoder_layer_modules self h' b :
  (∀ j, j < 4 → h' !! (b + j) = encoder_layer_plan self b !! j) →
  layer_modules h' (b + 4 - 1) = [b + 3; b + 1; b + 2; b].
Proof.
  intros Hat.
  pose proof (Hat 0 ltac:(lia)) as H0. pose proof (Hat 1 ltac:(lia)) as H1.
  pose proof (Hat 2 ltac:(lia)) as H2. pose proof (Hat 3 ltac:(lia)) as H3.
  rewrite Nat.add_0_r in H0. simpl in H0, H1, H2, H3.
  replace (b + 4 - 1) with (b + 3) by lia.
  unfold layer_modules. rewrite (held_by_lookup _ _ _ H3). simpl.
  by rewrite (held_by_lookup _ _ _ H1), (held_by_lookup _ _ _ H2).
Qed.

Lemma decoder_layer_modules self h' b :
  (∀ j, j < 6 → h' !! (b + j) = decoder_layer_plan self b !! j) →
  layer_modules h' (b + 6 - 1) = [b + 5; b + 1; b + 3; b + 4; b; b + 2].
Proof.
  intros Hat.
  pose proof (Hat 1 ltac:(lia)) as H1. pose proof (Hat 3 ltac:(lia)) as H3.
  pose proof (Hat 4 ltac:(lia)) as H4. pose proof (Hat 5 ltac:(lia)) as H5.
  simpl in H1, H3, H4, H5.
  replace (b + 6 - 1) with (b + 5) by lia.
  unfold layer_modules. rewrite (held_by_lookup _ _ _ H5). simpl.
  by rewrite (held_by_lookup _ _ _ H1), (held_by_lookup _ _ _ H3),
    (held_by_lookup _ _ _ H4).
Qed.

(** The modules of [n] layers are the objects of their plans, each once. *)
Lemma layers_modules_perm h' size n b :
  (∀ i, i < n → layer_modules h' (b + size * i + size - 1) ≡ₚ seq (b + size * i) size) →
  concat (layer_modules h' <$> layers_refs size n b) ≡ₚ seq b (size * n).
Proof.
  revert b. induction n as [|n IH]; intros b Hmod.
  - simpl. by rewrite Nat.mul_0_r.
  - change (concat (layer_modules h' <$> layers_refs size (S n) b))
      with (layer_modules h' (b + size - 1)
            ++ concat (layer_modules h' <$> layers_refs size n (b + size))).
    replace (size * S n) with (size + size * n) by lia. rewrite seq_app.
    apply Permutation_app.
    + specialize (Hmod 0 ltac:(lia)). by rewrite Nat.mul_0_r, Nat.add_0_r in Hmod.
    + apply IH. intros i Hi. specialize (Hmod (S i) ltac:(lia)).
      by replace (b + size + size * i) with (b + size * S i) by lia.
Qed.

Lemma encoder_modules_perm self h' b :
  (∀ i j, i < encoder_layers self → j < 4 →
          h' !! (b + 4 * i + j) = encoder_layer_plan self (b + 4 * i) !! j) →
  concat (layer_modules h' <$> layers_refs 4 (encoder_layers self) b)
  ≡ₚ seq b (4 * encoder_layers self).
Proof.
  intros Hat. apply layers_modules_perm. intros i Hi.
  rewrite (encoder_layer_modules self) by (intros j Hj; by apply Hat).
  generalize (b + 4 * i). intros c.
  change (seq c 4) with [c; S c; S (S c); S (S (S c))].
  apply NoDup_Permutation.
  - repeat (apply NoDup_cons; split; [rewrite ?elem_of_cons, elem_of_nil; lia|]).
    apply NoDup_nil_2.
  - repeat (apply NoDup_cons; split; [rewrite ?elem_of_cons, elem_of_nil; lia|]).
    apply NoDup_nil_2.
  - intros x. rewrite !elem_of_cons, !elem_of_nil. lia.
Qed.

Lemma decoder_modules_perm self h' b :
  (∀ i j, i < decoder_layers self → j < 6 →
          h' !! (b + 6 * i + j) = decoder_layer_plan self (b + 6 * i) !! j) →
  concat (layer_modules h' <$> layers_refs 6 (decoder_layers self) b)
  ≡ₚ seq b (6 * decoder_layers self).
Proof.
  intros Hat. apply layers_modules_perm. intros i Hi.
  rewrite (decoder_layer_modules self) by (intros j Hj; by apply Hat).
  generalize (b + 6 * i). intros c.
  change (seq c 6) with [c; S c; S (S c); S (S (S c)); S (S (S (S c))); S (S (S (S (S c))))].
  apply NoDup_Permutation.
  - repeat (apply NoDup_cons; split; [rewrite ?elem_of_cons, elem_of_nil; lia|]).
    apply NoDup_nil_2.
  - repeat (apply NoDup_cons; split; [rewrite ?elem_of_cons, elem_of_nil; lia|]).
    apply NoDup_nil_2.
  - intros x. rewrite !elem_of_cons, !elem_of_nil. lia.
Qed.

(** X20. In a model that [build_model] returns, the layers share nothing.
    Every encoder layer holds a self-attention with the encoder's number
    of heads and a feed-forward network; every decoder layer holds a
    self-attention and an encoder-decoder attention, both with the
    decoder's number of heads, and a feed-forward network; every
    attention has an SDPA of its own.  These modules of all layers, the
    layers included, are pairwise different objects, all of them built by
    this call, and none of them is the encoder, the decoder, the
    projection, the front-end or a module of the front-end. *)
Theorem layers_share_nothing self h m h' :
  build_model self h = (inr m, h') →
  ∃ frontend enc dec proj le ld,
    h' !! m = Some (TransformerModel frontend enc frontend dec proj
                      (pad_idx (config self))) ∧
    h' !! enc = Some (StandardTransformerEncoder le PRE (device self) (dtype self)) ∧
    h' !! dec = Some (StandardTransformerDecoder ld PRE (device self) (dtype self)) ∧
    (∀ l, l ∈ le →
       ∃ self_attn ffn sdpa,
         h' !! l = Some (StandardTransformerEncoderLayer self_attn ffn
                           (dropout_p (config self)) PRE (device self) (dtype self)) ∧
         h' !! self_attn = Some (StandardMultiheadAttention (model_dim (config self))
                                   (num_encoder_attn_heads (config self)) sdpa
                                   (device self) (dtype self)) ∧
         h' !! sdpa = Some (DefaultSDPA (dropout_p (config self))) ∧
         h' !! ffn = Some (StandardFeedForwardNetwork (model_dim (config self))
                             (ffn_inner_dim (config self)) PRE
                             (device self) (dtype self))) ∧
    (∀ l, l ∈ ld →
       ∃ self_attn encoder_decoder_attn ffn sdpa1 sdpa2,
         h' !! l = Some (StandardTransformerDecoderLayer self_attn encoder_decoder_attn
                           ffn (dropout_p (config self)) PRE
                           (device self) (dtype self)) ∧
         h' !! self_attn = Some (StandardMultiheadAttention (model_dim (config self))
                                   (num_decoder_attn_heads (config self)) sdpa1
                                   (device self) (dtype self)) ∧
         h' !! encoder_decoder_attn
           = Some (StandardMultiheadAttention (model_dim (config self))
                     (num_decoder_attn_heads (config self)) sdpa2
                     (device self) (dtype self)) ∧
         h' !! sdpa1 = Some (DefaultSDPA (dropout_p (config self))) ∧
         h' !! sdpa2 = Some (DefaultSDPA (dropout_p (config self))) ∧
         h' !! ffn = Some (StandardFeedForwardNetwork (model_dim (config self))
                             (ffn_inner_dim (config self)) PRE
                             (device self) (dtype self))) ∧
    NoDup (concat (layer_modules h' <$> (le ++ ld))) ∧
    (∀ r, r ∈ concat (layer_modules h' <$> (le ++ ld)) →
          (length h ≤ r < m)%nat ∧
          r ∉ [enc; dec; proj; frontend] ++ held_by h' frontend).
Proof.
  intros [-> ->]%build_model_returns. set (b := length h).
  set (ne := encoder_layers self). set (nd := decoder_layers self).
  assert (Henc : ∀ i j, i < ne → j < 4 →
            (h ++ model_plan self b) !! (b + 3 + 4 * i + j)
            = encoder_layer_plan self (b + 3 + 4 * i) !! j).
  { intros i j Hi Hj. rewrite <- plan_encoder_layer by done. unfold b.
    replace (length h + 3 + 4 * i + j) with (length h + (3 + 4 * i + j)) by lia.
    apply lookup_new. }
  assert (Hdec : ∀ i j, i < nd → j < 6 →
            (h ++ model_plan self b) !! (b + 4 + 4 * ne + 6 * i + j)
            = decoder_layer_plan self (b + 4 + 4 * ne + 6 * i) !! j).
  { intros i j Hi Hj. rewrite <- plan_decoder_layer by done. unfold b.
    replace (length h + 4 + 4 * ne + 6 * i + j)
      with (length h + (4 + 4 * ne + 6 * i + j)) by lia.
    apply lookup_new. }
  assert (Hfront : (h ++ model_plan self b) !! (b + 2)
            = Some (TransformerEmbeddingFrontend b (b + 1) (dropout_p (config self))
                      (device self) (dtype self))).
  { unfold b. by rewrite (lookup_new h _ 2). }
  exists (b + 2), (b + 3 + 4 * ne), (b + 4 + 4 * ne + 6 * nd),
    (b + 5 + 4 * ne + 6 * nd),
    (layers_refs 4 ne (b + 3)), (layers_refs 6 nd (b + 4 + 4 * ne)).
  split.
  { unfold model_ref, b. fold ne nd.
    replace (length h + 6 + 4 * ne + 6 * nd)
      with (length h + (4 + 4 * ne + 6 * nd + 2)) by lia.
    rewrite lookup_new. unfold ne, nd. rewrite plan_tail by lia. done. }
  split.
  { unfold b. replace (length h + 3 + 4 * ne) with (length h + (3 + 4 * ne)) by lia.
    rewrite lookup_new. unfold ne. by rewrite plan_encoder. }
  split.
  { unfold b.
    replace (length h + 4 + 4 * ne + 6 * nd)
      with (length h + (4 + 4 * ne + 6 * nd + 0)) by lia.
    rewrite lookup_new. unfold ne, nd. rewrite plan_tail by lia. done. }
  split.
  { intros l (i & Hi & ->)%layers_refs_elem.
    pose proof (Henc i 0 Hi ltac:(lia)) as H0. pose proof (Henc i 1 Hi ltac:(lia)) as H1.
    pose proof (Henc i 2 Hi ltac:(lia)) as H2. pose proof (Henc i 3 Hi ltac:(lia)) as H3.
    rewrite Nat.add_0_r in H0.
    replace (b + 3 + 4 * i + 4 - 1) with (b + 3 + 4 * i + 3) by lia.
    remember (b + 3 + 4 * i) as c eqn:Hc. clear Hc. simpl in H0, H1, H2, H3.
    by exists (c + 1), (c + 2), c. }
  split.
  { intros l (i & Hi & ->)%layers_refs_elem.
    pose proof (Hdec i 0 Hi ltac:(lia)) as H0. pose proof (Hdec i 1 Hi ltac:(lia)) as H1.
    pose proof (Hdec i 2 Hi ltac:(lia)) as H2. pose proof (Hdec i 3 Hi ltac:(lia)) as H3.
    pose proof (Hdec i 4 Hi ltac:(lia)) as H4. pose proof (Hdec i 5 Hi ltac:(lia)) as H5.
    rewrite Nat.add_0_r in H0.
    replace (b + 4 + 4 * ne + 6 * i + 6 - 1) with (b + 4 + 4 * ne + 6 * i + 5) by lia.
    remember (b + 4 + 4 * ne + 6 * i) as c eqn:Hc. clear Hc.
    simpl in H0, H1, H2, H3, H4, H5.
    by exists (c + 1), (c + 3), (c + 4), c, (c + 2). }
  assert (Hperm : concat (layer_modules (h ++ model_plan self b)
                            <$> (layers_refs 4 ne (b + 3)
                                 ++ layers_refs 6 nd (b + 4 + 4 * ne)))
                  ≡ₚ seq (b + 3) (4 * ne) ++ seq (b + 4 + 4 * ne) (6 * nd)).
  { rewrite fmap_app, concat_app. apply Permutation_app.
    - by apply encoder_modules_perm.
    - by apply decoder_modules_perm. }
  split.
  { rewrite Hperm. apply NoDup_app. split; [apply NoDup_seq|].
    split; [|apply NoDup_seq].
    intros x Hx Hy. apply elem_of_seq in Hx, Hy. lia. }
  intros r Hr. rewrite Hperm in Hr. rewrite (held_by_lookup _ _ _ Hfront). simpl.
  apply elem_of_app in Hr. rewrite !elem_of_seq in Hr.
  split; [unfold model_ref; fold b ne nd; lia|].
  rewrite !elem_of_cons, elem_of_nil. lia.
Qed.

End Builder.

(** The sample model, with two encoder layers and one decoder layer, built
    on an empty store: 21 objects, the model last. *)
Lemma build_model_shares_frontend_witness :
  let run := Nllb.build_model NllbSample.permissive NllbSample.builder [] in
  run.1 = inr 20 ∧ length run.2 = 21 ∧
  ∃ embed pos frontend enc dec proj le ld,
    run.2 !! 20 = Some (TransformerModel frontend enc frontend dec proj 0) ∧
    run.2 !! frontend
      = Some (TransformerEmbeddingFrontend embed pos "0.1" None (Some "float16")) ∧
    run.2 !! embed = Some (Embedding 32 8 0 true None (Some "float16")) ∧
    run.2 !! pos = Some (SinusoidalPositionEncoder 8 16 0 None (Some "float16")) ∧
    run.2 !! proj = Some (TiedProjection embed) ∧
    run.2 !! enc = Some (StandardTransformerEncoder le PRE None (Some "float16")) ∧
    length le = 2 ∧
    run.2 !! dec = Some (StandardTransformerDecoder ld PRE None (Some "float16")) ∧
    length ld = 1 ∧
    length run.2 = 0 + 7 + 4 * length le + 6 * length ld ∧
    (∀ i, i < 0 → run.2 !! i = @nil (Obj string string) !! i).
Proof.
  intros run.
  assert (Hrun : Nllb.build_model NllbSample.permissive NllbSample.builder []
                 = (inr 20, run.2)) by (vm_compute; reflexivity).
  split; [vm_compute; reflexivity|]. split; [vm_compute; reflexivity|].
  exact (build_model_shares_frontend NllbSample.permissive NllbSample.builder
           [] 20 run.2 Hrun).
Defined.

(** The attention of the first encoder layer of the sample model. *)
Lemma build_model_settings_witness :
  let run := Nllb.build_model NllbSample.permissive NllbSample.builder [] in
  let o := StandardMultiheadAttention 8 2 3 None (Some "float16") in
  run.2 !! 4 = Some o ∧
  settled NllbSample.builder o ∧ ∀ r, r ∈ parts o → (0 ≤ r < 4)%nat.
Proof.
  intros run o.
  assert (Ho : run.2 !! 4 = Some o) by (vm_compute; reflexivity).
  split; [exact Ho|].
  exact (build_model_settings NllbSample.permissive NllbSample.builder
           [] run.1 run.2 4 o (surjective_pairing run) (Nat.le_0_l 4) Ho).
Defined.

(** Constructors that check the heads: the decoder's three heads do not
    divide the model dimension, and the build stops at the first attention
    of the decoder, after 13 objects. *)
Lemma build_model_failure_witness :
  let run := Nllb.build_model NllbSample.checking NllbSample.builder [] in
  let e := Python (ValueError "`model_dim` must be a multiple of `num_heads`.") in
  run.1 = inl e ∧ length run.2 = 13 ∧
  ∃ k o,
    model_plan NllbSample.builder 0 !! k = Some o ∧
    NllbSample.checking run.2 o = Some e ∧
    run.2 = [] ++ take k (model_plan NllbSample.builder 0) ∧
    length run.2 = 0 + k ∧
    k < 7 + 4 * encoder_layers NllbSample.builder + 6 * decoder_layers NllbSample.builder ∧
    (∀ i o', (0 ≤ i)%nat → run.2 !! i = Some o' → is_model o' = false).
Proof.
  intros run e.
  assert (Hrun : Nllb.build_model NllbSample.checking NllbSample.builder []
                 = (inl e, run.2)) by (vm_compute; reflexivity).
  split; [vm_compute; reflexivity|]. split; [vm_compute; reflexivity|].
  exact (build_model_failure NllbSample.checking NllbSample.builder [] e run.2 Hrun).
Defined.

(** The layers of the sample model: fourteen modules, all different. *)
Lemma layers_share_nothing_witness :
  let run := Nllb.build_model NllbSample.permissive NllbSample.builder [] in
  ∃ le ld,
    run.2 !! 11 = Some (StandardTransformerEncoder le PRE None (Some "float16")) ∧
    run.2 !! 18 = Some (StandardTransformerDecoder ld PRE None (Some "float16")) ∧
    length (concat (layer_modules run.2 <$> (le ++ ld))) = 14 ∧
    NoDup (concat (layer_modules run.2 <$> (le ++ ld))).
Proof.
  intros run.
  assert (Hrun : Nllb.build_model NllbSample.permissive NllbSample.builder []
                 = (inr 20, run.2)) by (vm_compute; reflexivity).
  destruct (layers_share_nothing NllbSample.permissive NllbSample.builder
              [] 20 run.2 Hrun)
    as (frontend & enc & dec & proj & le & ld & Hm & He & Hd & _ & _ & Hnd & _).
  assert (Hmodel : run.2 !! 20 = Some (TransformerModel 2 11 2 18 19 0))
    by (vm_compute; reflexivity).
  pose proof (eq_trans (eq_sym Hm) Hmodel) as Em. injection Em; intros; subst frontend enc dec proj.
  assert (Hle : run.2 !! 11
                = Some (StandardTransformerEncoder [6; 10] PRE None (Some "float16")))
    by (vm_compute; reflexivity).
  assert (Hld : run.2 !! 18
                = Some (StandardTransformerDecoder [17] PRE None (Some "float16")))
    by (vm_compute; reflexivity).
  pose proof (eq_trans (eq_sym He) Hle) as Ee. injection Ee as ->.
  pose proof (eq_trans (eq_sym Hd) Hld) as Ed. injection Ed as ->.
  exists [6; 10], [17]. split; [exact Hle|]. split; [exact Hld|].
  split; [vm_compute; reflexivity|exact Hnd].
Defined.

End NllbProps.

(** ** What a failed setup leaves behind *)

Module LoaderFailureProps.
Import MTEval LoaderSpec MonadFacts UnitProps LoaderProps.

Section Loader.
Context `{Collaborators}.

Variables (context : RuntimeContext) (config : Config.MTEvalConfig)
          (output_dir : Path) (gangs : Gangs) (tokenizer : TextTokenizer)
          (generator : Seq2SeqGenerator) (criterion : MTCriterion).

#[local] Abbreviation body := (loop_body context config output_dir gangs tokenizer generator criterion).
#[local] Abbreviation loop := (directions_loop context config output_dir gangs tokenizer generator criterion).
#[local] Abbreviation step := (step_vars config gangs tokenizer generator criterion).
#[local] Abbreviation failure := (first_failure (file_system context) output_dir (rank (dp gangs))).
#[local] Abbreviation left := (left_behind (file_system context) output_dir (rank (dp gangs))).

Lemma grown_directory w p :
  {| directories := directories w ++ [p]; streams := streams w;
     generator_calls := generator_calls w |} = grown w [p] [].
Proof. unfold grown. simpl. by rewrite app_nil_r. Qed.

Lemma grown_file w p :
  set_streams (λ ss, ss ++ [{| name := p; mode := WRITE; flushed := ""; pending := "" |}]) w
  = grown w [] [p].
Proof. unfold grown, set_streams, opened. simpl. by rewrite app_nil_r. Qed.

(** An iteration on a writer for which the file system refuses something:
    the error, and the world with what was done before the refusal. *)
Lemma body_fails_world d vars w e :
  rank (tp gangs) = 0%Z →
  failure d = Some e →
  body d vars w = (inl e, grown w (left d).1 (left d).2).
Proof.
  intros Htp Hbad. unfold first_failure in Hbad. unfold left_behind.
  unfold loop_body. destruct (decide _) as [_|]; [|done].
  unfold output_file in *. simpl in *.
  unfold bind, try_except, make_directory, open_text, modify, ret, raise, lift.
  destruct (make_directory_error _ _).
  { simplify_eq. simpl. by rewrite grown_nil. }
  destruct (open_text_error _ _ _).
  { simplify_eq. simpl. by rewrite grown_directory. }
  destruct (open_text_error _ _ _).
  { simplify_eq. simpl. by rewrite grown_directory, grown_file, grown_grown. }
  destruct (open_text_error _ _ _); [|done].
  simplify_eq. simpl.
  by rewrite grown_directory, !grown_file, !grown_grown.
Qed.

(** A loop that raised: the direction at which it stopped, and the world. *)
Lemma loop_fails_world ds vars w e w' :
  loop ds vars w = (inl e, w') →
  rank (tp gangs) = 0%Z ∧
  ∃ before d after,
    ds = before ++ d :: after ∧
    Forall (λ d, failure d = None) before ∧
    failure d = Some e ∧
    w' = grown w
           (((λ d, parent (output_file output_dir d (rank (dp gangs)) "src")) <$> before)
            ++ (left d).1)
           (flat_map (direction_files output_dir (rank (dp gangs))) before
            ++ (left d).2).
Proof.
  intros Hrun.
  destruct (decide (rank (tp gangs) = 0%Z)) as [Htp|Htp];
    [|by rewrite loop_non_writer in Hrun by done].
  split; [done|]. revert vars w w' Hrun.
  induction ds as [|d ds IH]; intros vars w w' Hrun; [done|].
  simpl in Hrun. unfold bind in Hrun.
  destruct (failure d) as [e'|] eqn:Hd.
  - rewrite (body_fails_world d vars w e' Htp Hd) in Hrun. simplify_eq.
    exists [], d, ds. by repeat split.
  - rewrite body_writer in Hrun by done.
    apply IH in Hrun as (before & d' & after & -> & Hok & Hbad & ->).
    exists (d :: before), d', after. split; [done|].
    split; [by constructor|]. split; [done|].
    rewrite grown_grown. simpl. by rewrite <- ?app_assoc.
Qed.

End Loader.

Section Load.
Context `{Collaborators}.


End Load.


End LoaderFailureProps.
